(** * MagicCursorRules, tools: the scraper, the search, the LLM queries.

    A shallow embedding of the three functions of [tools/web_scraper.py]
    ([fetch_url], [extract_main_content], [scrape_urls]) together with the
    small part of Python and of the two libraries the module calls (aiohttp,
    BeautifulSoup) that their behaviour depends on; then of its [main] and of
    the other tools, [tools/search_engine.py], [tools/llm_api.py] and
    [tools/plan_exec_llm.py], whose calls are values that record the
    requests made, the files opened and the texts printed, over a world that
    gives the answers of the web, the contents of the files and what the
    standard output takes.  Logging is left out.

    - Python [str] values are lists of Unicode code points.
    - Result records are Python dicts from literal keys to values; they are
      finite maps, so that a key that is absent and a key bound to [None]
      stay different.
    - The parsed document is a tree of tags and strings; the HTML parser and
      the CSS matcher of the selector engine are parameters.
    - The network is a parameter as well: it tells, for the request of every
      task, whether the exchange completed and with which status, or which
      exception it raised.  The order in which the tasks complete is a
      parameter of [gather]. *)

From Stdlib Require Import ZArith NArith Ascii String List Permutation Lia.
From Stdlib Require PrimFloat.
From stdpp Require Import base option list gmap strings pretty.

Set Warnings "-register-all".

Local Open Scope Z_scope.

(* ===================================================================== *)
(** ** Python strings *)
(* ===================================================================== *)

Module PyStr.

(** A character is a code point; a [str] is a sequence of them. *)
Definition char : Type := N.
Definition str : Type := list char.

(** String literals of the source are written as Rocq strings and read
    character by character (all literals of the module are ASCII). *)
Definition lit (s : string) : str :=
  List.map N_of_ascii (list_ascii_of_string s).

(** [str.isspace] for one character, the set [str.strip()] removes when it is
    called without argument: the Unicode white space of CPython. *)
Definition isspace (c : char) : bool :=
  ((9 <=? c) && (c <=? 13) ||
   (28 <=? c) && (c <=? 32) ||
   (c =? 133) || (c =? 160) || (c =? 5760) ||
   (8192 <=? c) && (c <=? 8202) ||
   (c =? 8232) || (c =? 8233) || (c =? 8239) || (c =? 8287) ||
   (c =? 12288))%N.

Fixpoint drop_while {A} (p : A → bool) (l : list A) : list A :=
  match l with
  | [] => []
  | x :: l' => if p x then drop_while p l' else l
  end.

(** [s.lstrip()], [s.rstrip()], [s.strip()]. *)
Definition lstrip (s : str) : str := drop_while isspace s.
Definition rstrip (s : str) : str := rev (drop_while isspace (rev s)).
Definition strip (s : str) : str := rstrip (lstrip s).

(** The line feed and the separator appended after every collected node. *)
Definition LF : char := 10%N.
Definition blank_line : str := [LF; LF].

(** [sep.join(l)]. *)
Fixpoint join (sep : str) (l : list str) : str :=
  match l with
  | [] => []
  | [s] => s
  | s :: l' => s ++ sep ++ join sep l'
  end.

(** A string is clean when it neither starts nor ends with white space. *)
Definition clean (s : str) : Prop :=
  (∀ c, head s = Some c → isspace c = false) ∧
  (∀ c, last s = Some c → isspace c = false).

End PyStr.
Import PyStr.

(* ===================================================================== *)
(** ** Exceptions *)
(* ===================================================================== *)

Module Exc.

(** An exception of class [Exception], the class both [except] clauses of
    the module catch: its class name and [str(e)].  Exceptions outside that
    class (a keyboard interrupt, the cancellation of a task) are not
    modelled. *)
Record exn : Type := Exception { exn_class : string; exn_str : str }.

(** A computation that returns or raises. *)
Inductive exc (A : Type) : Type :=
| Return (a : A)
| Raise (e : exn).
Arguments Return {A} a.
Arguments Raise {A} e.

#[global] Instance exc_ret : MRet exc := λ A a, Return a.
#[global] Instance exc_bind : MBind exc := λ A B f m,
  match m with
  | Return a => f a
  | Raise e => Raise e
  end.
#[global] Instance exc_fmap : FMap exc := λ A B f m,
  match m with
  | Return a => Return (f a)
  | Raise e => Raise e
  end.

(** [try: body except Exception as e: handler]. *)
Definition try_except {A} (body : exc A) (handler : exn → A) : A :=
  match body with
  | Return a => a
  | Raise e => handler e
  end.

End Exc.
Import Exc.

(* ===================================================================== *)
(** ** The parsed document (BeautifulSoup) *)
(* ===================================================================== *)

Module Soup.

(** The classes of strings of a parsed tree.  [get_text] keeps the first
    two; comments, declarations and the strings the parser puts under
    script, style or template tags belong to the other classes. *)
Inductive string_class : Type :=
| NavigableString | CData | Comment | Declaration | Doctype
| ProcessingInstruction | Script | Stylesheet | TemplateString.

(** A page element: a tag with its attribute dict and its contents, or a
    string.  The document itself is a tag (of name [[document]]). *)
Inductive node : Type :=
| Tag (name : str) (attrs : gmap str str) (contents : list node)
| Text (cls : string_class) (s : str).

Definition is_tag (n : node) : bool :=
  match n with Tag _ _ _ => true | Text _ _ => false end.

Definition str_eqb (a b : str) : bool := bool_decide (a = b).

Definition str_in (a : str) (l : list str) : bool := existsb (str_eqb a) l.

(** The element is a tag whose name is one of [names]. *)
Definition named (names : list str) (n : node) : bool :=
  match n with
  | Tag name _ _ => str_in name names
  | Text _ _ => false
  end.

(** [n.descendants]: every element below [n], in document order. *)
Fixpoint descendants (n : node) : list node :=
  match n with
  | Tag _ _ contents => flat_map (λ c, c :: descendants c) contents
  | Text _ _ => []
  end.

(** [n.find_all(names)], also written [n(names)]. *)
Definition find_all (names : list str) (n : node) : list node :=
  List.filter (named names) (descendants n).

(** [n.find(name)], also written [n.name]: the first such tag, or None. *)
Definition find (name : str) (n : node) : option node :=
  head (find_all [name] n).

(** The tree after [element.decompose()] has been called on every element of
    [n(names)]: each such tag is gone with everything below it. *)
Fixpoint decompose_all (names : list str) (n : node) : node :=
  match n with
  | Tag name attrs contents =>
      Tag name attrs
        ((fix go (l : list node) : list node :=
            match l with
            | [] => []
            | c :: l' =>
                if named names c then go l'
                else decompose_all names c :: go l'
            end) contents)
  | Text cls s => Text cls s
  end.

Definition own_text (n : node) : str :=
  match n with
  | Text NavigableString s | Text CData s => s
  | _ => []
  end.

(** [n.get_text()]: the strings below [n], concatenated. *)
Definition get_text (n : node) : str :=
  concat (List.map own_text (descendants n)).

(** The simple selectors the module uses: a type selector, an attribute
    selector with an exact value, an id selector and a class selector. *)
Inductive selector : Type :=
| SelType (name : str)
| SelAttr (attr value : str)
| SelId (id : str)
| SelClass (cls : str).

(** The two entry points of the library that are not modelled: the parser,
    which may raise, and the test that a tag matches a selector. *)
Class BeautifulSoup : Type := {
  html_parser : str → exc node;
  sel_match : selector → node → bool
}.

(** [soup.select(sel)]: the matching tags below [soup], in document order. *)
Definition select `{BeautifulSoup} (sel : selector) (soup : node) : list node :=
  List.filter (λ n, is_tag n && sel_match sel n) (descendants soup).

(** Splitting an attribute value at white space (the class attribute). *)
Fixpoint split_ws_go (cur : str) (s : str) : list str :=
  match s with
  | [] => match cur with [] => [] | _ => [rev cur] end
  | c :: s' =>
      if isspace c
      then match cur with
           | [] => split_ws_go [] s'
           | _ => rev cur :: split_ws_go [] s'
           end
      else split_ws_go (c :: cur) s'
  end.
Definition split_ws (s : str) : list str := split_ws_go [] s.

(** The usual reading of the four kinds of selectors, for running the
    extractor on concrete trees. *)
Definition css_match (sel : selector) (n : node) : bool :=
  match n with
  | Text _ _ => false
  | Tag name attrs _ =>
      match sel with
      | SelType t => str_eqb name t
      | SelAttr a v => bool_decide (attrs !! a = Some v)
      | SelId i => bool_decide (attrs !! lit "id" = Some i)
      | SelClass c => str_in c (split_ws (default [] (attrs !! lit "class")))
      end
  end.

End Soup.
Import Soup.

(* ===================================================================== *)
(** ** extract_main_content *)
(* ===================================================================== *)

Module Extractor.

(** [['script', 'style', 'nav', 'footer', 'iframe']] *)
Definition removed_tags : list str :=
  [lit "script"; lit "style"; lit "nav"; lit "footer"; lit "iframe"].

(** [['main', 'article', '[role=main]', '#content', '.content', '#main',
    '.main']], each selector in parsed form. *)
Definition containers : list selector :=
  [SelType (lit "main"); SelType (lit "article");
   SelAttr (lit "role") (lit "main");
   SelId (lit "content"); SelClass (lit "content");
   SelId (lit "main"); SelClass (lit "main")].

(** [['p', 'h1', 'h2', 'h3', 'h4', 'h5', 'h6', 'li']] *)
Definition text_tags : list str :=
  [lit "p"; lit "h1"; lit "h2"; lit "h3"; lit "h4"; lit "h5"; lit "h6";
   lit "li"].

Definition sentinel : str := lit "Error extracting content".

Section extractor.
Context `{BeautifulSoup}.

(** The loop over the container selectors: the first selector with a
    non-empty result decides, and the first element of its result is taken. *)
Fixpoint first_container (cs : list selector) (soup : node) : option node :=
  match cs with
  | [] => None
  | container :: cs' =>
      match select container soup with
      | n :: _ => Some n
      | [] => first_container cs' soup
      end
  end.

(** The three assignments to [main_content].  A tag is always true in a
    condition, so [not main_content] holds exactly for None. *)
Definition select_main_content (soup : node) : node :=
  let main_content := first_container containers soup in
  let main_content :=
    match main_content with
    | Some n => Some n
    | None => find (lit "body") soup
    end in
  match main_content with
  | Some n => n
  | None => soup
  end.

(** What one collected node adds to [text] before the separator. *)
Definition entry_text (p : node) : str := strip (get_text p).

(** The loop [for p in main_content.find_all(...): text += ...]. *)
Definition collect_text (main_content : node) : str :=
  fold_left (λ text p, text ++ (entry_text p ++ blank_line))
            (find_all text_tags main_content) [].

(** The body of the [try] block. *)
Definition extract_body (html_content : str) : exc str :=
  soup ← html_parser html_content;
  let soup := decompose_all removed_tags soup in
  let main_content := select_main_content soup in
  mret (strip (collect_text main_content)).

Definition extract_main_content (html_content : str) : str :=
  try_except (extract_body html_content) (λ _, sentinel).

End extractor.

(** Following the words of the specification: the texts of the collected
    nodes of a region, in document order, separated by blank lines, and the
    whole trimmed.  The text of a node is read as [entry_text], its text
    without the white space around it. *)
Definition spec_region_text (region : node) : str :=
  strip (join blank_line (List.map entry_text (find_all text_tags region))).

(** [n] is the first element below [soup], in document order, that [P]
    accepts. *)
Definition first_in_document_order (P : node → bool) (soup n : node) : Prop :=
  ∃ before after,
    descendants soup = before ++ n :: after ∧
    P n = true ∧
    forallb (λ m, negb (P m)) before = true.

End Extractor.
Import Extractor.

(* ===================================================================== *)
(** ** Result records, fetch_url, scrape_urls *)
(* ===================================================================== *)

Module Scraper.

(** The values stored in a result dict. *)
Inductive value : Type :=
| VNone
| VBool (b : bool)
| VInt (z : Z)
| VStr (s : str).

(** A result dict, [Dict[str, Any]]. *)
Abbreviation record := (gmap string value).

(** The truth value of an object in a condition. *)
Definition truthy (v : value) : bool :=
  match v with
  | VNone => false
  | VBool b => b
  | VInt z => negb (z =? 0)
  | VStr s => match s with [] => false | _ => true end
  end.

Definition KeyError (key : string) : exn :=
  Exception "KeyError" (lit "'" ++ lit key ++ lit "'").

(** [d[key]] *)
Definition getitem (d : record) (key : string) : exc value :=
  match d !! key with
  | Some v => Return v
  | None => Raise (KeyError key)
  end.

(** [del d[key]] *)
Definition delitem (d : record) (key : string) : exc record :=
  match d !! key with
  | Some _ => Return (delete key d)
  | None => Raise (KeyError key)
  end.

(** [str(z)] for an int. *)
Definition str_of_int (z : Z) : str := lit (pretty z).

(** A completed exchange: [response.status], and what [await
    response.text()] gives, a body or an exception. *)
Record response : Type := Response {
  status : Z;
  text : exc str
}.

(** [aiohttp.TCPConnector(limit=...)] *)
Record TCPConnector : Type := { limit : Z }.

(** The session as one task sees it: [get url] is what
    [session.get(url, timeout=30)] does for the request of this task, a
    completed exchange or an exception (connection failure, timeout, DNS
    failure, invalid URL). *)
Record ClientSession : Type := {
  connector : TCPConnector;
  get : str → exc response
}.

(** The network: the answer to the request made by the task at a position of
    the batch. *)
Definition network : Type := nat → str → exc response.

Definition fetch_url (session : ClientSession) (url : str) : record :=
  try_except
    (response ← get session url;
     if negb (status response =? 200) then
       mret ({[ "url" := VStr url;
                "success" := VBool false;
                "status" := VInt (status response);
                "error" := VStr (lit "HTTP error: " ++
                                 str_of_int (status response));
                "content" := VNone ]} : record)
     else
       content ← text response;
       mret ({[ "url" := VStr url;
                "success" := VBool true;
                "status" := VInt (status response);
                "content" := VStr content ]} : record))
    (λ e, {[ "url" := VStr url;
             "success" := VBool false;
             "error" := VStr (exn_str e);
             "content" := VNone ]}).

(** [asyncio.gather] over the tasks.  [tasks] holds what each coroutine returns;
    [order] lists the positions of the tasks in the order in which they
    complete.  The result of a task is stored at the position of the task,
    and [gather] returns once every position is filled. *)
Definition complete {A} (tasks : list A) (slots : list (option A)) (i : nat)
  : list (option A) :=
  match tasks !! i with
  | Some r => <[i := Some r]> slots
  | None => slots
  end.

Definition gather {A} (tasks : list A) (order : list nat) : option (list A) :=
  mapM id (fold_left (complete tasks) order (replicate (length tasks) None)).

Section scrape.
Context `{BeautifulSoup}.

(** [extract_main_content] applied to a value of a record.  The value is a
    str whenever the call is reached; on anything else the parser raises
    inside the try block. *)
Definition extract_value (content : value) : str :=
  match content with
  | VStr html => extract_main_content html
  | _ => sentinel
  end.

(** The body of the loop [for result in results]. *)
Definition process_result (result : record) : exc record :=
  success ← getitem result "success";
  if truthy success then
    content ← getitem result "content";
    let result :=
      <["extracted_content" := VStr (extract_value content)]> result in
    delitem result "content"
  else mret result.

(** [None]: the awaited tasks never all complete.  [Some (Raise e)]: the
    call raises.  [Some (Return results)]: the call returns [results]. *)
Definition scrape_urls (net : network) (order : list nat)
    (urls : list str) (max_concurrent : Z) : option (exc (list record)) :=
  let connector := {| limit := max_concurrent |} in
  let session (i : nat) := {| connector := connector; get := net i |} in
  let tasks := imap (λ i url, fetch_url (session i) url) urls in
  results ← gather tasks order;
  Some (mapM process_result results).

(** The record the batch returns for one request, read off the answer of
    the network: the four ways through [fetch_url] followed by the loop body
    (see [process_fetch_url]). *)
Definition final_record (answer : exc response) (url : str) : record :=
  match answer with
  | Raise e =>
      {[ "url" := VStr url; "success" := VBool false;
         "error" := VStr (exn_str e); "content" := VNone ]}
  | Return (Response st body) =>
      if negb (st =? 200) then
        {[ "url" := VStr url; "success" := VBool false; "status" := VInt st;
           "error" := VStr (lit "HTTP error: " ++ str_of_int st);
           "content" := VNone ]}
      else
        match body with
        | Raise e =>
            {[ "url" := VStr url; "success" := VBool false;
               "error" := VStr (exn_str e); "content" := VNone ]}
        | Return html =>
            {[ "url" := VStr url; "success" := VBool true; "status" := VInt st;
               "extracted_content" := VStr (extract_main_content html) ]}
        end
  end.

End scrape.

(** Every task of a batch of [m] URLs completes. *)
Definition all_complete (m : nat) (order : list nat) : Prop :=
  ∀ i, (i < m)%nat → i ∈ order.

(** The presence of a key, [key in d]. *)
Definition has_key (d : record) (key : string) : Prop := is_Some (d !! key).

End Scraper.
Import Scraper.

(* ===================================================================== *)
(** ** Properties of records, and sample inputs *)
(* ===================================================================== *)

Module Props.

(** The six fields a record may have, in the order url, success, status,
    error, content, extracted_content. *)
Definition fields (r : record)
  : option value * option value * option value *
    option value * option value * option value :=
  (r !! "url", r !! "success", r !! "status",
   r !! "error", r !! "content", r !! "extracted_content").

(** Mutual exclusivity with no content key whatever the record: a success
    record has the extracted text and no error, a failure record has an error
    and no extracted text, and the key [content] is never there. *)
Definition exclusive_without_content (r : record) : Prop :=
  (r !! "success" = Some (VBool true) →
     has_key r "extracted_content" ∧ ¬ has_key r "error") ∧
  (r !! "success" = Some (VBool false) →
     has_key r "error" ∧ ¬ has_key r "extracted_content") ∧
  ¬ has_key r "content".

(** Mutual exclusivity as the code has it: a success record has no content
    key, a failure record keeps the key bound to None. *)
Definition exclusive (r : record) : Prop :=
  (∃ b, r !! "success" = Some (VBool b)) ∧
  (r !! "success" = Some (VBool true) →
     (∃ extracted, r !! "extracted_content" = Some (VStr extracted)) ∧
     ¬ has_key r "error" ∧ ¬ has_key r "content") ∧
  (r !! "success" = Some (VBool false) →
     (∃ msg, r !! "error" = Some (VStr msg)) ∧
     ¬ has_key r "extracted_content" ∧ r !! "content" = Some VNone).

(** The answer of the network is a fault [e]: the request raised, or the
    exchange completed with the OK status and reading the body raised. *)
Definition faulted (answer : exc response) (e : exn) : Prop :=
  answer = Raise e ∨ answer = Return (Response 200 (Raise e)).

(** The record of a fault with a descriptive error: success is false, there
    is no status, and the error text says something, that is, is not
    empty. *)
Definition descriptive_fault_record (r : record) : Prop :=
  r !! "success" = Some (VBool false) ∧
  (∃ msg, r !! "error" = Some (VStr msg) ∧ msg ≠ []) ∧
  r !! "status" = None.

(** Two networks that answer alike to every task but the one at [i]. *)
Definition same_but (i : nat) (net net' : network) : Prop :=
  ∀ (j : nat) url, j ≠ i → net' j url = net j url.

End Props.
Import Props.

Module Sample.

Definition tag (name : string) (contents : list node) : node :=
  Tag (lit name) ∅ contents.
Definition txt (s : string) : node := Text NavigableString (lit s).

(** A page with a body only: a navigation bar, a heading, a paragraph, a
    script and a list. *)
Definition plain_body : node :=
  tag "body"
    [tag "nav" [tag "li" [txt "Home"]];
     tag "h1" [txt " News "];
     tag "p" [txt "  first "; tag "b" [txt "bold"]; txt " "];
     tag "script" [Text Script (lit "var p;")];
     tag "ul" [tag "li" [txt "one"]; tag "li" [txt " two"]]].
Definition plain_soup : node :=
  tag "[document]" [tag "html" [tag "head" []; plain_body]].

(** A page where a tag with id content comes before two articles. *)
Definition content_div : node :=
  Tag (lit "div") {[ lit "id" := lit "content" ]} [tag "p" [txt "side"]].
Definition article1 : node := tag "article" [tag "p" [txt " story "]].
Definition article2 : node := tag "article" [tag "p" [txt "other"]].
Definition article_soup : node :=
  tag "[document]" [tag "body" [content_div; article1; article2]].

(** A page without any tag. *)
Definition bare_soup : node := tag "[document]" [txt "just text"].

Definition plain_html : str := lit "<plain>".
Definition article_html : str := lit "<article>".
Definition bare_html : str := lit "bare".

(** A stand-in for the library: the parser knows the three pages above and
    rejects everything else; the matcher is [css_match]. *)
Definition sample_soup : BeautifulSoup := {|
  html_parser html :=
    if str_eqb html plain_html then Return plain_soup
    else if str_eqb html article_html then Return article_soup
    else if str_eqb html bare_html then Return bare_soup
    else Raise (Exception "ParserRejectedMarkup" (lit "rejected"));
  sel_match := css_match
|}.

Definition url_a : str := lit "http://a.example/".
Definition url_b : str := lit "http://b.example/missing".
Definition url_c : str := lit "http://c.example/".
Definition url_d : str := lit "http://d.example/".

Definition timeout_error : exn := Exception "TimeoutError" [].

(** A network: the first request is answered with the plain page, the
    second with status 404, the third times out, the fourth is answered with
    markup the parser rejects. *)
Definition sample_net : network := λ i url,
  match i with
  | 0%nat => Return (Response 200 (Return plain_html))
  | 1%nat => Return (Response 404 (Return (lit "not found")))
  | 2%nat => Raise timeout_error
  | _ => Return (Response 200 (Return (lit "<![")))
  end.

Definition sample_urls : list str := [url_a; url_b; url_c; url_d].

(** The tasks complete in this order. *)
Definition sample_order : list nat := [2; 0; 3; 1]%nat.

(** What the batch returns for them. *)
Definition sample_results : list record :=
  [ {[ "url" := VStr url_a; "success" := VBool true; "status" := VInt 200;
       "extracted_content" :=
         VStr (lit "News" ++ blank_line ++ lit "first bold" ++ blank_line ++
               lit "one" ++ blank_line ++ lit "two") ]};
    {[ "url" := VStr url_b; "success" := VBool false; "status" := VInt 404;
       "error" := VStr (lit "HTTP error: 404"); "content" := VNone ]};
    {[ "url" := VStr url_c; "success" := VBool false;
       "error" := VStr []; "content" := VNone ]};
    {[ "url" := VStr url_d; "success" := VBool true; "status" := VInt 200;
       "extracted_content" := VStr sentinel ]} ].

End Sample.

(* ===================================================================== *)
(** ** JSON values and the operations the other tools apply to them *)
(* ===================================================================== *)

Module Json.

(** What [response.json()] gives, and what the tools build as payloads. *)
Inductive json : Type :=
| JNull
| JBool (b : bool)
| JInt (z : Z)
| JFloat (f : PrimFloat.float)
| JStr (s : str)
| JList (l : list json)
| JDict (d : gmap str json).

Abbreviation dict := (gmap str json).

(** [type(v).__name__] *)
Definition type_name (v : json) : string :=
  match v with
  | JNull => "NoneType"
  | JBool _ => "bool"
  | JInt _ => "int"
  | JFloat _ => "float"
  | JStr _ => "str"
  | JList _ => "list"
  | JDict _ => "dict"
  end.

Definition AttributeError (v : json) (attr : string) : exn :=
  Exception "AttributeError"
    (lit "'" ++ lit (type_name v) ++ lit "' object has no attribute '" ++
     lit attr ++ lit "'").

Definition not_subscriptable (v : json) : exn :=
  Exception "TypeError"
    (lit "'" ++ lit (type_name v) ++ lit "' object is not subscriptable").

Definition IndexError (what : string) : exn :=
  Exception "IndexError" (lit what ++ lit " index out of range").

(** [v.get(key, default)]: only a dict has the method. *)
Definition py_get (v : json) (key : string) (dflt : json) : exc json :=
  match v with
  | JDict d => Return (default dflt (d !! lit key))
  | _ => Raise (AttributeError v "get")
  end.

(** [v[0]].  The keys of a dict read from JSON are strings, so 0 is never
    one of them. *)
Definition py_index0 (v : json) : exc json :=
  match v with
  | JList [] => Raise (IndexError "list")
  | JList (x :: _) => Return x
  | JStr [] => Raise (IndexError "string")
  | JStr (c :: _) => Return (JStr [c])
  | JDict _ => Raise (Exception "KeyError" (lit "0"))
  | _ => Raise (not_subscriptable v)
  end.

(** [l[:n]] on a sequence: the first [n] elements, and all but the last
    [-n] when [n] is negative. *)
Definition slice_to {A} (l : list A) (n : Z) : list A :=
  if 0 <=? n then take (Z.to_nat n) l
  else take (length l - Z.to_nat (- n)) l.

(** The elements [for x in v[:n]] runs over.  [dict_slice_error] is the
    exception the interpreter raises when a dict is sliced. *)
Definition slice_items (dict_slice_error : exn) (v : json) (n : Z)
  : exc (list json) :=
  match v with
  | JList l => Return (slice_to l n)
  | JStr s => Return (List.map (λ c, JStr [c]) (slice_to s n))
  | JDict _ => Raise dict_slice_error
  | _ => Raise (not_subscriptable v)
  end.

(** The truth value of a str in a condition. *)
Definition nonempty (s : str) : bool :=
  match s with [] => false | _ => true end.

End Json.

(* ===================================================================== *)
(** ** Requests, files, and what a run does *)
(* ===================================================================== *)

Module Effects.
Import Json.

(** The arguments of [requests.get] and [requests.post]. *)
Record request : Type := Request {
  req_url : str;
  req_params : gmap str json;
  req_headers : gmap str str;
  req_json : option json
}.

(** A response: its status, the exception [raise_for_status()] raises for it
    when the status is an error status, what [json()] gives, and [text]. *)
Record http_response : Type := HttpResponse {
  status_code : Z;
  http_error : exn;
  body_json : exc json;
  body_text : str
}.

(** The outside of the tools: the web, the files, the standard output
    stream, and functions of the standard library and of the interpreter.
    [quote_plus] raises on a text it cannot encode, and so does a write on
    the standard output ([stdout_write] tells whether the stream takes the
    text, and the exception it raises when it does not). *)
Class World : Type := {
  requests_get : request → exc http_response;
  requests_post : request → exc http_response;
  read_bytes : str → exc (list N);
  read_text : str → exc str;
  b64encode : list N → str;
  quote_plus : str → exc str;
  dict_slice_error : exn;
  repr : json → str;
  stdout_write : str → exc unit
}.

(** What a run does, in order: [requests.get] or [requests.post] is called
    with a request, a file is opened, [print] writes a text on the standard
    output or on the standard error stream.  The lines of the logger are not
    recorded. *)
Inductive event : Type :=
| EvGet (r : request)
| EvPost (r : request)
| EvOpen (path : str)
| EvStdout (s : str)
| EvStderr (s : str).

(** How a call ends: it returns, it raises an exception of class
    [Exception], or [sys.exit] was called. *)
Inductive outcome (A : Type) : Type :=
| Ret (a : A)
| Exc (e : exn)
| SysExit (code : Z).
Arguments Ret {A} a.
Arguments Exc {A} e.
Arguments SysExit {A} code.

(** A call: what it did and how it ended. *)
Inductive io (A : Type) : Type :=
| IO (trace : list event) (res : outcome A).
Arguments IO {A} trace res.

Definition trace_of {A} (m : io A) : list event :=
  match m with IO t _ => t end.
Definition outcome_of {A} (m : io A) : outcome A :=
  match m with IO _ r => r end.

#[global] Instance io_ret : MRet io := λ A a, IO [] (Ret a).
#[global] Instance io_bind : MBind io := λ A B f m,
  match m with
  | IO t (Ret a) => match f a with IO t' r => IO (t ++ t') r end
  | IO t (Exc e) => IO t (Exc e)
  | IO t (SysExit c) => IO t (SysExit c)
  end.

Definition lift {A} (x : exc A) : io A :=
  match x with
  | Return a => IO [] (Ret a)
  | Raise e => IO [] (Exc e)
  end.

Definition emit (ev : event) : io unit := IO [ev] (Ret tt).

(** [try: body except Exception as e: handler].  [sys.exit] is not caught. *)
Definition try_io {A} (body : io A) (handler : exn → io A) : io A :=
  match body with
  | IO t (Exc e) => match handler e with IO t' r => IO (t ++ t') r end
  | _ => body
  end.

Definition sys_exit {A} (code : Z) : io A := IO [] (SysExit code).

(** [print(s, file=sys.stderr)]: the text and a newline.  The standard
    error stream escapes what it cannot encode. *)
Definition print_err (s : str) : io unit := emit (EvStderr (s ++ [LF])).

(** A call that does nothing outside and does not exit: it only returns or
    raises. *)
Definition pure_io {A} (m : io A) : Prop := ∃ x : exc A, m = lift x.

(** The requests sent. *)
Definition is_request (ev : event) : bool :=
  match ev with EvGet _ | EvPost _ => true | _ => false end.
Definition requests_sent (t : list event) : list event :=
  List.filter is_request t.

(** [for x in l: f(x)] *)
Fixpoint for_each {A} (f : A → io unit) (l : list A) : io unit :=
  match l with
  | [] => mret tt
  | x :: l' => _ ← f x; for_each f l'
  end.

Section world.
Context `{World}.

Definition http_get (r : request) : io http_response :=
  _ ← emit (EvGet r); lift (requests_get r).
Definition http_post (r : request) : io http_response :=
  _ ← emit (EvPost r); lift (requests_post r).

(** [response.raise_for_status()] *)
Definition raise_for_status (r : http_response) : io unit :=
  if (400 <=? status_code r) && (status_code r <? 600)
  then IO [] (Exc (http_error r))
  else mret tt.

(** [open(path, 'rb').read()] and [open(path, 'r').read()] *)
Definition open_read_bytes (path : str) : io (list N) :=
  _ ← emit (EvOpen path); lift (read_bytes path).
Definition open_read_text (path : str) : io str :=
  _ ← emit (EvOpen path); lift (read_text path).

(** [str(v)], as [print] and an f-string format a value: a str is itself,
    and for the other types of a JSON value [str] is [repr]. *)
Definition py_str (v : json) : str :=
  match v with
  | JStr s => s
  | _ => repr v
  end.

(** [print(s)]: the text and a newline, or the exception the standard
    output raises for the text (UnicodeEncodeError when it cannot encode
    it); nothing is written then. *)
Definition print (s : str) : io unit :=
  match stdout_write s with
  | Return _ => emit (EvStdout (s ++ [LF]))
  | Raise e => IO [] (Exc e)
  end.

(** The run of [print] calls that all succeed, one per text. *)
Definition printing (lines : list str) : list event :=
  (λ s, EvStdout (s ++ [LF])) <$> lines.

(** The call prints the texts in order: it returns when the standard
    output takes them all, and otherwise stops with the exception of the
    first text the standard output refuses, the texts before that one
    printed. *)
Definition prints (lines : list str) (m : io unit) : Prop :=
  ((∀ s, s ∈ lines → stdout_write s = Return tt) ∧
   m = IO (printing lines) (Ret tt)) ∨
  (∃ done s rest e,
     lines = done ++ s :: rest ∧
     (∀ s', s' ∈ done → stdout_write s' = Return tt) ∧
     stdout_write s = Raise e ∧
     m = IO (printing done) (Exc e)).

End world.

End Effects.

(* ===================================================================== *)
(** ** web_scraper.py: main *)
(* ===================================================================== *)

Module ScraperCli.
Import Effects.

(** [str(v)], as an f-string and [print] format a value. *)
Definition format (v : value) : str :=
  match v with
  | VNone => lit "None"
  | VBool true => lit "True"
  | VBool false => lit "False"
  | VInt z => str_of_int z
  | VStr s => s
  end.

(** ['-' * 80] *)
Definition rule : str := replicate 80 45%N.

Section main.
Context `{BeautifulSoup} `{World}.

(** The body of the printing loop. *)
Definition print_result (result : record) : io unit :=
  url ← lift (getitem result "url");
  _ ← print (lit "URL: " ++ format url);
  success ← lift (getitem result "success");
  _ ← print (lit "Status: " ++
             (if truthy success then lit "Success" else lit "Failed"));
  success ← lift (getitem result "success");
  if negb (truthy success) then
    _ ← print (lit "Error: " ++
               format (default (VStr (lit "Unknown error"))
                               (result !! "error")));
    print []
  else
    _ ← print (LF :: lit "Content:");
    _ ← print rule;
    _ ← print (format (default (VStr []) (result !! "extracted_content")));
    _ ← print rule;
    print [LF].

(** [main], from the parsed arguments on: the URLs and the cap.  [None]:
    the batch never completes.  The value records what [main] prints; the
    lines the logger writes on the standard error stream while the batch
    runs are not part of it. *)
Definition main (net : network) (order : list nat) (urls : list str)
    (max_concurrent : Z) : option (io unit) :=
  out ← scrape_urls net order urls max_concurrent;
  Some (results ← lift out; for_each print_result results).

(** The texts [main] prints for one request, one [print] each, by the
    answer of the network. *)
Definition report_lines (answer : exc response) (url : str) : list str :=
  let failed (msg : str) :=
    [lit "URL: " ++ url; lit "Status: Failed"; lit "Error: " ++ msg; []] in
  match answer with
  | Raise e => failed (exn_str e)
  | Return (Response st body) =>
      if negb (st =? 200) then failed (lit "HTTP error: " ++ str_of_int st)
      else
        match body with
        | Raise e => failed (exn_str e)
        | Return html =>
            [lit "URL: " ++ url; lit "Status: Success";
             LF :: lit "Content:"; rule; extract_main_content html; rule;
             [LF]]
        end
  end.

End main.

End ScraperCli.

(* ===================================================================== *)
(** ** search_engine.py *)
(* ===================================================================== *)

Module Search.
Import Json Effects.

(** The configuration read from the environment when the module is loaded. *)
Class SearchEnv : Type := {
  SERPAPI_KEY : str;
  GOOGLE_API_KEY : str;
  GOOGLE_CX : str
}.

(** [[{"error": msg}]] *)
Definition error_result (msg : str) : list dict :=
  [ {[ lit "error" := JStr msg ]} ].

(** The dict appended for one item of the answer of an API. *)
Definition shape_result (result : json) : exc dict :=
  title ← py_get result "title" (JStr []);
  url ← py_get result "link" (JStr []);
  snippet ← py_get result "snippet" (JStr []);
  mret ({[ lit "title" := title; lit "url" := url;
           lit "snippet" := snippet ]} : dict).

Definition serpapi_url : str := lit "https://serpapi.com/search".
Definition google_url : str := lit "https://www.googleapis.com/customsearch/v1".
Definition ddg_url : str := lit "https://lite.duckduckgo.com/lite/?q=".

Definition user_agent : str :=
  lit "Mozilla/5.0 (Windows NT 10.0; Win64; x64) AppleWebKit/537.36 (KHTML, like Gecko) Chrome/91.0.4472.124 Safari/537.36".

(** The tag has one of [classes] among the classes of its class attribute. *)
Definition has_class (classes : list str) (n : node) : bool :=
  match n with
  | Tag _ attrs _ =>
      match attrs !! lit "class" with
      | Some v => existsb (λ c, str_in c classes) (split_ws v)
      | None => false
      end
  | Text _ _ => false
  end.

(** [soup.find_all("tr", class_=["result-link", "result-snippet"])] *)
Definition result_rows (soup : node) : list node :=
  List.filter
    (λ n, named [lit "tr"] n &&
          has_class [lit "result-link"; lit "result-snippet"] n)
    (descendants soup).

(** [tag.get(attr, default)] *)
Definition tag_get (n : node) (attr : string) (dflt : str) : str :=
  match n with
  | Tag _ attrs _ => default dflt (attrs !! lit attr)
  | Text _ _ => dflt
  end.

(** The body of the loop over the rows, for the row [tr] of index [i]. *)
Definition ddg_row (results : list dict) (i : nat) (tr : node) : list dict :=
  if Nat.even i then
    match find (lit "a") tr with
    | Some a_tag =>
        let title := strip (get_text a_tag) in
        let href := tag_get a_tag "href" [] in
        results ++ [ {[ lit "title" := JStr title; lit "url" := JStr href;
                        lit "snippet" := JStr [] ]} ]
    | None => results
    end
  else
    match results with
    | [] => results
    | _ =>
        alter (λ d : dict, <[lit "snippet" := JStr (strip (get_text tr))]> d)
              (length results - 1)%nat results
    end.

(** The loop [for i, tr in enumerate(rows)], from index [i] on. *)
Fixpoint ddg_loop (num_results : Z) (i : nat) (rows : list node)
    (results : list dict) : list dict :=
  match rows with
  | [] => results
  | tr :: rows' =>
      if num_results * 2 <=? Z.of_nat i then results
      else ddg_loop num_results (S i) rows' (ddg_row results i tr)
  end.

Section search.
Context `{World} `{SearchEnv} `{BeautifulSoup}.

(** The loop of the two API searches over [items[:num_results]]. *)
Definition shape_results (items : json) (num_results : Z) : exc (list dict) :=
  l ← slice_items dict_slice_error items num_results;
  mapM shape_result l.

(** The request of each of the three searches: [requests.get(url,
    params=params)], and [requests.get(url, headers=headers)] for the last. *)
Definition serpapi_request (query : str) (num_results : Z) : request :=
  let params : dict :=
    {[ lit "q" := JStr query;
       lit "api_key" := JStr SERPAPI_KEY;
       lit "engine" := JStr (lit "google");
       lit "num" := JInt num_results ]} in
  {| req_url := serpapi_url; req_params := params;
     req_headers := ∅; req_json := None |}.

Definition google_request (query : str) (num_results : Z) : request :=
  let params : dict :=
    {[ lit "q" := JStr query;
       lit "key" := JStr GOOGLE_API_KEY;
       lit "cx" := JStr GOOGLE_CX;
       lit "num" := JInt (Z.min num_results 10) ]} in
  {| req_url := google_url; req_params := params;
     req_headers := ∅; req_json := None |}.

Definition ddg_request (encoded_query : str) : request :=
  let url := ddg_url ++ encoded_query in
  let headers : gmap str str := {[ lit "User-Agent" := user_agent ]} in
  {| req_url := url; req_params := ∅;
     req_headers := headers; req_json := None |}.

Definition search_serpapi (query : str) (num_results : Z) : io (list dict) :=
  if negb (nonempty SERPAPI_KEY) then
    mret (error_result (lit "SERPAPI_KEY environment variable not set"))
  else
    try_io
      (response ← http_get (serpapi_request query num_results);
       _ ← raise_for_status response;
       data ← lift (body_json response);
       organic_results ← lift (py_get data "organic_results" (JList []));
       lift (shape_results organic_results num_results))
      (λ e, mret (error_result (lit "Search failed: " ++ exn_str e))).

Definition search_google_custom_search (query : str) (num_results : Z)
  : io (list dict) :=
  if negb (nonempty GOOGLE_API_KEY) || negb (nonempty GOOGLE_CX) then
    mret (error_result (lit "Google Search API credentials not set"))
  else
    try_io
      (response ← http_get (google_request query num_results);
       _ ← raise_for_status response;
       data ← lift (body_json response);
       items ← lift (py_get data "items" (JList []));
       lift (shape_results items num_results))
      (λ e, mret (error_result (lit "Search failed: " ++ exn_str e))).

Definition search_duckduckgo_lite (query : str) (num_results : Z)
  : io (list dict) :=
  try_io
    (encoded_query ← lift (quote_plus query);
     response ← http_get (ddg_request encoded_query);
     _ ← raise_for_status response;
     soup ← lift (html_parser (body_text response));
     let results := ddg_loop num_results 0 (result_rows soup) [] in
     mret (slice_to results num_results))
    (λ e, mret (error_result (lit "Search failed: " ++ exn_str e))).

Definition perform_search (query : str) (num_results : Z) (engine : str)
  : io (list dict) :=
  let engine :=
    if str_eqb engine (lit "auto") then
      if nonempty SERPAPI_KEY then lit "serpapi"
      else if nonempty GOOGLE_API_KEY && nonempty GOOGLE_CX then lit "google"
      else lit "ddg"
    else engine in
  if str_eqb engine (lit "serpapi") then search_serpapi query num_results
  else if str_eqb engine (lit "google") then
    search_google_custom_search query num_results
  else if str_eqb engine (lit "ddg") then
    search_duckduckgo_lite query num_results
  else mret (error_result (lit "Unknown search engine: " ++ engine)).

(** [result[key]] *)
Definition dict_getitem (result : dict) (key : string) : exc json :=
  match result !! lit key with
  | Some v => Return v
  | None => Raise (Exception "KeyError" (lit "'" ++ lit key ++ lit "'"))
  end.

(** The body of the loop of [main] over the results. *)
Definition print_result (result : dict) : io unit :=
  match result !! lit "error" with
  | Some msg => print (lit "Error: " ++ py_str msg)
  | None =>
      url ← lift (dict_getitem result "url");
      _ ← print (lit "URL: " ++ py_str url);
      title ← lift (dict_getitem result "title");
      _ ← print (lit "Title: " ++ py_str title);
      snippet ← lift (dict_getitem result "snippet");
      _ ← print (lit "Snippet: " ++ py_str snippet);
      print []
  end.

(** [main], after [parse_args]. *)
Definition main (query : str) (num_results : Z) (engine : str) : io unit :=
  results ← perform_search query num_results engine;
  for_each print_result results.

(** The texts [main] prints for one result, one [print] each. *)
Definition lines_of (result : dict) (lines : list str) : Prop :=
  (∃ msg, result !! lit "error" = Some msg ∧
          lines = [lit "Error: " ++ py_str msg]) ∨
  (result !! lit "error" = None ∧
   ∃ url title snippet,
     result !! lit "url" = Some url ∧
     result !! lit "title" = Some title ∧
     result !! lit "snippet" = Some snippet ∧
     lines = [lit "URL: " ++ py_str url;
              lit "Title: " ++ py_str title;
              lit "Snippet: " ++ py_str snippet;
              []]).


(** What the two API searches do with a response, and what the third
    does. *)
Definition api_results (key : string) (num_results : Z)
    (response : http_response) : io (list dict) :=
  _ ← raise_for_status response;
  data ← lift (body_json response);
  items ← lift (py_get data key (JList []));
  lift (shape_results items num_results).

Definition ddg_results (num_results : Z) (response : http_response)
  : io (list dict) :=
  _ ← raise_for_status response;
  soup ← lift (html_parser (body_text response));
  let results := ddg_loop num_results 0 (result_rows soup) [] in
  mret (slice_to results num_results).

Definition search_failed (e : exn) : list dict :=
  error_result (lit "Search failed: " ++ exn_str e).

End search.

(** The result made from an item that is a dict, and the result made from
    the link of a link row and a snippet row. *)
Definition hit_of (item : dict) : dict :=
  {[ lit "title" := default (JStr []) (item !! lit "title");
     lit "url" := default (JStr []) (item !! lit "link");
     lit "snippet" := default (JStr []) (item !! lit "snippet") ]}.

Definition row_hit (a_tag snippet_row : node) : dict :=
  {[ lit "title" := JStr (strip (get_text a_tag));
     lit "url" := JStr (tag_get a_tag "href" []);
     lit "snippet" := JStr (strip (get_text snippet_row)) ]}.

(** A result of a search proper: exactly a title, a url and a snippet. *)
Definition is_hit (d : dict) : Prop :=
  dom d = {[ lit "title"; lit "url"; lit "snippet" ]}.

(** The one-element list that reports a failure. *)
Definition is_error_result (l : list dict) : Prop :=
  ∃ msg, l = error_result msg.

End Search.

(* ===================================================================== *)
(** ** llm_api.py *)
(* ===================================================================== *)

Module Llm.
Import Json Effects.

(** The configuration read from the environment when the module is loaded. *)
Class LlmEnv : Type := {
  OPENAI_API_KEY : str;
  AZURE_OPENAI_API_KEY : str;
  AZURE_OPENAI_ENDPOINT : str;
  AZURE_OPENAI_MODEL_DEPLOYMENT : str;
  ANTHROPIC_API_KEY : str;
  DEEPSEEK_API_KEY : str;
  GEMINI_API_KEY : str
}.

Section floats.
Import PrimFloat.
(** The float the literal 0.7 denotes. *)
Definition default_temperature : float := 0x1.6666666666666p-1%float.
End floats.

(** A dict literal with literal keys, and a headers dict. *)
Definition jobj (items : list (string * json)) : json :=
  JDict (list_to_map (List.map (λ kv, (lit kv.1, kv.2)) items)).
Definition hdrs (items : list (string * str)) : gmap str str :=
  list_to_map (List.map (λ kv, (lit kv.1, kv.2)) items).

(** [try: x = body; except Exception as e: return handler(e)], then the
    rest of the function with [x]. *)
Definition try_or_return {A B} (body : io A) (handler : exn → B)
    (rest : A → io B) : io B :=
  match body with
  | IO t (Ret a) => match rest a with IO t' r => IO (t ++ t') r end
  | IO t (Exc e) => IO t (Ret (handler e))
  | IO t (SysExit c) => IO t (SysExit c)
  end.

(** The truth value of an optional path in a condition. *)
Definition given (image_path : option str) : option str :=
  match image_path with
  | Some p => if nonempty p then Some p else None
  | None => None
  end.

Definition image_error (e : exn) : json :=
  JStr (lit "Error processing image: " ++ exn_str e).
Definition query_error (e : exn) : json :=
  JStr (lit "Error: " ++ exn_str e).

(** [j.get("choices", [{}])[0].get("message", {}).get("content", "")] *)
Definition chat_content (j : json) : exc json :=
  choices ← py_get j "choices" (JList [JDict ∅]);
  choice ← py_index0 choices;
  message ← py_get choice "message" (JDict ∅);
  py_get message "content" (JStr []).

(** [j.get("content", [{}])[0].get("text", "")] *)
Definition anthropic_text (j : json) : exc json :=
  content ← py_get j "content" (JList [JDict ∅]);
  block ← py_index0 content;
  py_get block "text" (JStr []).

(** [j.get("candidates", [{}])[0].get("content", {}).get("parts",
    [{}])[0].get("text", "")] *)
Definition gemini_text (j : json) : exc json :=
  candidates ← py_get j "candidates" (JList [JDict ∅]);
  candidate ← py_index0 candidates;
  content ← py_get candidate "content" (JDict ∅);
  parts ← py_get content "parts" (JList [JDict ∅]);
  part ← py_index0 parts;
  py_get part "text" (JStr []).

Definition openai_url : str := lit "https://api.openai.com/v1/chat/completions".
Definition anthropic_url : str := lit "https://api.anthropic.com/v1/messages".
Definition deepseek_url : str := lit "https://api.deepseek.com/v1/chat/completions".
Definition gemini_url (model : string) (key : str) : str :=
  lit "https://generativelanguage.googleapis.com/v1/models/" ++ lit model ++
  lit ":generateContent?key=" ++ key.

Definition text_part (prompt : str) : json :=
  jobj [("type", JStr (lit "text")); ("text", JStr prompt)].
Definition image_url_part (base64_image : str) : json :=
  jobj [("type", JStr (lit "image_url"));
        ("image_url",
         jobj [("url", JStr (lit "data:image/jpeg;base64," ++ base64_image))])].
Definition image_part (base64_image : str) : json :=
  jobj [("type", JStr (lit "image"));
        ("source",
         jobj [("type", JStr (lit "base64"));
               ("media_type", JStr (lit "image/jpeg"));
               ("data", JStr base64_image)])].
Definition inline_data_part (base64_image : str) : json :=
  jobj [("inline_data",
         jobj [("mime_type", JStr (lit "image/jpeg"));
               ("data", JStr base64_image)])].

Definition user_message (content : json) : json :=
  jobj [("role", JStr (lit "user")); ("content", content)].

Section llm.
Context `{World} `{LlmEnv}.

(** The exception is logged and raised again. *)
Definition encode_image_to_base64 (image_path : str) : io str :=
  try_io (image ← open_read_bytes image_path; mret (b64encode image))
         (λ e, IO [] (Exc e)).

(** The last step of every query: post, check the status, read the JSON
    and take the answer out of it; any exception becomes an error text. *)
Definition post_and_read (r : request) (read : json → exc json) : io json :=
  try_io
    (response ← http_post r;
     _ ← raise_for_status response;
     j ← lift (body_json response);
     lift (read j))
    (λ e, mret (query_error e)).

Definition query_openai (prompt model : str) (temperature : PrimFloat.float)
    (max_tokens : Z) (image_path : option str) : io json :=
  if negb (nonempty OPENAI_API_KEY) then
    mret (JStr (lit "Error: OPENAI_API_KEY environment variable not set"))
  else
    let headers :=
      hdrs [("Content-Type", lit "application/json");
            ("Authorization", lit "Bearer " ++ OPENAI_API_KEY)] in
    let content := [text_part prompt] in
    try_or_return
      (match given image_path with
       | Some path =>
           base64_image ← encode_image_to_base64 path;
           mret (content ++ [image_url_part base64_image])
       | None => mret content
       end)
      image_error
      (λ content,
         let messages := JList [user_message (JList content)] in
         let data :=
           jobj [("model", JStr model); ("messages", messages);
                 ("temperature", JFloat temperature);
                 ("max_tokens", JInt max_tokens)] in
         post_and_read
           {| req_url := openai_url; req_params := ∅;
              req_headers := headers; req_json := Some data |}
           chat_content).

Definition azure_url : str :=
  AZURE_OPENAI_ENDPOINT ++ lit "/openai/deployments/" ++
  AZURE_OPENAI_MODEL_DEPLOYMENT ++
  lit "/chat/completions?api-version=2023-05-15".

Definition query_azure_openai (prompt : str) (temperature : PrimFloat.float)
    (max_tokens : Z) (image_path : option str) : io json :=
  if negb (nonempty AZURE_OPENAI_API_KEY) ||
     negb (nonempty AZURE_OPENAI_ENDPOINT) then
    mret (JStr (lit "Error: Azure OpenAI credentials not set"))
  else
    let headers :=
      hdrs [("Content-Type", lit "application/json");
            ("api-key", AZURE_OPENAI_API_KEY)] in
    let content := [text_part prompt] in
    try_or_return
      (match given image_path with
       | Some path =>
           base64_image ← encode_image_to_base64 path;
           mret (content ++ [image_url_part base64_image])
       | None => mret content
       end)
      image_error
      (λ content,
         let messages := JList [user_message (JList content)] in
         let data :=
           jobj [("messages", messages);
                 ("temperature", JFloat temperature);
                 ("max_tokens", JInt max_tokens)] in
         post_and_read
           {| req_url := azure_url; req_params := ∅;
              req_headers := headers; req_json := Some data |}
           chat_content).

Definition query_anthropic (prompt model : str) (temperature : PrimFloat.float)
    (max_tokens : Z) (image_path : option str) : io json :=
  if negb (nonempty ANTHROPIC_API_KEY) then
    mret (JStr (lit "Error: ANTHROPIC_API_KEY environment variable not set"))
  else
    let headers :=
      hdrs [("Content-Type", lit "application/json");
            ("X-API-Key", ANTHROPIC_API_KEY);
            ("anthropic-version", lit "2023-06-01")] in
    let message_content := [text_part prompt] in
    try_or_return
      (match given image_path with
       | Some path =>
           image ← open_read_bytes path;
           mret (message_content ++ [image_part (b64encode image)])
       | None => mret message_content
       end)
      image_error
      (λ message_content,
         let data :=
           jobj [("model", JStr model);
                 ("messages", JList [user_message (JList message_content)]);
                 ("temperature", JFloat temperature);
                 ("max_tokens", JInt max_tokens)] in
         post_and_read
           {| req_url := anthropic_url; req_params := ∅;
              req_headers := headers; req_json := Some data |}
           anthropic_text).

Definition query_deepseek (prompt : str) (temperature : PrimFloat.float)
    (max_tokens : Z) : io json :=
  if negb (nonempty DEEPSEEK_API_KEY) then
    mret (JStr (lit "Error: DEEPSEEK_API_KEY environment variable not set"))
  else
    let headers :=
      hdrs [("Content-Type", lit "application/json");
            ("Authorization", lit "Bearer " ++ DEEPSEEK_API_KEY)] in
    let data :=
      jobj [("model", JStr (lit "deepseek-chat"));
            ("messages", JList [user_message (JStr prompt)]);
            ("temperature", JFloat temperature);
            ("max_tokens", JInt max_tokens)] in
    post_and_read
      {| req_url := deepseek_url; req_params := ∅;
         req_headers := headers; req_json := Some data |}
      chat_content.

Definition query_gemini (prompt : str) (temperature : PrimFloat.float)
    (max_tokens : Z) (image_path : option str) : io json :=
  if negb (nonempty GEMINI_API_KEY) then
    mret (JStr (lit "Error: GEMINI_API_KEY environment variable not set"))
  else
    let url := gemini_url "gemini-pro" GEMINI_API_KEY in
    let parts := [jobj [("text", JStr prompt)]] in
    try_or_return
      (match given image_path with
       | Some path =>
           image ← open_read_bytes path;
           mret (parts ++ [inline_data_part (b64encode image)],
                 gemini_url "gemini-pro-vision" GEMINI_API_KEY)
       | None => mret (parts, url)
       end)
      image_error
      (λ parts_url,
         let data :=
           jobj [("contents", JList [jobj [("parts", JList parts_url.1)]]);
                 ("generationConfig",
                  jobj [("temperature", JFloat temperature);
                        ("maxOutputTokens", JInt max_tokens)])] in
         post_and_read
           {| req_url := parts_url.2; req_params := ∅;
              req_headers := ∅; req_json := Some data |}
           gemini_text).

(** [default_models.get(provider, "")] *)
Definition default_model (provider : str) : str :=
  if str_eqb provider (lit "openai") then lit "gpt-4o"
  else if str_eqb provider (lit "anthropic") then
    lit "claude-3-5-sonnet-20241022"
  else if str_eqb provider (lit "deepseek") then lit "deepseek-chat"
  else if str_eqb provider (lit "gemini") then lit "gemini-pro"
  else [].

Definition query_llm (prompt provider : str) (model : option str)
    (temperature : PrimFloat.float) (max_tokens : Z)
    (image_path : option str) : io json :=
  let model :=
    match model with
    | None => default_model provider
    | Some m => m
    end in
  if str_eqb provider (lit "openai") then
    query_openai prompt model temperature max_tokens image_path
  else if str_eqb provider (lit "azure") then
    query_azure_openai prompt temperature max_tokens image_path
  else if str_eqb provider (lit "anthropic") then
    query_anthropic prompt model temperature max_tokens image_path
  else if str_eqb provider (lit "deepseek") then
    query_deepseek prompt temperature max_tokens
  else if str_eqb provider (lit "gemini") then
    query_gemini prompt temperature max_tokens image_path
  else
    mret (JStr (lit "Error: Unknown provider '" ++ provider ++ lit "'")).

(** The request of each query, given the encoded image when there is
    one. *)
Definition openai_request (prompt model : str) (temperature : PrimFloat.float)
    (max_tokens : Z) (base64_image : option str) : request :=
  let content :=
    [text_part prompt] ++
    match base64_image with Some b => [image_url_part b] | None => [] end in
  {| req_url := openai_url; req_params := ∅;
     req_headers :=
       hdrs [("Content-Type", lit "application/json");
             ("Authorization", lit "Bearer " ++ OPENAI_API_KEY)];
     req_json :=
       Some (jobj [("model", JStr model);
                   ("messages", JList [user_message (JList content)]);
                   ("temperature", JFloat temperature);
                   ("max_tokens", JInt max_tokens)]) |}.

Definition azure_request (prompt : str) (temperature : PrimFloat.float)
    (max_tokens : Z) (base64_image : option str) : request :=
  let content :=
    [text_part prompt] ++
    match base64_image with Some b => [image_url_part b] | None => [] end in
  {| req_url := azure_url; req_params := ∅;
     req_headers :=
       hdrs [("Content-Type", lit "application/json");
             ("api-key", AZURE_OPENAI_API_KEY)];
     req_json :=
       Some (jobj [("messages", JList [user_message (JList content)]);
                   ("temperature", JFloat temperature);
                   ("max_tokens", JInt max_tokens)]) |}.

Definition anthropic_request (prompt model : str)
    (temperature : PrimFloat.float) (max_tokens : Z)
    (base64_image : option str) : request :=
  let content :=
    [text_part prompt] ++
    match base64_image with Some b => [image_part b] | None => [] end in
  {| req_url := anthropic_url; req_params := ∅;
     req_headers :=
       hdrs [("Content-Type", lit "application/json");
             ("X-API-Key", ANTHROPIC_API_KEY);
             ("anthropic-version", lit "2023-06-01")];
     req_json :=
       Some (jobj [("model", JStr model);
                   ("messages", JList [user_message (JList content)]);
                   ("temperature", JFloat temperature);
                   ("max_tokens", JInt max_tokens)]) |}.

Definition deepseek_request (prompt : str) (temperature : PrimFloat.float)
    (max_tokens : Z) : request :=
  {| req_url := deepseek_url; req_params := ∅;
     req_headers :=
       hdrs [("Content-Type", lit "application/json");
             ("Authorization", lit "Bearer " ++ DEEPSEEK_API_KEY)];
     req_json :=
       Some (jobj [("model", JStr (lit "deepseek-chat"));
                   ("messages", JList [user_message (JStr prompt)]);
                   ("temperature", JFloat temperature);
                   ("max_tokens", JInt max_tokens)]) |}.

Definition gemini_request (prompt : str) (temperature : PrimFloat.float)
    (max_tokens : Z) (base64_image : option str) : request :=
  let parts :=
    [jobj [("text", JStr prompt)]] ++
    match base64_image with Some b => [inline_data_part b] | None => [] end in
  {| req_url :=
       gemini_url (match base64_image with
                   | Some _ => "gemini-pro-vision"
                   | None => "gemini-pro"
                   end) GEMINI_API_KEY;
     req_params := ∅; req_headers := ∅;
     req_json :=
       Some (jobj [("contents", JList [jobj [("parts", JList parts)]]);
                   ("generationConfig",
                    jobj [("temperature", JFloat temperature);
                          ("maxOutputTokens", JInt max_tokens)])]) |}.

(** What [post_and_read] returns, by what the web answers. *)
Definition answer_of (r : request) (read : json → exc json) : json :=
  match requests_post r with
  | Raise e => query_error e
  | Return response =>
      if (400 <=? status_code response) && (status_code response <? 600)
      then query_error (http_error response)
      else
        match body_json response with
        | Raise e => query_error e
        | Return j =>
            match read j with
            | Raise e => query_error e
            | Return v => v
            end
        end
  end.

(** A query with its credentials set, as a whole: the image is read when
    given, and then the request is posted. *)
Definition run_query (image_path : option str)
    (build : option str → request) (read : json → exc json) : io json :=
  match given image_path with
  | None => IO [EvPost (build None)] (Ret (answer_of (build None) read))
  | Some path =>
      match read_bytes path with
      | Raise e => IO [EvOpen path] (Ret (image_error e))
      | Return image =>
          let r := build (Some (b64encode image)) in
          IO [EvOpen path; EvPost r] (Ret (answer_of r read))
      end
  end.

(** The credentials the provider needs are set. *)
Definition configured (provider : str) : bool :=
  if str_eqb provider (lit "openai") then nonempty OPENAI_API_KEY
  else if str_eqb provider (lit "azure") then
    nonempty AZURE_OPENAI_API_KEY && nonempty AZURE_OPENAI_ENDPOINT
  else if str_eqb provider (lit "anthropic") then nonempty ANTHROPIC_API_KEY
  else if str_eqb provider (lit "deepseek") then nonempty DEEPSEEK_API_KEY
  else if str_eqb provider (lit "gemini") then nonempty GEMINI_API_KEY
  else false.

End llm.

(** The request carries this JSON payload field. *)
Definition payload_field (r : request) (key : string) : option json :=
  match req_json r with
  | Some (JDict d) => d !! lit key
  | _ => None
  end.

(** The text starts with [Error: ]. *)
Definition is_error_text (v : json) : Prop :=
  ∃ msg, v = JStr (lit "Error: " ++ msg).

End Llm.

(* ===================================================================== *)
(** ** plan_exec_llm.py *)
(* ===================================================================== *)

Module Plan.
Import Json Effects.

(** The configuration read from the environment when the module is loaded. *)
Class PlanEnv : Type := {
  OPENAI_API_KEY : str;
  ANTHROPIC_API_KEY : str
}.

Definition DEFAULT_MODEL : str := lit "gpt-4o".

(** The command line, as [argparse] hands it over. *)
Record args : Type := Args {
  prompt : str;
  file : option str;
  model : str;
  provider : str
}.

(** The text of a literal that spans several lines: every line ends with a
    line feed. *)
Definition text (lines : list string) : str :=
  concat (List.map (λ l, lit l ++ [LF]) lines).

Definition generate_planning_prompt (prompt : str) (file_content : option str)
  : str :=
  let base_prompt :=
    text [""%string;
          "You are an expert AI development planner helping with a programming task.";
          "Your role is to analyze requirements, break down complex tasks, and provide";
          "detailed guidance. Focus on:";
          "";
          "1. Thorough analysis of the problem";
          "2. Breaking down tasks into manageable steps";
          "3. Identifying potential challenges and solutions";
          "4. Suggesting specific implementation approaches";
          "5. Providing concrete code structure recommendations";
          "";
          "TASK DESCRIPTION:"] ++
    prompt ++ [LF] ++ [LF] in
  match Llm.given file_content with
  | Some file_content =>
      base_prompt ++
      text [""%string; "RELEVANT FILE CONTENT:"; "```"] ++
      file_content ++ [LF] ++
      text ["```"%string; "";
            "Based on the above file content and task description, provide a detailed plan."]
  | None => base_prompt
  end.

Section plan.
Context `{World} `{PlanEnv}.

Definition load_file_content (file_path : str) : io str :=
  try_io (open_read_text file_path)
    (λ e,
       _ ← print_err (lit "Error reading file " ++ file_path ++ lit ": " ++
                      exn_str e);
       sys_exit 1).

Definition query_openai (prompt model : str) : io json :=
  if negb (nonempty OPENAI_API_KEY) then
    _ ← print_err (lit "Error: OPENAI_API_KEY environment variable not set");
    sys_exit 1
  else
    let headers :=
      Llm.hdrs [("Content-Type", lit "application/json");
                ("Authorization", lit "Bearer " ++ OPENAI_API_KEY)] in
    let data :=
      Llm.jobj [("model", JStr model);
                ("messages", JList [Llm.user_message (JStr prompt)]);
                ("temperature", JFloat Llm.default_temperature);
                ("max_tokens", JInt 4000)] in
    try_io
      (response ← http_post {| req_url := Llm.openai_url; req_params := ∅;
                               req_headers := headers;
                               req_json := Some data |};
       _ ← raise_for_status response;
       j ← lift (body_json response);
       lift (Llm.chat_content j))
      (λ e,
         _ ← print_err (lit "Error querying OpenAI API: " ++ exn_str e);
         mret (Llm.query_error e)).

Definition query_anthropic (prompt model : str) : io json :=
  if negb (nonempty ANTHROPIC_API_KEY) then
    _ ← print_err (lit "Error: ANTHROPIC_API_KEY environment variable not set");
    sys_exit 1
  else
    let headers :=
      Llm.hdrs [("Content-Type", lit "application/json");
                ("X-API-Key", ANTHROPIC_API_KEY);
                ("anthropic-version", lit "2023-06-01")] in
    let data :=
      Llm.jobj [("model", JStr model);
                ("messages", JList [Llm.user_message (JStr prompt)]);
                ("temperature", JFloat Llm.default_temperature);
                ("max_tokens", JInt 4000)] in
    try_io
      (response ← http_post {| req_url := Llm.anthropic_url; req_params := ∅;
                               req_headers := headers;
                               req_json := Some data |};
       _ ← raise_for_status response;
       j ← lift (body_json response);
       lift (Llm.anthropic_text j))
      (λ e,
         _ ← print_err (lit "Error querying Anthropic API: " ++ exn_str e);
         mret (Llm.query_error e)).

(** The requests of the two queries, and what the [try] block of a query
    computes from the answer of the web. *)
Definition openai_request (prompt model : str) : request :=
  {| req_url := Llm.openai_url; req_params := ∅;
     req_headers :=
       Llm.hdrs [("Content-Type", lit "application/json");
                 ("Authorization", lit "Bearer " ++ OPENAI_API_KEY)];
     req_json :=
       Some (Llm.jobj [("model", JStr model);
                       ("messages", JList [Llm.user_message (JStr prompt)]);
                       ("temperature", JFloat Llm.default_temperature);
                       ("max_tokens", JInt 4000)]) |}.

Definition anthropic_request (prompt model : str) : request :=
  {| req_url := Llm.anthropic_url; req_params := ∅;
     req_headers :=
       Llm.hdrs [("Content-Type", lit "application/json");
                 ("X-API-Key", ANTHROPIC_API_KEY);
                 ("anthropic-version", lit "2023-06-01")];
     req_json :=
       Some (Llm.jobj [("model", JStr model);
                       ("messages", JList [Llm.user_message (JStr prompt)]);
                       ("temperature", JFloat Llm.default_temperature);
                       ("max_tokens", JInt 4000)]) |}.

Definition result_of (r : request) (read : json → exc json) : exc json :=
  response ← requests_post r;
  if (400 <=? status_code response) && (status_code response <? 600)
  then Raise (http_error response)
  else j ← body_json response; read j.

Definition banner_open : str := LF :: lit "----- PLANNING RESULT -----" ++ [LF].
Definition banner_close : str := LF :: lit "--------------------------" ++ [LF].

(** [main], after [parse_args]. *)
Definition main (a : args) : io unit :=
  file_content ←
    match Llm.given (file a) with
    | Some path => content ← load_file_content path; mret (Some content)
    | None => mret None
    end;
  let planning_prompt := generate_planning_prompt (prompt a) file_content in
  response ←
    (if str_eqb (provider a) (lit "openai")
     then query_openai planning_prompt (model a)
     else query_anthropic planning_prompt (lit "claude-3-5-sonnet-20241022"));
  _ ← print banner_open;
  _ ← print (py_str response);
  print banner_close.

(** The line [load_file_content] writes on the standard error stream. *)
Definition read_error_line (path : str) (e : exn) : str :=
  (lit "Error reading file " ++ path ++ lit ": " ++ exn_str e) ++ [LF].

(** The query [main] makes, by the provider, and what it prints around the
    answer when the standard output takes it. *)
Definition plan_query (a : args) (file_content : option str) : io json :=
  if str_eqb (provider a) (lit "openai")
  then query_openai (generate_planning_prompt (prompt a) file_content)
         (model a)
  else query_anthropic (generate_planning_prompt (prompt a) file_content)
         (lit "claude-3-5-sonnet-20241022").

Definition plan_report (v : json) : io unit :=
  _ ← print banner_open;
  _ ← print (py_str v);
  print banner_close.

Definition plan_lines (v : json) : list str :=
  [banner_open; py_str v; banner_close].

End plan.

(** What was printed on the standard output, in order. *)
Definition is_printed (ev : event) : bool :=
  match ev with EvStdout _ => true | _ => false end.
Definition printed (t : list event) : list event := List.filter is_printed t.

(** The same command line without [--file]. *)
Definition without_file (a : args) : args :=
  {| prompt := prompt a; file := None; model := model a;
     provider := provider a |}.

End Plan.

(* ===================================================================== *)
(** ** A sample world for the other tools *)
(* ===================================================================== *)

Module SampleWorld.
Import Json Effects Search Llm.

Definition item (title link snippet : string) : dict :=
  {[ lit "title" := JStr (lit title); lit "link" := JStr (lit link);
     lit "snippet" := JStr (lit snippet) ]}.

(** The answer of a search API: three items, the last without a snippet. *)
Definition api_dicts : list dict :=
  [ item "Rocq" "https://rocq-prover.org" "A proof assistant";
    item "stdpp" "https://gitlab.mpi-sws.org/iris/stdpp" "A library";
    {[ lit "title" := JStr (lit "Untitled"); lit "link" := JNull ]} ].
Definition api_items : list json := JDict <$> api_dicts.
Definition api_data : dict :=
  {[ lit "organic_results" := JList api_items;
     lit "items" := JList api_items ]}.

Definition api_response : http_response :=
  {| status_code := 200;
     http_error := Exception "HTTPError" [];
     body_json := Return (JDict api_data);
     body_text := [] |}.

(** A page of results: a link row, its snippet row, and a second link row. *)
Definition row (cls : string) (contents : list node) : node :=
  Tag (lit "tr") {[ lit "class" := lit cls ]} contents.
Definition link (href text : string) : node :=
  Tag (lit "a") {[ lit "href" := lit href ]} [Text NavigableString (lit text)].
Definition cell (contents : list node) : node := Tag (lit "td") ∅ contents.

Definition link_row1 : node := row "result-link" [cell [link "https://a.example" " First "]].
Definition snippet_row1 : node :=
  row "result-snippet" [cell [Text NavigableString (lit " about the first ")]].
Definition link_row2 : node := row "result-link" [cell [link "https://b.example" "Second"]].
Definition ddg_page : node :=
  Tag (lit "[document]") ∅
    [Tag (lit "table") ∅
       [link_row1; snippet_row1; Tag (lit "tr") ∅ []; link_row2]].

Definition ddg_response : http_response :=
  {| status_code := 200;
     http_error := Exception "HTTPError" [];
     body_json := Raise (Exception "JSONDecodeError" (lit "Expecting value"));
     body_text := lit "<table>" |}.

(** A chat completion, as the OpenAI-style APIs answer. *)
Definition chat_response (content : json) : http_response :=
  {| status_code := 200;
     http_error := Exception "HTTPError" [];
     body_json :=
       Return (JDict {[ lit "choices" :=
                 JList [JDict {[ lit "message" :=
                   JDict {[ lit "content" := content ]} ]}] ]});
     body_text := [] |}.

Definition no_such_file : exn :=
  Exception "FileNotFoundError" (lit "[Errno 2] No such file or directory").

(** A code point that UTF-8 does not encode, and the exception raised for
    a text that holds one. *)
Definition surrogate (c : char) : bool := ((55296 <=? c) && (c <=? 57343))%N.
Definition surrogates_not_allowed : exn :=
  Exception "UnicodeEncodeError"
    (lit "'utf-8' codec can't encode character: surrogates not allowed").

(** The web answers searches with the pages above and every POST with a
    chat completion; the only files are [notes.txt], the empty [empty.txt]
    and [cat.jpg]; the standard output is a UTF-8 stream. *)
Definition sample_world : World := {|
  requests_get r :=
    if str_eqb (req_url r) serpapi_url then Return api_response
    else if str_eqb (req_url r) google_url then Return api_response
    else Return ddg_response;
  requests_post r := Return (chat_response (JStr (lit "a plan")));
  read_bytes path :=
    if str_eqb path (lit "cat.jpg") then Return [65; 66; 67]%N
    else Raise no_such_file;
  read_text path :=
    if str_eqb path (lit "notes.txt") then Return (lit "some notes")
    else if str_eqb path (lit "empty.txt") then Return []
    else Raise no_such_file;
  b64encode bytes := lit "QUJD";
  quote_plus s :=
    if existsb surrogate s then Raise surrogates_not_allowed
    else Return (List.map (λ c, if (c =? 32)%N then 43%N else c) s);
  dict_slice_error := Exception "TypeError" (lit "unhashable type: 'slice'");
  repr v :=
    match v with
    | JNull => lit "None"
    | JBool true => lit "True"
    | JBool false => lit "False"
    | JInt z => str_of_int z
    | _ => lit "..."
    end;
  stdout_write s :=
    if existsb surrogate s then Raise surrogates_not_allowed else Return tt
|}.

(** The same world, but every POST is answered as given. *)
Definition answering (answer : exc http_response) : World := {|
  requests_get := requests_get (World := sample_world);
  requests_post r := answer;
  read_bytes := read_bytes (World := sample_world);
  read_text := read_text (World := sample_world);
  b64encode := b64encode (World := sample_world);
  quote_plus := quote_plus (World := sample_world);
  dict_slice_error := dict_slice_error (World := sample_world);
  repr := repr (World := sample_world);
  stdout_write := stdout_write (World := sample_world)
|}.

Definition server_error : http_response :=
  {| status_code := 500;
     http_error := Exception "HTTPError" (lit "500 Server Error");
     body_json := Return (JDict ∅);
     body_text := [] |}.

(** A completion with no choice in it. *)
Definition no_choice : http_response :=
  {| status_code := 200;
     http_error := Exception "HTTPError" [];
     body_json := Return (JDict {[ lit "choices" := JList [] ]});
     body_text := [] |}.

Definition ddg_parser : BeautifulSoup := {|
  html_parser html := Return ddg_page;
  sel_match := css_match
|}.

(** A page with one link row and its snippet row, and its parser. *)
Definition paired_page : node :=
  Tag (lit "[document]") ∅ [Tag (lit "table") ∅ [link_row1; snippet_row1]].
Definition paired_parser : BeautifulSoup := {|
  html_parser html := Return paired_page;
  sel_match := css_match
|}.

(** A page with a paragraph inside a list item, and its parser. *)
Definition nested_page : node :=
  Sample.tag "[document]"
    [Sample.tag "body"
       [Sample.tag "ul"
          [Sample.tag "li" [Sample.tag "p" [Sample.txt " x "]]]]].
Definition nested_parser : BeautifulSoup := {|
  html_parser html := Return nested_page;
  sel_match := css_match
|}.

Definition no_keys : SearchEnv :=
  {| SERPAPI_KEY := []; GOOGLE_API_KEY := []; GOOGLE_CX := [] |}.
Definition serpapi_key : SearchEnv :=
  {| SERPAPI_KEY := lit "k1"; GOOGLE_API_KEY := []; GOOGLE_CX := [] |}.
Definition google_keys : SearchEnv :=
  {| SERPAPI_KEY := []; GOOGLE_API_KEY := lit "k2"; GOOGLE_CX := lit "cx" |}.

Definition no_llm_keys : LlmEnv :=
  {| OPENAI_API_KEY := []; AZURE_OPENAI_API_KEY := [];
     AZURE_OPENAI_ENDPOINT := []; AZURE_OPENAI_MODEL_DEPLOYMENT := lit "gpt-4o-ms";
     ANTHROPIC_API_KEY := []; DEEPSEEK_API_KEY := []; GEMINI_API_KEY := [] |}.
Definition llm_keys : LlmEnv :=
  {| OPENAI_API_KEY := lit "sk-1"; AZURE_OPENAI_API_KEY := lit "az-1";
     AZURE_OPENAI_ENDPOINT := lit "https://az.example";
     AZURE_OPENAI_MODEL_DEPLOYMENT := lit "gpt-4o-ms";
     ANTHROPIC_API_KEY := lit "an-1"; DEEPSEEK_API_KEY := lit "ds-1";
     GEMINI_API_KEY := lit "gm-1" |}.

Definition plan_keys : Plan.PlanEnv :=
  {| Plan.OPENAI_API_KEY := lit "sk-1"; Plan.ANTHROPIC_API_KEY := lit "an-1" |}.
Definition no_plan_keys : Plan.PlanEnv :=
  {| Plan.OPENAI_API_KEY := []; Plan.ANTHROPIC_API_KEY := [] |}.

(** [--prompt plan --file notes.txt] and the like, with the defaults of
    the other options. *)
Definition plan_args (file : option string) (provider : string) : Plan.args :=
  {| Plan.prompt := lit "plan"; Plan.file := lit <$> file;
     Plan.model := lit "o1"; Plan.provider := lit provider |}.

(** The float 0.7, as the default temperature. *)
Definition temp : PrimFloat.float := Llm.default_temperature.

End SampleWorld.

(* ===================================================================== *)
(** ** Facts on strip *)
(* ===================================================================== *)

Section strip_facts.

Lemma drop_while_all {A} (p : A → bool) l :
  forallb p l = true → drop_while p l = [].
Proof.
  induction l as [|x l IH]; simpl; [done|].
  intros [Hx Hl]%andb_prop. rewrite Hx. auto.
Qed.

Lemma drop_while_app {A} (p : A → bool) l k :
  drop_while p (l ++ k) =
  if forallb p l then drop_while p k else drop_while p l ++ k.
Proof.
  induction l as [|x l IH]; simpl; [done|].
  destruct (p x); simpl; [apply IH | done].
Qed.

Lemma drop_while_head {A} (p : A → bool) l x :
  head (drop_while p l) = Some x → p x = false.
Proof.
  induction l as [|y l IH]; simpl; [done|].
  destruct (p y) eqn:Hy; [done|]. simpl. by intros [= <-].
Qed.

Lemma forallb_rev {A} (p : A → bool) l : forallb p (rev l) = forallb p l.
Proof.
  induction l as [|x l IH]; simpl; [done|].
  rewrite forallb_app, IH. simpl. rewrite andb_true_r. apply andb_comm.
Qed.

Lemma rstrip_app_space s ws :
  forallb isspace ws = true → rstrip (s ++ ws) = rstrip s.
Proof.
  intros Hws. unfold rstrip. rewrite rev_app_distr, drop_while_app.
  by rewrite forallb_rev, Hws.
Qed.

Lemma rstrip_nil : rstrip [] = [].
Proof. done. Qed.

Lemma rstrip_all_space s : forallb isspace s = true → rstrip s = [].
Proof.
  intros Hs. unfold rstrip. rewrite drop_while_all; [done|].
  by rewrite forallb_rev.
Qed.

(** White space appended at the end does not survive [strip]. *)
Lemma strip_app_space s ws :
  forallb isspace ws = true → strip (s ++ ws) = strip s.
Proof.
  intros Hws. unfold strip, lstrip. rewrite drop_while_app.
  destruct (forallb isspace s) eqn:Hs.
  - rewrite (drop_while_all _ ws Hws), (drop_while_all _ s Hs). done.
  - by apply rstrip_app_space.
Qed.

Lemma last_rev {A} (l : list A) : last (rev l) = head l.
Proof. destruct l as [|x l]; simpl; [done|]. by rewrite last_snoc. Qed.

Lemma head_rev {A} (l : list A) : head (rev l) = last l.
Proof. by rewrite <- last_rev, rev_involutive. Qed.

Lemma rstrip_last s c : last (rstrip s) = Some c → isspace c = false.
Proof. unfold rstrip. rewrite last_rev. apply drop_while_head. Qed.

Lemma drop_while_snoc_keep {A} (p : A → bool) l x :
  p x = false → drop_while p (l ++ [x]) = drop_while p l ++ [x].
Proof.
  intros Hx. rewrite drop_while_app.
  destruct (forallb p l) eqn:Hl; [|done].
  rewrite (drop_while_all _ _ Hl). simpl. by rewrite Hx.
Qed.

Lemma rstrip_cons_keep c s :
  isspace c = false → ∃ t, rstrip (c :: s) = c :: t.
Proof.
  intros Hc. unfold rstrip. simpl rev.
  rewrite (drop_while_snoc_keep _ _ _ Hc), rev_app_distr. simpl. eauto.
Qed.

Lemma strip_head s c : head (strip s) = Some c → isspace c = false.
Proof.
  unfold strip, lstrip.
  destruct (drop_while isspace s) as [|d t] eqn:Hd; [done|].
  assert (isspace d = false) as Hsp.
  { apply (drop_while_head _ s). by rewrite Hd. }
  destruct (rstrip_cons_keep d t Hsp) as [u ->]. simpl. by intros [= <-].
Qed.

Lemma strip_clean s : clean (strip s).
Proof.
  split; intros c Hc; [by eapply strip_head | by eapply rstrip_last].
Qed.

Lemma join_cons sep s l :
  l ≠ [] → join sep (s :: l) = s ++ sep ++ join sep l.
Proof. by destruct l. Qed.

(** Appending the separator after every entry, as the loop does, and
    joining the entries with the separator differ only by the last
    separator. *)
Lemma concat_sep_join sep (l : list str) :
  l ≠ [] → concat (List.map (λ e, e ++ sep) l) = join sep l ++ sep.
Proof.
  induction l as [|s l IH]; [done|]. intros _.
  destruct l as [|s' l].
  - simpl. by rewrite app_nil_r.
  - rewrite join_cons by done. cbn [List.map concat].
    cbn [List.map concat] in IH. rewrite IH by done.
    by rewrite <- !app_assoc.
Qed.

Lemma lstrip_clean s :
  (∀ c, head s = Some c → isspace c = false) → lstrip s = s.
Proof.
  destruct s as [|c s]; [done|]. intros Hc. unfold lstrip. simpl.
  by rewrite (Hc c).
Qed.

Lemma rstrip_clean s :
  (∀ c, last s = Some c → isspace c = false) → rstrip s = s.
Proof.
  intros Hc. unfold rstrip. rewrite <- head_rev in Hc.
  fold (lstrip (rev s)). rewrite lstrip_clean by done.
  apply rev_involutive.
Qed.

(** [strip] leaves a clean string as it is. *)
Lemma strip_clean_id s : clean s → strip s = s.
Proof.
  intros [Hh Hl]. unfold strip. rewrite lstrip_clean by done.
  by apply rstrip_clean.
Qed.

Lemma join_nonempty sep s l : s ≠ [] → join sep (s :: l) ≠ [].
Proof. destruct s; [done|]. by destruct l. Qed.

Lemma last_app_nonempty {A} (l k : list A) : k ≠ [] → last (l ++ k) = last k.
Proof.
  intros Hk. destruct k as [|x k _] using rev_ind; [done|].
  by rewrite app_assoc, !last_snoc.
Qed.

(** Clean non-empty entries joined by a separator give a clean string. *)
Lemma join_clean sep (l : list str) :
  Forall clean l → Forall (λ e, e ≠ []) l → clean (join sep l).
Proof.
  induction l as [|s l IH]; intros Hc Hne.
  - by split.
  - apply Forall_cons_1 in Hc as [[Hsh Hsl] Hc].
    apply Forall_cons_1 in Hne as [Hs Hne].
    destruct l as [|s' l]; [by split|].
    rewrite join_cons by done. specialize (IH Hc Hne) as [_ IHl].
    split.
    + destruct s; [done|]. exact Hsh.
    + intros c. rewrite app_assoc, last_app_nonempty; [apply IHl|].
      apply join_nonempty. by apply Forall_cons_1 in Hne as [? _].
Qed.

End strip_facts.

(* ===================================================================== *)
(** ** Facts on the document tree *)
(* ===================================================================== *)

Section soup_facts.

(** Induction on a tree: the property holds for a tag when it holds for
    every element of its contents. *)
Lemma node_tree_ind (P : node → Prop) :
  (∀ name attrs contents, Forall P contents → P (Tag name attrs contents)) →
  (∀ cls s, P (Text cls s)) →
  ∀ n, P n.
Proof.
  intros Htag Htext. fix IH 1. intros [name attrs contents | cls s].
  - apply Htag. induction contents as [|c l IHl]; constructor.
    + apply IH.
    + exact IHl.
  - apply Htext.
Qed.

Lemma named_decompose_all names n :
  named names (decompose_all names n) = named names n.
Proof. by destruct n. Qed.

Lemma decompose_all_clears names n :
  Forall (λ d, named names d = false) (descendants (decompose_all names n)).
Proof.
  induction n as [name attrs contents IH | cls s] using node_tree_ind.
  - cbn [decompose_all descendants].
    induction contents as [|c l IHl]; [constructor|].
    apply Forall_cons_1 in IH as [Hc Hl].
    destruct (named names c) eqn:Hn; [by apply IHl|].
    cbn [flat_map]. constructor.
    + by rewrite named_decompose_all.
    + apply Forall_app. split; [exact Hc | by apply IHl].
  - constructor.
Qed.

(** After the removal, no tag of a removed name is left in the tree. *)
Lemma find_all_decompose_all names n :
  find_all names (decompose_all names n) = [].
Proof.
  unfold find_all.
  pose proof (decompose_all_clears names n) as Hall.
  induction Hall as [|d l Hd _ IH]; [done|].
  simpl. by rewrite Hd.
Qed.

Lemma head_filter_first {A} (P : A → bool) (l before after : list A) x :
  l = before ++ x :: after →
  P x = true →
  forallb (λ y, negb (P y)) before = true →
  head (List.filter P l) = Some x.
Proof.
  intros -> Hx. induction before as [|y before IH]; simpl.
  - by rewrite Hx.
  - intros [Hy Hb]%andb_prop. apply negb_true_iff in Hy. rewrite Hy. auto.
Qed.

Lemma filter_cons_first {A} (P : A → bool) (l : list A) x rest :
  List.filter P l = x :: rest →
  ∃ before after,
    l = before ++ x :: after ∧ P x = true ∧
    forallb (λ y, negb (P y)) before = true.
Proof.
  induction l as [|y l IH]; simpl; [done|].
  destruct (P y) eqn:Hy.
  - intros [= -> <-]. exists [], l. by repeat split.
  - intros (before & after & -> & Hx & Hb)%IH.
    exists (y :: before), after. repeat split; [done|].
    simpl. by rewrite Hy, Hb.
Qed.

Context `{BeautifulSoup}.

Lemma select_first sel soup n :
  first_in_document_order (λ m, is_tag m && sel_match sel m) soup n →
  head (select sel soup) = Some n.
Proof.
  intros (before & after & Hd & Hn & Hb).
  by eapply head_filter_first.
Qed.

Lemma select_head_first sel soup n rest :
  select sel soup = n :: rest →
  first_in_document_order (λ m, is_tag m && sel_match sel m) soup n.
Proof. apply filter_cons_first. Qed.

Lemma first_container_none cs soup :
  (∀ c, c ∈ cs → select c soup = []) →
  first_container cs soup = None.
Proof.
  induction cs as [|c cs IH]; [done|]. intros Hall. simpl.
  rewrite (Hall c) by constructor.
  apply IH. intros c' Hc'. apply Hall. by constructor.
Qed.

Lemma first_container_at cs soup (k : nat) c n :
  cs !! k = Some c →
  (∀ (j : nat) c', (j < k)%nat → cs !! j = Some c' → select c' soup = []) →
  head (select c soup) = Some n →
  first_container cs soup = Some n.
Proof.
  revert k. induction cs as [|c0 cs IH]; intros k Hk Hbefore Hn; [done|].
  destruct k as [|k]; simpl in *.
  - injection Hk as ->. by destruct (select c soup) as [|m l]; simplify_eq/=.
  - rewrite (Hbefore 0%nat c0) by (done || lia).
    apply (IH k); [done| |done].
    intros j c' Hj Hc'. apply (Hbefore (S j)); [lia | done].
Qed.

(** One of the two cases always applies. *)
Lemma first_container_cases (cs : list selector) soup :
  (∃ (k : nat) c n,
     cs !! k = Some c ∧
     (∀ (j : nat) c',
        (j < k)%nat → cs !! j = Some c' → select c' soup = []) ∧
     first_in_document_order (λ m, is_tag m && sel_match c m) soup n) ∨
  (∀ c, c ∈ cs → select c soup = []).
Proof.
  induction cs as [|c0 cs IH]; [right; by intros c ?%elem_of_nil|].
  destruct (select c0 soup) as [|n rest] eqn:Hsel.
  - destruct IH as [(k & c & n & Hk & Hbefore & Hfirst) | Hnone].
    + left. exists (S k), c, n. split; [done|]. split; [|done].
      intros [|j] c' Hj Hc'; simpl in Hc'.
      * by injection Hc' as <-.
      * apply (Hbefore j); [lia | done].
    + right. intros c [->|Hc]%elem_of_cons; [done | by apply Hnone].
  - left. exists 0%nat, c0, n. split; [done|]. split.
    + intros j c' Hj. lia.
    + by eapply select_head_first.
Qed.

End soup_facts.

(* ===================================================================== *)
(** ** Facts on the extractor *)
(* ===================================================================== *)

Section extractor_facts.

Lemma fold_left_append (f : node → str) (l : list node) (acc : str) :
  fold_left (λ text p, text ++ f p) l acc = acc ++ concat (List.map f l).
Proof.
  revert acc. induction l as [|p l IH]; intros acc; simpl.
  - by rewrite app_nil_r.
  - by rewrite IH, app_assoc.
Qed.

(** The loop builds the entries in order, each followed by a blank line. *)
Lemma collect_text_concat main_content :
  collect_text main_content =
  concat (List.map (λ e, e ++ blank_line)
            (List.map entry_text (find_all text_tags main_content))).
Proof.
  unfold collect_text.
  rewrite (fold_left_append (λ p, entry_text p ++ blank_line)).
  by rewrite List.map_map.
Qed.

Lemma blank_line_space : forallb isspace blank_line = true.
Proof. reflexivity. Qed.

(** Trimming the text the loop builds gives the entries joined by blank
    lines, trimmed. *)
Lemma strip_collect_text region :
  strip (collect_text region) = spec_region_text region.
Proof.
  rewrite collect_text_concat. unfold spec_region_text.
  destruct (List.map entry_text (find_all text_tags region)) as [|e l] eqn:He.
  - done.
  - rewrite concat_sep_join by done.
    apply strip_app_space, blank_line_space.
Qed.

End extractor_facts.

(* ===================================================================== *)
(** ** Facts on gather *)
(* ===================================================================== *)

Section gather_facts.
Context {A : Type}.
Implicit Types (tasks : list A) (slots : list (option A)) (order : list nat).

Lemma length_complete tasks slots i :
  length (complete tasks slots i) = length slots.
Proof.
  unfold complete. destruct (tasks !! i); [apply length_insert | done].
Qed.

Lemma length_fold_complete tasks order slots :
  length (fold_left (complete tasks) order slots) = length slots.
Proof.
  revert slots. induction order as [|j order IH]; intros slots; simpl; [done|].
  by rewrite IH, length_complete.
Qed.

Lemma lookup_complete tasks slots (i j : nat) :
  length slots = length tasks →
  complete tasks slots j !! i =
  if decide (i = j) then Some <$> tasks !! i else slots !! i.
Proof.
  intros Hlen. unfold complete. destruct (decide (i = j)) as [->|Hij].
  - destruct (tasks !! j) as [r|] eqn:Hr; simpl.
    + apply list_lookup_insert_eq. rewrite Hlen. by eapply lookup_lt_Some.
    + apply lookup_ge_None. rewrite Hlen. by apply lookup_ge_None.
  - destruct (tasks !! j); [|done]. by apply list_lookup_insert_ne.
Qed.

(** A slot holds the result of its own task once the task has completed,
    and is untouched before. *)
Lemma lookup_fold_complete tasks order slots (i : nat) :
  length slots = length tasks →
  fold_left (complete tasks) order slots !! i =
  if decide (i ∈ order) then Some <$> tasks !! i else slots !! i.
Proof.
  revert slots. induction order as [|j order IH]; intros slots Hlen; simpl.
  - destruct (decide (i ∈ [])) as [Hin|]; [by apply elem_of_nil in Hin | done].
  - rewrite IH by (by rewrite length_complete).
    rewrite lookup_complete by done.
    destruct (decide (i ∈ order)) as [Hin|Hnin].
    + rewrite decide_True; [done | by constructor].
    + destruct (decide (i = j)) as [->|Hij].
      * rewrite decide_True; [done | by constructor].
      * rewrite decide_False; [done|].
        intros [?|?]%elem_of_cons; done.
Qed.

Lemma gather_complete tasks order :
  all_complete (length tasks) order → gather tasks order = Some tasks.
Proof.
  intros Hall. unfold gather.
  assert (fold_left (complete tasks) order (replicate (length tasks) None)
          = Some <$> tasks) as ->.
  { apply list_eq. intros i.
    rewrite lookup_fold_complete by apply length_replicate.
    rewrite list_lookup_fmap.
    destruct (decide (i ∈ order)) as [|Hnin]; [done|].
    destruct (decide (i < length tasks)%nat) as [Hlt|Hge].
    - by destruct Hnin; apply Hall.
    - rewrite (lookup_ge_None_2 tasks) by lia.
      apply lookup_ge_None_2. rewrite length_replicate. lia. }
  by apply mapM_fmap_Some.
Qed.

(** Whatever the order, [gather] returns nothing but the results of all the
    tasks, each at the position of its task. *)
Lemma gather_inv tasks order results :
  gather tasks order = Some results → results = tasks.
Proof.
  unfold gather. intros Hm%mapM_Some_1.
  pose proof (Forall2_length _ _ _ Hm) as Hlen.
  rewrite length_fold_complete, length_replicate in Hlen.
  apply list_eq. intros i.
  destruct (decide (i < length tasks)%nat) as [Hlt|Hge].
  - destruct (lookup_lt_is_Some_2 results i) as [r Hr]; [lia|].
    destruct (Forall2_lookup_r _ _ _ _ _ Hm Hr) as (slot & Hslot & Hid).
    simpl in Hid. subst slot.
    rewrite lookup_fold_complete in Hslot by apply length_replicate.
    destruct (decide (i ∈ order)).
    + destruct (tasks !! i); simplify_eq/=. done.
    + apply lookup_replicate in Hslot as [? _]. done.
  - rewrite (lookup_ge_None_2 tasks), (lookup_ge_None_2 results) by lia. done.
Qed.

End gather_facts.

(* ===================================================================== *)
(** ** Facts on fetch_url and scrape_urls *)
(* ===================================================================== *)

Section scraper_facts.
Context `{BeautifulSoup}.

(** [fetch_url] followed by the loop body of [scrape_urls] never raises, and
    gives the record of [final_record]. *)
Lemma process_fetch_url session url :
  process_result (fetch_url session url) =
  Return (final_record (get session url) url).
Proof.
  unfold fetch_url, final_record.
  destruct (get session url) as [[st body]|e]; cbn [try_except mbind exc_bind].
  - cbn [status text]. destruct (negb (st =? 200)) eqn:Hst.
    + reflexivity.
    + destruct body as [html|e]; reflexivity.
  - reflexivity.
Qed.

Lemma mapM_process_imap (f : nat → str → record) (g : nat → str → record)
    (urls : list str) :
  (∀ i url, process_result (f i url) = Return (g i url)) →
  mapM process_result (imap f urls) = Return (imap g urls).
Proof.
  revert f g. induction urls as [|url urls IH]; intros f g Hfg; [done|].
  specialize (IH (f ∘ S) (g ∘ S) (λ i url, Hfg (S i) url)).
  cbn [imap].
  change (mapM process_result (f 0%nat url :: imap (f ∘ S) urls))
    with (y ← process_result (f 0%nat url);
          k ← mapM process_result (imap (f ∘ S) urls); mret (y :: k)).
  by rewrite Hfg, IH.
Qed.

(** The value of a batch: whenever the call returns, it returns the list of
    the final records of all the requests, in the order of the URLs. *)
Lemma scrape_urls_inv net order urls max_concurrent out :
  scrape_urls net order urls max_concurrent = Some out →
  out = Return (imap (λ i url, final_record (net i url) url) urls).
Proof.
  unfold scrape_urls. cbn zeta.
  destruct (gather _ order) as [results|] eqn:Hg; [|done].
  apply gather_inv in Hg as ->. cbn [mbind option_bind].
  intros [= <-]. apply mapM_process_imap.
  intros i url. by rewrite process_fetch_url.
Qed.

(** Once every task has completed, the call returns. *)
Lemma scrape_urls_returns net order urls max_concurrent :
  all_complete (length urls) order →
  scrape_urls net order urls max_concurrent =
  Some (Return (imap (λ i url, final_record (net i url) url) urls)).
Proof.
  intros Hall. unfold scrape_urls. cbn zeta.
  rewrite gather_complete by (by rewrite length_imap).
  cbn [mbind option_bind]. f_equal. apply mapM_process_imap.
  intros i url. by rewrite process_fetch_url.
Qed.

Lemma lookup_final_records net urls (i : nat) r :
  imap (λ i url, final_record (net i url) url) urls !! i = Some r ↔
  ∃ url, urls !! i = Some url ∧ r = final_record (net i url) url.
Proof.
  rewrite list_lookup_imap. destruct (urls !! i) as [url|]; simpl.
  - split; [intros [= <-]; eauto | intros (? & [= <-] & ->); done].
  - split; [done | intros (? & ? & _); done].
Qed.

End scraper_facts.

(* ===================================================================== *)
(** ** The fields of the final records *)
(* ===================================================================== *)

Section record_facts.
Context `{BeautifulSoup}.

Ltac record_compute :=
  repeat match goal with
  | |- context [str_of_int ?z] => generalize (str_of_int z); intro
  | |- context [extract_main_content ?h] =>
      generalize (extract_main_content h); intro
  | |- context [exn_str ?e] => generalize (exn_str e); intro
  end;
  vm_compute; reflexivity.

Lemma final_record_fault e url :
  fields (final_record (Raise e) url) =
  (Some (VStr url), Some (VBool false), None,
   Some (VStr (exn_str e)), Some VNone, None).
Proof. unfold final_record. record_compute. Qed.

Lemma final_record_not_ok st body url :
  st ≠ 200 →
  fields (final_record (Return (Response st body)) url) =
  (Some (VStr url), Some (VBool false), Some (VInt st),
   Some (VStr (lit "HTTP error: " ++ str_of_int st)), Some VNone, None).
Proof.
  intros Hst%Z.eqb_neq. unfold final_record. rewrite Hst. cbn [negb].
  record_compute.
Qed.

Lemma final_record_body_fault e url :
  fields (final_record (Return (Response 200 (Raise e))) url) =
  (Some (VStr url), Some (VBool false), None,
   Some (VStr (exn_str e)), Some VNone, None).
Proof. unfold final_record. cbn [Z.eqb Pos.eqb negb]. record_compute. Qed.

Lemma final_record_ok html url :
  fields (final_record (Return (Response 200 (Return html))) url) =
  (Some (VStr url), Some (VBool true), Some (VInt 200),
   None, None, Some (VStr (extract_main_content html))).
Proof. unfold final_record. cbn [Z.eqb Pos.eqb negb]. record_compute. Qed.

Lemma final_record_faulted answer e url :
  faulted answer e →
  fields (final_record answer url) =
  (Some (VStr url), Some (VBool false), None,
   Some (VStr (exn_str e)), Some VNone, None).
Proof.
  intros [-> | ->]; [apply final_record_fault | apply final_record_body_fault].
Qed.

(** The four ways through [fetch_url]. *)
Lemma answer_cases (answer : exc response) :
  (∃ e, faulted answer e) ∨
  (∃ st body, answer = Return (Response st body) ∧ st ≠ 200) ∨
  (∃ html, answer = Return (Response 200 (Return html))).
Proof.
  destruct answer as [[st body]|e]; [|left; exists e; by left].
  destruct (decide (st = 200)) as [->|Hst]; [|right; left; eauto].
  destruct body as [html|e]; [right; right; eauto|].
  left. exists e. by right.
Qed.

Lemma fields_inv (r : record) a b c d e f :
  fields r = (a, b, c, d, e, f) →
  r !! "url" = a ∧ r !! "success" = b ∧ r !! "status" = c ∧
  r !! "error" = d ∧ r !! "content" = e ∧ r !! "extracted_content" = f.
Proof. by intros [= ? ? ? ? ? ?]. Qed.

Lemma final_record_url answer url :
  final_record answer url !! "url" = Some (VStr url).
Proof.
  destruct (answer_cases answer)
    as [[e He] | [(st & body & -> & Hst) | [html ->]]].
  - by eapply fields_inv, final_record_faulted.
  - by eapply fields_inv, final_record_not_ok.
  - by eapply fields_inv, final_record_ok.
Qed.

Lemma final_record_exclusive answer url : exclusive (final_record answer url).
Proof.
  unfold exclusive, has_key.
  destruct (answer_cases answer)
    as [[e He] | [(st & body & -> & Hst) | [html ->]]].
  - apply (final_record_faulted _ _ url), fields_inv in He
      as (_ & Hs & _ & He & Hc & Hx).
    rewrite Hs, He, Hc, Hx.
    split; [eauto|]. split; [done|]. intros _.
    split; [eauto|]. split; [by intros [? ?] | done].
  - destruct (fields_inv _ _ _ _ _ _ _ (final_record_not_ok st body url Hst))
      as (_ & Hs & _ & He & Hc & Hx).
    rewrite Hs, He, Hc, Hx.
    split; [eauto|]. split; [done|]. intros _.
    split; [eauto|]. split; [by intros [? ?] | done].
  - destruct (fields_inv _ _ _ _ _ _ _ (final_record_ok html url))
      as (_ & Hs & _ & He & Hc & Hx).
    rewrite Hs, He, Hc, Hx.
    split; [eauto|]. split; [|done]. intros _.
    split; [eauto|]. split; by intros [? ?].
Qed.

End record_facts.

(* ===================================================================== *)
(** ** The batch: order, records, failures *)
(* ===================================================================== *)

Import Sample.

Ltac sample_complete :=
  let i := fresh "i" in
  let Hi := fresh "Hi" in
  intros i Hi;
  do 4 (destruct i as [|i]; [repeat constructor|]);
  simpl in Hi; lia.

(** C1. Order preservation.  Whatever the network answers, whatever the
    concurrency cap and whatever the order in which the fetches complete:
    once every fetch has completed, [scrape_urls] returns; and whenever it
    returns, it returns a list with exactly one record per input URL, the
    record at position [i] carrying the URL at position [i].  It never
    returns a shorter list and never raises. *)
Theorem C1_order_preservation `{BeautifulSoup} (net : network)
    (order : list nat) (urls : list str) (max_concurrent : Z) :
  (all_complete (length urls) order →
   ∃ results,
     scrape_urls net order urls max_concurrent = Some (Return results)) ∧
  (∀ out,
     scrape_urls net order urls max_concurrent = Some out →
     ∃ results,
       out = Return results ∧
       length results = length urls ∧
       ∀ (i : nat) url, urls !! i = Some url →
         ∃ r, results !! i = Some r ∧ r !! "url" = Some (VStr url)).
Proof.
  split.
  - intros Hall. eexists. by apply scrape_urls_returns.
  - intros out ->%scrape_urls_inv. eexists. split; [done|].
    split; [apply length_imap|].
    intros i url Hurl. eexists. split.
    + apply lookup_final_records. eauto.
    + apply final_record_url.
Qed.

Lemma C1_order_preservation_witness :
  all_complete (length sample_urls) sample_order ∧
  ∃ results,
    scrape_urls (H := sample_soup) sample_net sample_order sample_urls 5
      = Some (Return results) ∧
    length results = 4%nat ∧
    ∃ r, results !! 3%nat = Some r ∧ r !! "url" = Some (VStr url_d).
Proof.
  assert (all_complete (length sample_urls) sample_order) as Hall
    by sample_complete.
  split; [exact Hall|].
  destruct (C1_order_preservation (H := sample_soup)
              sample_net sample_order sample_urls 5) as [Hret Hinv].
  destruct (Hret Hall) as [results Hres].
  destruct (Hinv _ Hres) as (results' & [= <-] & Hlen & Hurl).
  exists results. split; [exact Hres|]. split; [exact Hlen|].
  apply (Hurl 3%nat url_d). reflexivity.
Defined.

(** The sample batch, run. *)
Example scrape_sample :
  scrape_urls (H := sample_soup) sample_net sample_order sample_urls 5
  = Some (Return sample_results).
Proof. reflexivity. Qed.

(** C2, as stated, fails: the record of a request answered with status 404
    is returned with the key [content] in it, bound to None. *)
Lemma C2_content_key_counterexample :
  ∃ results r,
    scrape_urls (H := sample_soup) sample_net sample_order sample_urls 5
      = Some (Return results) ∧
    results !! 1%nat = Some r ∧
    r !! "success" = Some (VBool false) ∧
    r !! "content" = Some VNone ∧
    ¬ exclusive_without_content r.
Proof.
  exists sample_results. eexists.
  split; [reflexivity|].
  split; [reflexivity|].
  split; [reflexivity|].
  split; [reflexivity|].
  intros (_ & _ & Hcontent). apply Hcontent. by exists VNone.
Qed.

(** C2, amended.  Every record [scrape_urls] returns has a boolean success
    field.  If it is true, the extracted text is present, and neither an
    error nor the key [content] is.  If it is false, an error message is
    present, no extracted text is, and the key [content] is present and
    bound to None: no fetched body is kept in any record. *)
Theorem C2_mutual_exclusivity `{BeautifulSoup} (net : network)
    (order : list nat) (urls : list str) (max_concurrent : Z) out :
  scrape_urls net order urls max_concurrent = Some out →
  ∃ results, out = Return results ∧ Forall exclusive results.
Proof.
  intros ->%scrape_urls_inv. eexists. split; [done|].
  apply Forall_lookup. intros i r (url & _ & ->)%lookup_final_records.
  apply final_record_exclusive.
Qed.

Lemma C2_mutual_exclusivity_witness :
  scrape_urls (H := sample_soup) sample_net sample_order sample_urls 5
    = Some (Return sample_results) ∧
  ∃ results, Return sample_results = Return results ∧ Forall exclusive results.
Proof.
  split; [reflexivity|].
  apply (C2_mutual_exclusivity (H := sample_soup)
           sample_net sample_order sample_urls 5).
  reflexivity.
Defined.

(** C3. A request whose exchange completes with a status other than 200
    gives, at its position in the returned list, a record with success
    false, that status, and the non-empty message made of HTTP error and
    the status; the key [content] holds None and there is no extracted
    text, so the record holds nothing of the response body.  The record is
    the one [fetch_url] built. *)
Theorem C3_non_ok_status `{BeautifulSoup} (net : network)
    (order : list nat) (urls : list str) (max_concurrent : Z) out
    (i : nat) url st body :
  scrape_urls net order urls max_concurrent = Some out →
  urls !! i = Some url →
  net i url = Return (Response st body) →
  st ≠ 200 →
  ∃ results r msg,
    out = Return results ∧
    results !! i = Some r ∧
    r = fetch_url {| connector := {| limit := max_concurrent |};
                     get := net i |} url ∧
    r !! "url" = Some (VStr url) ∧
    r !! "success" = Some (VBool false) ∧
    r !! "status" = Some (VInt st) ∧
    r !! "error" = Some (VStr msg) ∧
    msg = lit "HTTP error: " ++ str_of_int st ∧
    msg ≠ [] ∧
    r !! "content" = Some VNone ∧
    r !! "extracted_content" = None.
Proof.
  intros ->%scrape_urls_inv Hurl Hnet Hst.
  destruct (fields_inv _ _ _ _ _ _ _ (final_record_not_ok st body url Hst))
    as (Hu & Hs & Hstat & He & Hc & Hx).
  exists (imap (λ i url, final_record (net i url) url) urls).
  exists (final_record (net i url) url).
  exists (lit "HTTP error: " ++ str_of_int st).
  rewrite Hnet.
  split; [done|].
  split; [apply lookup_final_records; exists url; by rewrite Hnet|].
  split.
  { unfold fetch_url, final_record. cbn [get]. rewrite Hnet.
    cbn [try_except mbind exc_bind status].
    by destruct (negb (st =? 200)) eqn:Hneg;
      [|apply negb_false_iff, Z.eqb_eq in Hneg]. }
  repeat (split; [done|]). done.
Qed.

Lemma C3_non_ok_status_witness :
  scrape_urls (H := sample_soup) sample_net sample_order sample_urls 5
    = Some (Return sample_results) ∧
  ∃ r,
    sample_results !! 1%nat = Some r ∧
    r !! "success" = Some (VBool false) ∧
    r !! "status" = Some (VInt 404) ∧
    r !! "error" = Some (VStr (lit "HTTP error: 404")) ∧
    r !! "content" = Some VNone.
Proof.
  split; [reflexivity|].
  destruct (C3_non_ok_status (H := sample_soup)
              sample_net sample_order sample_urls 5 (Return sample_results)
              1%nat url_b 404 (Return (lit "not found")))
    as (results & r & msg & Hout & Hr & _ & _ & Hs & Hst & He & Hmsg & _ & Hc
        & _).
  - reflexivity.
  - reflexivity.
  - reflexivity.
  - lia.
  - exists r. injection Hout as <-.
    split; [exact Hr|]. split; [exact Hs|]. split; [exact Hst|].
    split; [|exact Hc].
    rewrite He, Hmsg. reflexivity.
Defined.

(** C4, as stated, fails: a request that times out raises an exception
    without a message, and its record is returned with the empty text as
    error. *)
Lemma C4_empty_error_counterexample :
  faulted (sample_net 2%nat url_c) timeout_error ∧
  ∃ results r,
    scrape_urls (H := sample_soup) sample_net sample_order sample_urls 5
      = Some (Return results) ∧
    results !! 2%nat = Some r ∧
    r !! "success" = Some (VBool false) ∧
    r !! "status" = None ∧
    r !! "error" = Some (VStr []) ∧
    ¬ descriptive_fault_record r.
Proof.
  split; [by left|].
  exists sample_results. eexists.
  split; [reflexivity|].
  split; [reflexivity|].
  split; [reflexivity|].
  split; [reflexivity|].
  split; [reflexivity|].
  intros (_ & (msg & Hmsg & Hne) & _). apply Hne.
  assert (Some (VStr msg) = Some (VStr [])) as Heq
    by (rewrite <- Hmsg; reflexivity).
  by injection Heq.
Qed.

(** C4, amended.  A request that raises a transport fault (while
    connecting, or while the body is read) gives, at its position, a record
    with success false, the text of the exception as error, and no status
    field (nor extracted text).  The error text is whatever the exception
    carries: it is descriptive exactly when the text of the exception is not
    empty.  The fault does not leave [fetch_url]: the batch still returns
    one record per URL, and the records at the other positions are the ones
    any network answering alike to the other requests gives. *)
Theorem C4_transport_fault `{BeautifulSoup} (net : network)
    (order : list nat) (urls : list str) (max_concurrent : Z)
    (i : nat) url e :
  all_complete (length urls) order →
  urls !! i = Some url →
  faulted (net i url) e →
  ∃ results r,
    scrape_urls net order urls max_concurrent = Some (Return results) ∧
    length results = length urls ∧
    results !! i = Some r ∧
    r !! "url" = Some (VStr url) ∧
    r !! "success" = Some (VBool false) ∧
    r !! "error" = Some (VStr (exn_str e)) ∧
    r !! "status" = None ∧
    r !! "extracted_content" = None ∧
    (descriptive_fault_record r ↔ exn_str e ≠ []) ∧
    ∀ net', same_but i net net' →
      ∃ results',
        scrape_urls net' order urls max_concurrent = Some (Return results') ∧
        length results' = length urls ∧
        ∀ j : nat, j ≠ i → results' !! j = results !! j.
Proof.
  intros Hall Hurl Hfault.
  apply (final_record_faulted _ _ url), fields_inv in Hfault
    as (Hu & Hs & Hst & He & _ & Hx).
  eexists. exists (final_record (net i url) url).
  split; [by apply scrape_urls_returns|].
  split; [apply length_imap|].
  split; [apply lookup_final_records; eauto|].
  repeat (split; [done|]).
  split.
  { unfold descriptive_fault_record. rewrite Hs, He, Hst. split.
    - intros (_ & (msg & [= <-] & Hne) & _). exact Hne.
    - intros Hne. split; [done|]. split; [eauto | done]. }
  intros net' Hsame. eexists.
  split; [by apply scrape_urls_returns|].
  split; [apply length_imap|].
  intros j Hj. rewrite !list_lookup_imap.
  destruct (urls !! j) as [url'|]; simpl; [|done].
  by rewrite (Hsame j url' Hj).
Qed.

Lemma C4_transport_fault_witness :
  all_complete (length sample_urls) sample_order ∧
  sample_urls !! 2%nat = Some url_c ∧
  faulted (sample_net 2%nat url_c) timeout_error ∧
  ∃ results r,
    scrape_urls (H := sample_soup) sample_net sample_order sample_urls 5
      = Some (Return results) ∧
    length results = 4%nat ∧
    results !! 2%nat = Some r ∧
    r !! "success" = Some (VBool false) ∧
    r !! "error" = Some (VStr (exn_str timeout_error)) ∧
    r !! "status" = None.
Proof.
  assert (all_complete (length sample_urls) sample_order) as Hall
    by sample_complete.
  assert (faulted (sample_net 2%nat url_c) timeout_error) as Hfault
    by (left; reflexivity).
  split; [exact Hall|]. split; [reflexivity|]. split; [exact Hfault|].
  destruct (C4_transport_fault (H := sample_soup)
              sample_net sample_order sample_urls 5 2%nat url_c timeout_error
              Hall eq_refl Hfault)
    as (results & r & Hres & Hlen & Hr & _ & Hs & He & Hst & _).
  exists results, r. repeat (split; [assumption|]). assumption.
Defined.

(** C9. In every record [scrape_urls] returns with success true, the status
    field is present and is 200; a request whose exchange completes with any
    other status gives a record with success false. *)
Theorem C9_success_status `{BeautifulSoup} (net : network)
    (order : list nat) (urls : list str) (max_concurrent : Z) out :
  scrape_urls net order urls max_concurrent = Some out →
  ∃ results,
    out = Return results ∧
    (∀ r, r ∈ results →
       r !! "success" = Some (VBool true) →
       r !! "status" = Some (VInt 200)) ∧
    (∀ (i : nat) url st body,
       urls !! i = Some url →
       net i url = Return (Response st body) →
       st ≠ 200 →
       ∃ r, results !! i = Some r ∧ r !! "success" = Some (VBool false)).
Proof.
  intros ->%scrape_urls_inv. eexists. split; [done|]. split.
  - intros r [i Hr]%list_elem_of_lookup.
    apply lookup_final_records in Hr as (url & _ & ->).
    destruct (answer_cases (net i url))
      as [[e He] | [(st & body & -> & Hst) | [html ->]]].
    + apply (final_record_faulted _ _ url), fields_inv in He
        as (_ & Hs & _). rewrite Hs. done.
    + destruct (fields_inv _ _ _ _ _ _ _
                  (final_record_not_ok st body url Hst)) as (_ & Hs & _).
      rewrite Hs. done.
    + destruct (fields_inv _ _ _ _ _ _ _ (final_record_ok html url))
        as (_ & _ & Hst & _). done.
  - intros i url st body Hurl Hnet Hst.
    exists (final_record (net i url) url).
    split; [apply lookup_final_records; eauto|].
    rewrite Hnet.
    by destruct (fields_inv _ _ _ _ _ _ _
                   (final_record_not_ok st body url Hst)) as (_ & Hs & _).
Qed.

Lemma C9_success_status_witness :
  scrape_urls (H := sample_soup) sample_net sample_order sample_urls 5
    = Some (Return sample_results) ∧
  ∃ r,
    sample_results !! 0%nat = Some r ∧
    r !! "success" = Some (VBool true) ∧
    r !! "status" = Some (VInt 200).
Proof.
  split; [reflexivity|].
  destruct (C9_success_status (H := sample_soup)
              sample_net sample_order sample_urls 5 (Return sample_results))
    as (results & Hout & Hok & _); [reflexivity|].
  injection Hout as <-.
  eexists. split; [reflexivity|]. split; [reflexivity|].
  apply Hok; [|reflexivity].
  apply list_elem_of_lookup. by exists 0%nat.
Defined.

(* ===================================================================== *)
(** ** The extractor: region, text, failures *)
(* ===================================================================== *)

Lemma extract_parsed `{BeautifulSoup} html soup :
  html_parser html = Return soup →
  extract_main_content html =
  strip (collect_text (select_main_content (decompose_all removed_tags soup))).
Proof.
  intros Hp. unfold extract_main_content, extract_body. by rewrite Hp.
Qed.

(** The extractor on the three sample pages: the body of the plain page
    without its navigation bar and script, the first article of the second
    page although a tag with id content comes before it, and nothing for the
    page without tags. *)
Example extract_plain :
  extract_main_content (H := sample_soup) plain_html
  = lit "News" ++ blank_line ++ lit "first bold" ++ blank_line ++
    lit "one" ++ blank_line ++ lit "two".
Proof. reflexivity. Qed.

Example extract_article :
  extract_main_content (H := sample_soup) article_html = lit "story".
Proof. reflexivity. Qed.

Example extract_bare :
  extract_main_content (H := sample_soup) bare_html = [].
Proof. reflexivity. Qed.

(** A list item around a paragraph is collected, and so is the paragraph. *)
Example collect_nested :
  strip (collect_text (tag "div" [tag "li" [tag "p" [txt " x "]]]))
  = lit "x" ++ blank_line ++ lit "x".
Proof. reflexivity. Qed.

Lemma select_main_content_fallback `{BeautifulSoup} soup :
  (∀ c, c ∈ containers → select c soup = []) →
  select_main_content soup = default soup (find (lit "body") soup).
Proof.
  intros Hnone. unfold select_main_content.
  rewrite (first_container_none _ _ Hnone). by destruct (find _ soup).
Qed.

(** C5. On every parsed input the text is collected from the region
    [select_main_content] gives for the document without its script, style,
    nav, footer and iframe tags.  The selectors are probed in the order main,
    article, role=main, #content, .content, #main, .main: when a selector
    matches and none before it in that order matches any node, the region is
    the first node in document order it matches.  When no selector matches,
    the region is the first body tag, and the whole tree when there is no
    body tag.  One of the two cases always applies. *)
Theorem C5_container_priority `{BeautifulSoup} (html : str) (soup0 : node) :
  html_parser html = Return soup0 →
  let soup := decompose_all removed_tags soup0 in
  extract_main_content html = strip (collect_text (select_main_content soup)) ∧
  containers =
    [SelType (lit "main"); SelType (lit "article");
     SelAttr (lit "role") (lit "main");
     SelId (lit "content"); SelClass (lit "content");
     SelId (lit "main"); SelClass (lit "main")] ∧
  (∀ (k : nat) c n,
     containers !! k = Some c →
     (∀ (j : nat) c',
        (j < k)%nat → containers !! j = Some c' → select c' soup = []) →
     first_in_document_order (λ m, is_tag m && sel_match c m) soup n →
     select_main_content soup = n) ∧
  ((∀ c, c ∈ containers → select c soup = []) →
     (∀ body, find (lit "body") soup = Some body →
              select_main_content soup = body) ∧
     (find (lit "body") soup = None → select_main_content soup = soup)) ∧
  ((∃ (k : nat) c n,
      containers !! k = Some c ∧
      (∀ (j : nat) c',
         (j < k)%nat → containers !! j = Some c' → select c' soup = []) ∧
      first_in_document_order (λ m, is_tag m && sel_match c m) soup n) ∨
   (∀ c, c ∈ containers → select c soup = [])).
Proof.
  intros Hp soup. split; [by apply extract_parsed|]. split; [done|].
  split; [|split; [|apply first_container_cases]].
  - intros k c n Hk Hbefore Hfirst. unfold select_main_content.
    by rewrite (first_container_at containers soup k c n Hk Hbefore
                  (select_first _ _ _ Hfirst)).
  - intros Hnone. rewrite (select_main_content_fallback _ Hnone).
    split; [by intros body -> | by intros ->].
Qed.

Lemma C5_container_priority_witness :
  html_parser (BeautifulSoup := sample_soup) article_html
    = Return article_soup ∧
  select_main_content (H := sample_soup)
    (decompose_all removed_tags article_soup) = article1.
Proof.
  split; [reflexivity|].
  destruct (C5_container_priority (H := sample_soup)
              article_html article_soup eq_refl) as (_ & _ & Hprio & _).
  apply (Hprio 1%nat (SelType (lit "article")) article1).
  - reflexivity.
  - intros j c' Hj Hc. destruct j as [|j]; [|lia].
    injection Hc as <-. reflexivity.
  - exists [tag "body" [content_div; article1; article2]; content_div;
            tag "p" [txt "side"]; txt "side"].
    eexists. split; [reflexivity|]. split; reflexivity.
Defined.

(** C6. For a document in which, once the script, style, nav, footer and
    iframe tags are removed, no container selector matches and there is a
    body, the extractor returns the texts of all the p, h1 to h6 and li tags
    below that body, in document order, joined by blank lines, the whole
    trimmed (the text of a tag being its text without the white space
    around it, see C10). *)
Theorem C6_body_fallback `{BeautifulSoup} (html : str) (soup0 body : node) :
  html_parser html = Return soup0 →
  (∀ c, c ∈ containers →
        select c (decompose_all removed_tags soup0) = []) →
  find (lit "body") (decompose_all removed_tags soup0) = Some body →
  find_all removed_tags (decompose_all removed_tags soup0) = [] ∧
  extract_main_content html = spec_region_text body ∧
  spec_region_text body =
    strip (join blank_line
             (List.map (λ p, strip (get_text p))
                (List.filter (named text_tags) (descendants body)))).
Proof.
  intros Hp Hnone Hbody. split; [apply find_all_decompose_all|].
  split; [|done].
  rewrite (extract_parsed html soup0 Hp).
  rewrite (select_main_content_fallback _ Hnone), Hbody. simpl.
  apply strip_collect_text.
Qed.

Lemma C6_body_fallback_witness :
  html_parser (BeautifulSoup := sample_soup) plain_html = Return plain_soup ∧
  find (lit "body") (decompose_all removed_tags plain_soup)
    = Some (decompose_all removed_tags plain_body) ∧
  extract_main_content (H := sample_soup) plain_html
    = lit "News" ++ blank_line ++ lit "first bold" ++ blank_line ++
      lit "one" ++ blank_line ++ lit "two".
Proof.
  split; [reflexivity|]. split; [reflexivity|].
  destruct (C6_body_fallback (H := sample_soup) plain_html plain_soup
              (decompose_all removed_tags plain_body))
    as (_ & -> & _).
  - reflexivity.
  - intros c Hc.
    repeat (apply elem_of_cons in Hc as [->|Hc]; [reflexivity|]).
    by apply elem_of_nil in Hc.
  - reflexivity.
  - reflexivity.
Defined.

(** C7. [extract_main_content] is total: it returns what the body of its
    try block returns, and the fixed text Error extracting content whenever
    that body raises, in particular when the parser rejects the input.  The
    record of a request answered with status 200 and such a body is
    returned with success true and that fixed text as extracted text. *)
Theorem C7_extraction_resilience `{BeautifulSoup} (html : str) :
  sentinel = lit "Error extracting content" ∧
  ((∃ s, extract_body html = Return s ∧ extract_main_content html = s) ∨
   (∃ e, extract_body html = Raise e ∧ extract_main_content html = sentinel)) ∧
  (∀ e, html_parser html = Raise e → extract_body html = Raise e) ∧
  (∀ (net : network) (order : list nat) (urls : list str)
     (max_concurrent : Z) out (i : nat) url e,
     scrape_urls net order urls max_concurrent = Some out →
     urls !! i = Some url →
     net i url = Return (Response 200 (Return html)) →
     extract_body html = Raise e →
     ∃ results r,
       out = Return results ∧
       results !! i = Some r ∧
       r !! "success" = Some (VBool true) ∧
       r !! "extracted_content" = Some (VStr sentinel)).
Proof.
  split; [done|]. split; [|split].
  - unfold extract_main_content.
    destruct (extract_body html) as [s|e]; [left|right]; eauto.
  - intros e He. unfold extract_body. by rewrite He.
  - intros net order urls mc out i url e ->%scrape_urls_inv Hurl Hnet He.
    eexists. exists (final_record (net i url) url).
    split; [done|].
    split; [apply lookup_final_records; eauto|].
    rewrite Hnet.
    destruct (fields_inv _ _ _ _ _ _ _ (final_record_ok html url))
      as (_ & Hs & _ & _ & _ & Hx).
    split; [done|]. rewrite Hx. unfold extract_main_content.
    by rewrite He.
Qed.

Lemma C7_extraction_resilience_witness :
  scrape_urls (H := sample_soup) sample_net sample_order sample_urls 5
    = Some (Return sample_results) ∧
  extract_body (H := sample_soup) (lit "<![")
    = Raise (Exception "ParserRejectedMarkup" (lit "rejected")) ∧
  ∃ r,
    sample_results !! 3%nat = Some r ∧
    r !! "success" = Some (VBool true) ∧
    r !! "extracted_content" = Some (VStr (lit "Error extracting content")).
Proof.
  split; [reflexivity|]. split; [reflexivity|].
  destruct (C7_extraction_resilience (H := sample_soup) (lit "<!["))
    as (_ & _ & _ & Hrec).
  destruct (Hrec sample_net sample_order sample_urls 5
              (Return sample_results) 3%nat url_d
              (Exception "ParserRejectedMarkup" (lit "rejected")))
    as (results & r & Hout & Hr & Hs & Hx).
  - reflexivity.
  - reflexivity.
  - reflexivity.
  - reflexivity.
  - injection Hout as <-. exists r. split; [exact Hr|].
    split; [exact Hs | exact Hx].
Defined.

(** C10. Each collected p, h1 to h6 or li tag contributes its text with
    the white space at both ends removed, followed by a blank line: no entry
    starts or ends with white space.  The result is these entries joined by
    blank lines and trimmed; when no entry is empty, it is exactly the
    entries joined by single blank lines. *)
Theorem C10_entries_stripped `{BeautifulSoup} (html : str) (soup0 : node) :
  html_parser html = Return soup0 →
  let region := select_main_content (decompose_all removed_tags soup0) in
  let entries :=
    List.map (λ p, strip (get_text p)) (find_all text_tags region) in
  collect_text region = concat (List.map (λ e, e ++ blank_line) entries) ∧
  Forall clean entries ∧
  extract_main_content html = strip (join blank_line entries) ∧
  (Forall (λ e, e ≠ []) entries →
   extract_main_content html = join blank_line entries).
Proof.
  intros Hp region entries.
  assert (Forall clean entries) as Hclean.
  { unfold entries. induction (find_all text_tags region) as [|p l IH].
    - constructor.
    - constructor; [apply strip_clean | exact IH]. }
  assert (extract_main_content html = strip (join blank_line entries)) as Hex.
  { rewrite (extract_parsed html soup0 Hp). apply strip_collect_text. }
  split; [apply collect_text_concat|]. split; [done|]. split; [done|].
  intros Hne. rewrite Hex. by apply strip_clean_id, join_clean.
Qed.

Lemma C10_entries_stripped_witness :
  html_parser (BeautifulSoup := sample_soup) plain_html = Return plain_soup ∧
  List.map (λ p, strip (get_text p))
    (find_all text_tags
       (select_main_content (H := sample_soup)
          (decompose_all removed_tags plain_soup)))
    = [lit "News"; lit "first bold"; lit "one"; lit "two"] ∧
  extract_main_content (H := sample_soup) plain_html
    = join blank_line [lit "News"; lit "first bold"; lit "one"; lit "two"].
Proof.
  split; [reflexivity|]. split; [reflexivity|].
  destruct (C10_entries_stripped (H := sample_soup) plain_html plain_soup
              eq_refl) as (_ & _ & _ & Hjoin).
  rewrite Hjoin; [reflexivity|].
  repeat constructor; discriminate.
Defined.

(* ===================================================================== *)
(** ** Further properties of the scraper *)
(* ===================================================================== *)

Section gather_more.
Context {A : Type}.

Lemma fold_complete_nil (order : list nat) (slots : list (option A)) :
  fold_left (complete []) order slots = slots.
Proof.
  revert slots. induction order as [|i order IH]; intros slots; [done|].
  simpl. rewrite IH. unfold complete. by rewrite lookup_nil.
Qed.

End gather_more.

(** X1. An empty batch returns the empty list at once: no completion is
    awaited, whatever the order and the cap. *)
Theorem scrape_urls_empty `{BeautifulSoup} (net : network) (order : list nat)
    (max_concurrent : Z) :
  scrape_urls net order [] max_concurrent = Some (Return []).
Proof.
  unfold scrape_urls, gather. cbn [imap length replicate].
  by rewrite fold_complete_nil.
Qed.

(** X2. The order in which the fetches complete does not show in the
    result: when the network gives the same answer to each request, two runs
    of the same batch in which every fetch completes return the same list,
    whatever the two completion orders. *)
Theorem scrape_urls_order_independent `{BeautifulSoup} (net : network)
    (order1 order2 : list nat) (urls : list str) (max_concurrent : Z) :
  all_complete (length urls) order1 →
  all_complete (length urls) order2 →
  scrape_urls net order1 urls max_concurrent
  = scrape_urls net order2 urls max_concurrent ∧
  ∃ results, scrape_urls net order1 urls max_concurrent = Some (Return results).
Proof.
  intros H1 H2. rewrite !scrape_urls_returns by done. eauto.
Qed.

Lemma scrape_urls_order_independent_witness :
  all_complete (length sample_urls) sample_order ∧
  all_complete (length sample_urls) [0; 1; 2; 3]%nat ∧
  scrape_urls (H := sample_soup) sample_net sample_order sample_urls 5
  = scrape_urls (H := sample_soup) sample_net [0; 1; 2; 3]%nat sample_urls 5.
Proof.
  assert (all_complete (length sample_urls) sample_order) as H1
    by sample_complete.
  assert (all_complete (length sample_urls) [0; 1; 2; 3]%nat) as H2
    by sample_complete.
  split; [exact H1|]. split; [exact H2|].
  apply (scrape_urls_order_independent (H := sample_soup)
           sample_net sample_order [0; 1; 2; 3]%nat sample_urls 5 H1 H2).
Defined.

(** X3. [fetch_url] on its own: the record it builds always has the keys
    url, success and content.  The key [content] holds the body exactly when
    the exchange completed with status 200 and the body could be read, and
    then success is true and the status is 200; in every other case it holds
    None and success is false. *)
Theorem fetch_url_content (session : ClientSession) (url : str) :
  let r := fetch_url session url in
  r !! "url" = Some (VStr url) ∧
  ((∃ body,
      get session url = Return (Response 200 (Return body)) ∧
      r !! "success" = Some (VBool true) ∧
      r !! "status" = Some (VInt 200) ∧
      r !! "content" = Some (VStr body) ∧
      r !! "error" = None) ∨
   ((∀ body, get session url ≠ Return (Response 200 (Return body))) ∧
    r !! "success" = Some (VBool false) ∧
    r !! "content" = Some VNone ∧
    ∃ msg, r !! "error" = Some (VStr msg))).
Proof.
  unfold fetch_url.
  destruct (get session url) as [[st body]|e]; cbn [try_except mbind exc_bind].
  - cbn [status text]. destruct (Z.eqb_spec st 200) as [->|Hst]; cbn [negb].
    + destruct body as [body|e]; cbn [try_except mbind exc_bind mret exc_ret].
      * split; [reflexivity|]. left. exists body. by repeat split.
      * split; [reflexivity|]. right.
        split; [by intros body|]. split; [reflexivity|].
        split; [reflexivity|]. eexists. reflexivity.
    + cbn [try_except mret exc_ret]. split; [reflexivity|]. right.
      split; [intros b [= ? _]; done|]. split; [reflexivity|].
      split; [reflexivity|]. eexists. reflexivity.
  - split; [reflexivity|]. right.
    split; [by intros body|]. split; [reflexivity|].
    split; [reflexivity|]. eexists. reflexivity.
Qed.

Section shapes.
Context `{BeautifulSoup}.

Lemma final_record_dom answer url :
  let keys := dom (final_record answer url) in
  ((∃ html, answer = Return (Response 200 (Return html))) ∧
   keys = {[ "url"; "success"; "status"; "extracted_content" ]}) ∨
  ((∃ st body, answer = Return (Response st body) ∧ st ≠ 200) ∧
   keys = {[ "url"; "success"; "status"; "error"; "content" ]}) ∨
  ((∃ e, faulted answer e) ∧
   keys = {[ "url"; "success"; "error"; "content" ]}).
Proof.
  unfold final_record.
  destruct answer as [[st body]|e].
  - destruct (Z.eqb_spec st 200) as [->|Hst]; cbn [negb].
    + destruct body as [html|e].
      * left. split; [eauto | reflexivity].
      * right. right. split; [exists e; by right | reflexivity].
    + right. left. split; [eauto | reflexivity].
  - right. right. split; [exists e; by left | reflexivity].
Qed.

End shapes.

(** X4. The keys of the records a batch returns.  The record of a request
    has exactly the keys url, success, status, extracted_content when the
    exchange completed with status 200 and a readable body; exactly url,
    success, status, error, content when it completed with another status;
    and exactly url, success, error, content when it raised. *)
Theorem record_key_sets `{BeautifulSoup} (net : network) (order : list nat)
    (urls : list str) (max_concurrent : Z) out (i : nat) url :
  scrape_urls net order urls max_concurrent = Some out →
  urls !! i = Some url →
  ∃ results r,
    out = Return results ∧ results !! i = Some r ∧
    (((∃ html, net i url = Return (Response 200 (Return html))) ∧
      dom r = {[ "url"; "success"; "status"; "extracted_content" ]}) ∨
     ((∃ st body, net i url = Return (Response st body) ∧ st ≠ 200) ∧
      dom r = {[ "url"; "success"; "status"; "error"; "content" ]}) ∨
     ((∃ e, faulted (net i url) e) ∧
      dom r = {[ "url"; "success"; "error"; "content" ]})).
Proof.
  intros ->%scrape_urls_inv Hurl.
  eexists. exists (final_record (net i url) url).
  split; [done|]. split; [apply lookup_final_records; eauto|].
  apply final_record_dom.
Qed.

Lemma record_key_sets_witness :
  scrape_urls (H := sample_soup) sample_net sample_order sample_urls 5
    = Some (Return sample_results) ∧
  ∃ r, sample_results !! 2%nat = Some r ∧
       dom r = {[ "url"; "success"; "error"; "content" ]}.
Proof.
  split; [reflexivity|].
  destruct (record_key_sets (H := sample_soup) sample_net sample_order
              sample_urls 5 (Return sample_results) 2%nat url_c)
    as (results & r & Hout & Hr & Hdom); [reflexivity | reflexivity |].
  injection Hout as <-. exists r. split; [exact Hr|].
  injection Hr as <-. reflexivity.
Defined.

(** X5. The record of a request answered with status 200 carries, as
    extracted text, the extractor applied to the very body fetched for that
    request, with status 200 and success true. *)
Theorem success_record_extracts_body `{BeautifulSoup} (net : network)
    (order : list nat) (urls : list str) (max_concurrent : Z) out
    (i : nat) url html :
  scrape_urls net order urls max_concurrent = Some out →
  urls !! i = Some url →
  net i url = Return (Response 200 (Return html)) →
  ∃ results r,
    out = Return results ∧ results !! i = Some r ∧
    fetch_url {| connector := {| limit := max_concurrent |};
                 get := net i |} url !! "content" = Some (VStr html) ∧
    r !! "url" = Some (VStr url) ∧
    r !! "success" = Some (VBool true) ∧
    r !! "status" = Some (VInt 200) ∧
    r !! "extracted_content" = Some (VStr (extract_main_content html)).
Proof.
  intros ->%scrape_urls_inv Hurl Hnet.
  eexists. exists (final_record (net i url) url).
  split; [done|]. split; [apply lookup_final_records; eauto|].
  split.
  { unfold fetch_url. cbn [get]. by rewrite Hnet. }
  rewrite Hnet.
  destruct (fields_inv _ _ _ _ _ _ _ (final_record_ok html url))
    as (Hu & Hs & Hst & _ & _ & Hx).
  done.
Qed.

Lemma success_record_extracts_body_witness :
  scrape_urls (H := sample_soup) sample_net sample_order sample_urls 5
    = Some (Return sample_results) ∧
  ∃ r, sample_results !! 0%nat = Some r ∧
       r !! "extracted_content"
       = Some (VStr (extract_main_content (H := sample_soup) plain_html)).
Proof.
  split; [reflexivity|].
  destruct (success_record_extracts_body (H := sample_soup) sample_net
              sample_order sample_urls 5 (Return sample_results) 0%nat url_a
              plain_html)
    as (results & r & Hout & Hr & _ & _ & _ & _ & Hx);
    [reflexivity | reflexivity | reflexivity |].
  injection Hout as <-. exists r. split; [exact Hr | exact Hx].
Defined.

Section tree_more.

Lemma descendants_trans (n d e : node) :
  In d (descendants n) → In e (descendants d) → In e (descendants n).
Proof.
  induction n as [name attrs contents IH | cls s] using node_tree_ind;
    [|done].
  cbn [descendants]. intros Hd He.
  apply in_flat_map in Hd as (c & Hc & Hd). apply in_flat_map.
  exists c. split; [done|].
  destruct Hd as [<-|Hd]; [by right|]. right.
  rewrite Forall_forall in IH. apply IH; [|done..].
  by apply list_elem_of_In.
Qed.

Lemma get_text_tag name attrs contents :
  get_text (Tag name attrs contents) =
  concat (List.map (λ c, own_text c ++ get_text c) contents).
Proof.
  unfold get_text. cbn [descendants].
  induction contents as [|c l IH]; [done|].
  cbn [flat_map]. rewrite List.map_app, concat_app, IH. reflexivity.
Qed.

(** The text of a tag contains the text of everything below it. *)
Lemma get_text_contains (n d : node) :
  In d (descendants n) → ∃ pre post, get_text n = pre ++ get_text d ++ post.
Proof.
  induction n as [name attrs contents IH | cls s] using node_tree_ind;
    [|done].
  intros Hd. cbn [descendants] in Hd.
  rewrite get_text_tag.
  induction contents as [|c l IHl]; [done|].
  apply Forall_cons_1 in IH as [IHc IH].
  cbn [flat_map] in Hd. cbn [List.map concat].
  apply in_app_iff in Hd as [[<-|Hd]|Hd].
  - exists (own_text c), (concat (List.map (λ c, own_text c ++ get_text c) l)).
    by rewrite <- app_assoc.
  - destruct (IHc Hd) as (pre & post & ->).
    exists (own_text c ++ pre),
           (post ++ concat (List.map (λ c, own_text c ++ get_text c) l)).
    by rewrite <- !app_assoc.
  - destruct (IHl IH Hd) as (pre & post & ->).
    exists ((own_text c ++ get_text c) ++ pre), post.
    by rewrite <- !app_assoc.
Qed.

(** Document order: what lies below an element follows it at once. *)
Lemma descendants_split (n d : node) :
  In d (descendants n) →
  ∃ l1 l2, descendants n = l1 ++ d :: descendants d ++ l2.
Proof.
  induction n as [name attrs contents IH | cls s] using node_tree_ind;
    [|done].
  cbn [descendants]. intros Hd.
  apply in_flat_map in Hd as (c & Hc & Hd).
  apply in_split in Hc as (c1 & c2 & ->).
  apply Forall_app in IH as [_ IH]. apply Forall_cons_1 in IH as [IHc _].
  rewrite flat_map_app. cbn [flat_map].
  set (f := λ c : node, c :: descendants c).
  destruct Hd as [<-|Hd].
  - exists (flat_map f c1), (flat_map f c2). reflexivity.
  - destruct (IHc Hd) as (l1 & l2 & Heq).
    exists (flat_map f c1 ++ c :: l1), (l2 ++ flat_map f c2).
    unfold f at 2. rewrite Heq. cbn [app].
    rewrite <- !app_assoc. cbn [app]. by rewrite <- !app_assoc.
Qed.

Lemma find_all_split names (n p : node) :
  In p (find_all names n) →
  ∃ l1 l2, find_all names n = l1 ++ p :: find_all names p ++ l2.
Proof.
  unfold find_all. intros [Hp Hnamed]%filter_In.
  destruct (descendants_split n p Hp) as (l1 & l2 & ->).
  exists (List.filter (named names) l1), (List.filter (named names) l2).
  rewrite List.filter_app. cbn [List.filter]. rewrite Hnamed.
  by rewrite List.filter_app.
Qed.

(** What [strip] removes is at the two ends: a text that is not empty and
    neither starts nor ends with white space stays where it is. *)
Lemma drop_while_keeps {A} (f : A → bool) (X m R : list A) c :
  head m = Some c → f c = false →
  ∃ X', drop_while f (X ++ m ++ R) = X' ++ m ++ R.
Proof.
  intros Hm Hc. induction X as [|x X IH].
  - exists []. destruct m as [|c' m]; [done|]. injection Hm as ->.
    cbn. by rewrite Hc.
  - cbn. destruct (f x); [exact IH|]. by exists (x :: X).
Qed.

Lemma clean_head (m : str) :
  m ≠ [] → clean m → ∃ c, head m = Some c ∧ isspace c = false.
Proof.
  intros Hne [Hhead _]. destruct m as [|c m]; [done|]. exists c. auto.
Qed.

Lemma clean_last (m : str) :
  m ≠ [] → clean m → ∃ c, last m = Some c ∧ isspace c = false.
Proof.
  intros Hne [_ Hlast]. destruct (last m) as [c|] eqn:Hl.
  - exists c. auto.
  - by apply last_None in Hl.
Qed.

Lemma lstrip_keeps (X m R : str) :
  m ≠ [] → clean m → ∃ X', lstrip (X ++ m ++ R) = X' ++ m ++ R.
Proof.
  intros Hne Hclean. destruct (clean_head m Hne Hclean) as (c & Hc & Hsp).
  by eapply drop_while_keeps.
Qed.

Lemma rstrip_keeps (L m Z : str) :
  m ≠ [] → clean m → ∃ Z', rstrip (L ++ m ++ Z) = L ++ m ++ Z'.
Proof.
  intros Hne Hclean. destruct (clean_last m Hne Hclean) as (c & Hc & Hsp).
  unfold rstrip. rewrite !rev_app_distr, <- app_assoc.
  destruct (drop_while_keeps isspace (rev Z) (rev m) (rev L) c)
    as (Z' & ->); [by rewrite head_rev | done |].
  exists (rev Z'). by rewrite !rev_app_distr, !rev_involutive, <- app_assoc.
Qed.

Lemma drop_while_suffix {A} (f : A → bool) (l : list A) :
  ∃ w, l = w ++ drop_while f l.
Proof.
  induction l as [|x l [w IH]]; [by exists []|]. cbn.
  destruct (f x); [|by exists []]. exists (x :: w). cbn. by rewrite <- IH.
Qed.

Lemma strip_inside (s : str) : ∃ w1 w2, s = w1 ++ strip s ++ w2.
Proof.
  unfold strip, lstrip, rstrip.
  destruct (drop_while_suffix isspace s) as [w1 H1].
  destruct (drop_while_suffix isspace (rev (drop_while isspace s)))
    as [w2 H2].
  exists w1, (rev w2). rewrite <- rev_app_distr, <- H2, rev_involutive.
  exact H1.
Qed.

(** The stripped text of an element holds the stripped text of every
    element below it. *)
Lemma entry_text_contains (p q : node) :
  In q (descendants p) → entry_text q ≠ [] →
  ∃ pre post, entry_text p = pre ++ entry_text q ++ post.
Proof.
  intros Hq Hne. destruct (get_text_contains p q Hq) as (pre & post & Hp).
  destruct (strip_inside (get_text q)) as (w1 & w2 & Hq').
  unfold entry_text in *.
  set (m := strip (get_text q)) in *.
  assert (clean m) as Hclean by apply strip_clean.
  rewrite Hp, Hq'.
  unfold strip at 1.
  replace (pre ++ (w1 ++ m ++ w2) ++ post)
    with ((pre ++ w1) ++ m ++ (w2 ++ post))
    by (by rewrite <- !app_assoc).
  destruct (lstrip_keeps (pre ++ w1) m (w2 ++ post) Hne Hclean) as [X' ->].
  destruct (rstrip_keeps X' m (w2 ++ post) Hne Hclean) as [Z' ->].
  by exists X', Z'.
Qed.

Context `{BeautifulSoup}.

Lemma first_container_in cs soup n :
  first_container cs soup = Some n → In n (descendants soup).
Proof.
  induction cs as [|c cs IH]; [done|]. simpl.
  destruct (select c soup) as [|m l] eqn:Hsel; [exact IH|].
  intros [= <-].
  assert (In m (select c soup)) as Hin by (rewrite Hsel; by left).
  by apply filter_In in Hin as [? _].
Qed.

(** The region is the document itself or an element of the document. *)
Lemma select_main_content_in soup :
  select_main_content soup = soup ∨
  In (select_main_content soup) (descendants soup).
Proof.
  unfold select_main_content.
  destruct (first_container containers soup) as [n|] eqn:Hc.
  - right. by eapply first_container_in.
  - unfold find, find_all.
    destruct (List.filter _ (descendants soup)) as [|b l] eqn:Hb; [by left|].
    right. simpl.
    assert (In b (List.filter (named [lit "body"]) (descendants soup)))
      as Hin by (rewrite Hb; by left).
    by apply filter_In in Hin as [? _].
Qed.

Lemma sentinel_clean : clean sentinel.
Proof. split; intros c [= <-]; reflexivity. Qed.

End tree_more.

(** X6. Whatever the input and whatever the parser does with it, the text
    the extractor returns neither starts nor ends with white space. *)
Theorem extract_main_content_clean `{BeautifulSoup} (html : str) :
  clean (extract_main_content html).
Proof.
  unfold extract_main_content, extract_body.
  destruct (html_parser html) as [soup|e]; simpl.
  - apply strip_clean.
  - apply sentinel_clean.
Qed.

(** X7. On a parsed input, the region the text is collected from holds no
    script, style, nav, footer or iframe tag, and neither does any of the
    collected tags: nothing below such a tag reaches the output. *)
Theorem region_without_removed_tags `{BeautifulSoup} (html : str)
    (soup0 : node) :
  html_parser html = Return soup0 →
  let region := select_main_content (decompose_all removed_tags soup0) in
  extract_main_content html = strip (collect_text region) ∧
  find_all removed_tags region = [] ∧
  ∀ p, In p (find_all text_tags region) → find_all removed_tags p = [].
Proof.
  intros Hp region. split; [by apply extract_parsed|].
  assert (∀ d, In d (descendants region) → named removed_tags d = false)
    as Hclear.
  { intros d Hd.
    pose proof (decompose_all_clears removed_tags soup0) as Hall.
    rewrite Forall_forall in Hall. apply Hall, list_elem_of_In.
    destruct (select_main_content_in (decompose_all removed_tags soup0))
      as [Heq|Hin].
    - fold region in Heq. by rewrite <- Heq.
    - fold region in Hin. by eapply descendants_trans. }
  assert (∀ n, (∀ d, In d (descendants n) → named removed_tags d = false) →
               find_all removed_tags n = []) as Hnone.
  { intros n Hn. unfold find_all.
    induction (descendants n) as [|d l IH]; [done|]. simpl.
    rewrite (Hn d) by (by left). apply IH. intros d' Hd'. apply Hn. by right. }
  split; [by apply Hnone|].
  intros p [Hp' _]%filter_In. apply Hnone. intros d Hd.
  apply Hclear. by eapply descendants_trans.
Qed.

Lemma region_without_removed_tags_witness :
  html_parser (BeautifulSoup := sample_soup) plain_html = Return plain_soup ∧
  find_all removed_tags plain_soup ≠ [] ∧
  find_all removed_tags
    (select_main_content (H := sample_soup)
       (decompose_all removed_tags plain_soup)) = [].
Proof.
  split; [reflexivity|]. split; [discriminate|].
  destruct (region_without_removed_tags (H := sample_soup)
              plain_html plain_soup eq_refl) as (_ & Hnone & _).
  exact Hnone.
Defined.

(** X8. A collected tag that lies inside another collected tag (a paragraph
    in a list item) gives its text to the output twice.  On a parsed input,
    when [p] is collected from the region, [q] is collected from [p] and the
    stripped text of [q] is not empty, the text the extractor returns holds
    the entry of [p], which itself holds the stripped text of [q], and
    further on the entry of [q]. *)
Theorem nested_tags_collected_twice `{BeautifulSoup} (html : str)
    (soup0 p q : node) :
  html_parser html = Return soup0 →
  let region := select_main_content (decompose_all removed_tags soup0) in
  In p (find_all text_tags region) →
  In q (find_all text_tags p) →
  strip (get_text q) ≠ [] →
  ∃ a b c pre post,
    extract_main_content html
    = a ++ strip (get_text p) ++ blank_line ++ b ++ strip (get_text q) ++ c ∧
    strip (get_text p) = pre ++ strip (get_text q) ++ post.
Proof.
  intros Hparse region Hp Hq Hne.
  assert (∃ pre post, entry_text p = pre ++ entry_text q ++ post)
    as (pre & post & Hpq).
  { apply entry_text_contains; [|done].
    unfold find_all in Hq. by apply filter_In in Hq as [? _]. }
  assert (entry_text p ≠ []) as Hnep.
  { rewrite Hpq. intros Hnil.
    apply app_eq_nil in Hnil as [_ Hnil]. by apply app_eq_nil in Hnil as [? _]. }
  rewrite (extract_parsed html soup0 Hparse). fold region.
  rewrite collect_text_concat.
  destruct (find_all_split text_tags region p Hp) as (l1 & l2 & ->).
  apply in_split in Hq as (m1 & m2 & ->).
  set (entries l := concat (List.map (λ e, e ++ blank_line)
                              (List.map entry_text l))).
  assert (∀ l k, entries (l ++ k) = entries l ++ entries k) as Happ.
  { intros l k. unfold entries. by rewrite !List.map_app, concat_app. }
  assert (∀ x l, entries (x :: l) = entry_text x ++ blank_line ++ entries l)
    as Hcons.
  { intros x l. unfold entries. cbn [List.map concat].
    by rewrite <- app_assoc. }
  fold (entries (l1 ++ p :: (m1 ++ q :: m2) ++ l2)).
  rewrite Happ, Hcons, !Happ, Hcons.
  unfold strip at 1.
  destruct (lstrip_keeps (entries l1) (entry_text p)
              (blank_line ++ (entries m1 ++
                 entry_text q ++ blank_line ++ entries m2) ++ entries l2)
              Hnep (strip_clean _)) as [a ->].
  replace (a ++ entry_text p ++ blank_line ++
           (entries m1 ++ entry_text q ++ blank_line ++ entries m2) ++
           entries l2)
    with ((a ++ entry_text p ++ blank_line ++ entries m1) ++
          entry_text q ++ (blank_line ++ entries m2 ++ entries l2))
    by (by rewrite <- !app_assoc).
  destruct (rstrip_keeps (a ++ entry_text p ++ blank_line ++ entries m1)
              (entry_text q) (blank_line ++ entries m2 ++ entries l2)
              Hne (strip_clean _)) as [c ->].
  exists a, (entries m1), c, pre, post. split; [|exact Hpq].
  unfold entry_text. by rewrite <- !app_assoc.
Qed.

Lemma nested_tags_collected_twice_witness :
  let p := tag "li" [tag "p" [txt " x "]] in
  let q := tag "p" [txt " x "] in
  html_parser (BeautifulSoup := SampleWorld.nested_parser) (lit "<ul>")
  = Return SampleWorld.nested_page ∧
  In p (find_all text_tags
          (select_main_content (H := SampleWorld.nested_parser)
             (decompose_all removed_tags SampleWorld.nested_page))) ∧
  In q (find_all text_tags p) ∧
  strip (get_text q) = lit "x" ∧
  ∃ a b c,
    extract_main_content (H := SampleWorld.nested_parser) (lit "<ul>")
    = a ++ strip (get_text p) ++ blank_line ++ b ++ strip (get_text q) ++ c.
Proof.
  intros p q.
  assert (In p (find_all text_tags
                  (select_main_content (H := SampleWorld.nested_parser)
                     (decompose_all removed_tags SampleWorld.nested_page))))
    as Hp by (left; reflexivity).
  assert (In q (find_all text_tags p)) as Hq by (left; reflexivity).
  split; [reflexivity|]. split; [exact Hp|]. split; [exact Hq|].
  split; [reflexivity|].
  destruct (nested_tags_collected_twice (H := SampleWorld.nested_parser)
              (lit "<ul>") SampleWorld.nested_page p q eq_refl Hp Hq)
    as (a & b & c & _ & _ & Hout & _); [discriminate|].
  exists a, b, c. exact Hout.
Defined.

(* ===================================================================== *)
(** ** Facts on printing *)
(* ===================================================================== *)

Section print_facts.
Import Effects.
Context `{World}.

Lemma lift_bind {A B} (a : A) (k : A → io B) : lift (Return a) ≫= k = k a.
Proof. cbn. by destruct (k a). Qed.

Lemma printing_app l1 l2 : printing (l1 ++ l2) = printing l1 ++ printing l2.
Proof. unfold printing. apply fmap_app. Qed.

Lemma prints_nil : prints [] (mret tt).
Proof. left. split; [|done]. by intros s Hs%elem_of_nil. Qed.

Lemma prints_one s : prints [s] (print s).
Proof.
  unfold print. destruct (stdout_write s) as [[]|e] eqn:Hs.
  - left. split; [|done]. by intros s' ->%list_elem_of_singleton.
  - right. exists [], s, [], e. repeat split; [|done].
    by intros s' Hs'%elem_of_nil.
Qed.

(** One call after the other prints the texts of the first and then those
    of the second. *)
Lemma prints_app l1 l2 (m1 m2 : io unit) :
  prints l1 m1 → prints l2 m2 → prints (l1 ++ l2) (m1 ≫= λ _, m2).
Proof.
  intros [[Hall1 ->] | (done & s & rest & e & -> & Hdone & Hs & ->)] H2.
  - destruct H2 as [[Hall2 ->] | (done & s & rest & e & -> & Hdone & Hs & ->)].
    + left. split.
      * intros s [Hs|Hs]%elem_of_app; auto.
      * cbn. by rewrite printing_app.
    + right. exists (l1 ++ done), s, rest, e. split; [by rewrite <- app_assoc|].
      split; [intros s' [Hs'|Hs']%elem_of_app; auto|]. split; [done|].
      cbn. by rewrite printing_app.
  - right. exists done, s, (rest ++ l2), e.
    split; [by rewrite <- app_assoc|]. done.
Qed.

Lemma prints_cons s l (m : io unit) :
  prints l m → prints (s :: l) (print s ≫= λ _, m).
Proof. intros Hm. apply (prints_app [s] l); [apply prints_one | done]. Qed.

(** A loop whose body prints a block for each element prints the blocks in
    order. *)
Lemma for_each_prints {A} (f : A → io unit) (l : list A)
    (blocks : list (list str)) :
  Forall2 (λ x block, prints block (f x)) l blocks →
  prints (concat blocks) (for_each f l).
Proof.
  induction 1 as [|x block l blocks Hx _ IH]; cbn [for_each concat].
  - apply prints_nil.
  - by apply prints_app.
Qed.

Lemma prints_trace lines t res :
  prints lines (IO t res) → ∃ l, t = printing l.
Proof.
  intros [[_ [= -> _]] | (done & s & rest & e & _ & _ & _ & [= -> _])]; eauto.
Qed.

(** A call that prints sends no request, and fails only as the stream
    does. *)
Lemma prints_outcome lines (m : io unit) :
  prints lines m →
  ∃ t res, m = IO t res ∧ requests_sent t = [] ∧
           (res = Ret tt ∨ ∃ s e, s ∈ lines ∧ stdout_write s = Raise e ∧
                                  res = Exc e).
Proof.
  assert (∀ l, requests_sent (printing l) = []) as Hnone.
  { induction l as [|s l IH]; [done | exact IH]. }
  intros [[Hall ->] | (done & s & rest & e & -> & Hdone & Hs & ->)].
  - eexists _, _. split; [done|]. split; [apply Hnone | by left].
  - eexists _, _. split; [done|]. split; [apply Hnone|]. right.
    exists s, e. split; [|done]. apply elem_of_app. right. apply list_elem_of_here.
Qed.

End print_facts.

(* ===================================================================== *)
(** ** web_scraper.py: the report of main *)
(* ===================================================================== *)

Section cli_facts.
Import Effects ScraperCli.
Context `{BeautifulSoup} `{World}.

Lemma print_result_failed (r : record) (url msg : str) :
  r !! "url" = Some (VStr url) →
  r !! "success" = Some (VBool false) →
  r !! "error" = Some (VStr msg) →
  prints [lit "URL: " ++ url; lit "Status: Failed"; lit "Error: " ++ msg; []]
    (print_result r).
Proof.
  intros Hu Hs He. unfold print_result, getitem. rewrite Hu, Hs, He.
  rewrite !lift_bind. cbn [truthy negb default format].
  do 3 apply prints_cons. apply prints_one.
Qed.

Lemma print_result_ok (r : record) (url text : str) :
  r !! "url" = Some (VStr url) →
  r !! "success" = Some (VBool true) →
  r !! "extracted_content" = Some (VStr text) →
  prints [lit "URL: " ++ url; lit "Status: Success"; LF :: lit "Content:";
          rule; text; rule; [LF]]
    (print_result r).
Proof.
  intros Hu Hs Hx. unfold print_result, getitem. rewrite Hu, Hs, Hx.
  rewrite !lift_bind. cbn [truthy negb default format].
  do 6 apply prints_cons. apply prints_one.
Qed.

Lemma print_final_record answer url :
  prints (report_lines answer url) (print_result (final_record answer url)).
Proof.
  unfold report_lines.
  destruct answer as [[st body]|e].
  - destruct (negb (st =? 200)) eqn:Hst.
    + assert (st ≠ 200) as Hne by (intros ->; discriminate Hst).
      destruct (fields_inv _ _ _ _ _ _ _ (final_record_not_ok st body url Hne))
        as (Hu & Hs & _ & He & _).
      by apply print_result_failed.
    + apply negb_false_iff, Z.eqb_eq in Hst as ->.
      destruct body as [html|e].
      * destruct (fields_inv _ _ _ _ _ _ _ (final_record_ok html url))
          as (Hu & Hs & _ & _ & _ & Hx).
        by apply print_result_ok.
      * destruct (fields_inv _ _ _ _ _ _ _ (final_record_body_fault e url))
          as (Hu & Hs & _ & He & _).
        by apply print_result_failed.
  - destruct (fields_inv _ _ _ _ _ _ _ (final_record_fault e url))
      as (Hu & Hs & _ & He & _).
    by apply print_result_failed.
Qed.

Lemma for_each_reports (net : network) (urls : list str) (k : nat) :
  Forall2 (λ r block, prints block (print_result r))
    (imap (λ i url, final_record (net (k + i)%nat url) url) urls)
    (imap (λ i url, report_lines (net (k + i)%nat url) url) urls).
Proof.
  revert k. induction urls as [|url urls IH]; intros k; [constructor|].
  cbn [imap]. constructor; [apply print_final_record|].
  specialize (IH (S k)).
  erewrite (imap_ext _ (λ i url, final_record (net (S k + i)%nat url) url)),
    (imap_ext (_ ∘ S) (λ i url, report_lines (net (S k + i)%nat url) url));
    [exact IH | |];
    intros i x _; simpl; by rewrite Nat.add_succ_r.
Qed.

End cli_facts.

(** X9. The report of [main].  Once every fetch has completed, [main]
    prints, for each URL in the order given, the block of that URL: the URL,
    the line Status: Failed, the error message of its record and an empty
    line, or the line Status: Success and the extracted text between two
    rules of 80 dashes.  It ends normally when the standard output takes
    every text, and otherwise with the exception of the first text refused;
    no key is ever missing, and the two defaults of the report (Unknown
    error, the empty text) are never used. *)
Theorem main_report `{BeautifulSoup} `{Effects.World} (net : network)
    (order : list nat) (urls : list str) (max_concurrent : Z) :
  all_complete (length urls) order →
  ∃ m,
    ScraperCli.main net order urls max_concurrent = Some m ∧
    Effects.prints
      (concat (imap (λ i url, ScraperCli.report_lines (net i url) url) urls))
      m.
Proof.
  intros Hall. unfold ScraperCli.main.
  rewrite (scrape_urls_returns net order urls max_concurrent Hall).
  eexists. split; [reflexivity|].
  rewrite lift_bind. apply for_each_prints.
  exact (for_each_reports net urls 0).
Qed.

Lemma main_report_witness :
  all_complete (length sample_urls) sample_order ∧
  ∃ m,
    ScraperCli.main (H := sample_soup) (H0 := SampleWorld.sample_world)
      sample_net sample_order sample_urls 5 = Some m ∧
    Effects.prints (H := SampleWorld.sample_world)
      (concat (imap (λ i url,
                       ScraperCli.report_lines (H := sample_soup)
                         (sample_net i url) url) sample_urls))
      m.
Proof.
  assert (all_complete (length sample_urls) sample_order) as Hall
    by sample_complete.
  split; [exact Hall|].
  exact (main_report (H := sample_soup) (H0 := SampleWorld.sample_world)
           sample_net sample_order sample_urls 5 Hall).
Defined.

(** The report of a request that timed out, as written, and how the sample
    run ends on a UTF-8 stream. *)
Example report_timeout :
  ScraperCli.report_lines (H := sample_soup) (sample_net 2%nat url_c) url_c
  = [lit "URL: http://c.example/"; lit "Status: Failed"; lit "Error: "; []].
Proof. reflexivity. Qed.

Example main_sample_returns :
  Effects.outcome_of
    <$> ScraperCli.main (H := sample_soup) (H0 := SampleWorld.sample_world)
          sample_net sample_order sample_urls 5
  = Some (Effects.Ret tt).
Proof. reflexivity. Qed.

(* ===================================================================== *)
(** ** Facts on calls *)
(* ===================================================================== *)

Section io_facts.
Import Effects.

Lemma pure_lift {A} (x : exc A) : pure_io (lift x).
Proof. by exists x. Qed.

Lemma pure_ret {A} (a : A) : pure_io (mret a).
Proof. by exists (Return a). Qed.

Lemma pure_bind {A B} (m : io A) (f : A → io B) :
  pure_io m → (∀ a, pure_io (f a)) → pure_io (m ≫= f).
Proof.
  intros [[a|e] ->] Hf.
  - destruct (Hf a) as [y Hy]. exists y. cbn. by rewrite Hy; destruct y.
  - by exists (Raise e).
Qed.

Lemma pure_raise_for_status `{World} r : pure_io (raise_for_status r).
Proof.
  unfold raise_for_status.
  destruct (_ && _); [by exists (Raise (http_error r)) | apply pure_ret].
Qed.

(** A call that sends one GET, goes on without touching the outside, and
    turns every exception into a value: it sends exactly that request and
    returns. *)
Lemma try_get_returns `{World} {A} (r : request)
    (k : http_response → io A) (h : exn → A) :
  (∀ resp, pure_io (k resp)) →
  ∃ v, try_io (http_get r ≫= k) (λ e, mret (h e)) = IO [EvGet r] (Ret v) ∧
       ((∃ resp, requests_get r = Return resp ∧ k resp = lift (Return v)) ∨
        (∃ e, v = h e)).
Proof.
  intros Hk. unfold http_get. cbn.
  destruct (requests_get r) as [resp|e]; cbn.
  - destruct (Hk resp) as [[v|e] Hv]; rewrite Hv; cbn.
    + exists v. split; [done|]. left. eauto.
    + exists (h e). split; [done|]. right. eauto.
  - exists (h e). split; [done|]. right. eauto.
Qed.

End io_facts.

(* ===================================================================== *)
(** ** search_engine.py *)
(* ===================================================================== *)

Section search_facts.
Import Json Effects Search.
Context `{World} `{SearchEnv} `{BeautifulSoup}.

Lemma nonempty_false (s : str) : nonempty s = false ↔ s = [].
Proof. by destruct s. Qed.

Lemma pure_api_results key n resp : pure_io (api_results key n resp).
Proof.
  unfold api_results.
  repeat (apply pure_bind; [|intros ?]);
    try apply pure_lift; apply pure_raise_for_status.
Qed.

Lemma pure_ddg_results n resp : pure_io (ddg_results n resp).
Proof.
  unfold ddg_results.
  repeat (apply pure_bind; [|intros ?]);
    try apply pure_lift; try apply pure_ret; apply pure_raise_for_status.
Qed.

Lemma search_serpapi_unfold query n :
  nonempty SERPAPI_KEY = true →
  search_serpapi query n =
  try_io (http_get (serpapi_request query n) ≫= api_results "organic_results" n)
         (λ e, mret (search_failed e)).
Proof. intros Hk. unfold search_serpapi. by rewrite Hk. Qed.

Lemma search_google_unfold query n :
  nonempty GOOGLE_API_KEY = true → nonempty GOOGLE_CX = true →
  search_google_custom_search query n =
  try_io (http_get (google_request query n) ≫= api_results "items" n)
         (λ e, mret (search_failed e)).
Proof. intros Hk Hc. unfold search_google_custom_search. by rewrite Hk, Hc. Qed.

Lemma search_ddg_unfold query n :
  search_duckduckgo_lite query n =
  match quote_plus query with
  | Return encoded_query =>
      try_io (http_get (ddg_request encoded_query) ≫= ddg_results n)
             (λ e, mret (search_failed e))
  | Raise e => IO [] (Ret (search_failed e))
  end.
Proof.
  unfold search_duckduckgo_lite.
  destruct (quote_plus query) as [encoded_query|e]; [|reflexivity].
  by rewrite lift_bind.
Qed.

End search_facts.

Section search_theorems.
Import Json Effects Search.

(** X10. A search with an engine named explicitly and no credentials for
    it sends no request: it returns at once the one-element list that names
    the missing credentials. *)
Theorem search_without_credentials `{World} `{SearchEnv} `{BeautifulSoup}
    (query : str) (num_results : Z) :
  (SERPAPI_KEY = [] →
   perform_search query num_results (lit "serpapi")
   = IO [] (Ret (error_result
                   (lit "SERPAPI_KEY environment variable not set")))) ∧
  (GOOGLE_API_KEY = [] ∨ GOOGLE_CX = [] →
   perform_search query num_results (lit "google")
   = IO [] (Ret (error_result
                   (lit "Google Search API credentials not set")))).
Proof.
  split.
  - intros Hk. unfold perform_search, search_serpapi. by rewrite Hk.
  - intros Hk. unfold perform_search, search_google_custom_search.
    cbn [str_eqb]. destruct Hk as [-> | ->]; [done|].
    by rewrite orb_true_r.
Qed.

Lemma search_without_credentials_witness :
  SERPAPI_KEY (SearchEnv := SampleWorld.no_keys) = [] ∧
  perform_search (H := SampleWorld.sample_world) (H0 := SampleWorld.no_keys)
    (H1 := SampleWorld.ddg_parser) (lit "rocq prover") 5 (lit "serpapi")
  = IO [] (Ret (error_result
                  (lit "SERPAPI_KEY environment variable not set"))).
Proof.
  split; [reflexivity|].
  apply (search_without_credentials (H := SampleWorld.sample_world)
           (H0 := SampleWorld.no_keys) (H1 := SampleWorld.ddg_parser)).
  reflexivity.
Defined.

(** X11. With the engine auto the search goes to SerpAPI when its key is
    set, else to Google when both its key and its engine id are set, else to
    DuckDuckGo.  [requests.get] is called exactly once, with the request of
    that engine, and the call returns; except that, when DuckDuckGo is the
    engine and the query cannot be encoded for the URL, [requests.get] is not
    called and the result is the one error entry with the text of the
    exception. *)
Theorem perform_search_auto `{World} `{SearchEnv} `{BeautifulSoup}
    (query : str) (num_results : Z) :
  ∃ t v,
    perform_search query num_results (lit "auto") = IO t (Ret v) ∧
    if nonempty SERPAPI_KEY
    then t = [EvGet (serpapi_request query num_results)]
    else if nonempty GOOGLE_API_KEY && nonempty GOOGLE_CX
    then t = [EvGet (google_request query num_results)]
    else match quote_plus query with
         | Return encoded_query => t = [EvGet (ddg_request encoded_query)]
         | Raise e =>
             t = [] ∧ v = error_result (lit "Search failed: " ++ exn_str e)
         end.
Proof.
  assert (∃ t v,
            search_duckduckgo_lite query num_results = IO t (Ret v) ∧
            match quote_plus query with
            | Return encoded_query => t = [EvGet (ddg_request encoded_query)]
            | Raise e =>
                t = [] ∧ v = error_result (lit "Search failed: " ++ exn_str e)
            end) as Hddg.
  { rewrite search_ddg_unfold.
    destruct (quote_plus query) as [encoded_query|e]; [|by eexists _, _].
    destruct (try_get_returns (ddg_request encoded_query)
                (ddg_results num_results) search_failed)
      as (v & -> & _); [apply pure_ddg_results|]. eauto. }
  unfold perform_search. cbn [str_eqb].
  destruct (nonempty SERPAPI_KEY) eqn:Hs.
  - change (∃ t v, search_serpapi query num_results = IO t (Ret v) ∧
                   t = [EvGet (serpapi_request query num_results)]).
    rewrite search_serpapi_unfold by done.
    destruct (try_get_returns (serpapi_request query num_results)
                (api_results "organic_results" num_results) search_failed)
      as (v & -> & _); [apply pure_api_results|]. eauto.
  - destruct (nonempty GOOGLE_API_KEY) eqn:Hg;
      [destruct (nonempty GOOGLE_CX) eqn:Hc|]; cbn [andb].
    + change (∃ t v, search_google_custom_search query num_results
                     = IO t (Ret v) ∧
                     t = [EvGet (google_request query num_results)]).
      rewrite search_google_unfold by done.
      destruct (try_get_returns (google_request query num_results)
                  (api_results "items" num_results) search_failed)
        as (v & -> & _); [apply pure_api_results|]. eauto.
    + exact Hddg.
    + exact Hddg.
Qed.

(** X12. An engine name other than auto, serpapi, google and ddg sends no
    request and returns the one-element list that names it as unknown. *)
Theorem perform_search_unknown_engine `{World} `{SearchEnv} `{BeautifulSoup}
    (query : str) (num_results : Z) (engine : str) :
  engine ∉ [lit "auto"; lit "serpapi"; lit "google"; lit "ddg"] →
  perform_search query num_results engine
  = IO [] (Ret (error_result (lit "Unknown search engine: " ++ engine))).
Proof.
  intros Hne. unfold perform_search, str_eqb. cbn zeta.
  assert (∀ name, name ∈ [lit "auto"; lit "serpapi"; lit "google"; lit "ddg"] →
                  bool_decide (engine = name) = false) as Hno.
  { intros name Hin. apply bool_decide_eq_false_2. by intros ->. }
  rewrite (Hno (lit "auto")) by set_solver.
  rewrite (Hno (lit "serpapi")) by set_solver.
  rewrite (Hno (lit "google")) by set_solver.
  rewrite (Hno (lit "ddg")) by set_solver.
  done.
Qed.

Lemma perform_search_unknown_engine_witness :
(lit "bing" ∉ [lit "auto"; lit "serpapi"; lit "google"; lit "ddg"]) ∧
  perform_search (H := SampleWorld.sample_world)
    (H0 := SampleWorld.serpapi_key) (H1 := SampleWorld.ddg_parser)
    (lit "rocq prover") 5 (lit "bing")
  = IO [] (Ret (error_result (lit "Unknown search engine: bing"))).
Proof.
  assert (lit "bing" ∉ [lit "auto"; lit "serpapi"; lit "google"; lit "ddg"])
    as Hne.
  { intros Hin. repeat (apply elem_of_cons in Hin as [Hin|Hin];
                        [discriminate Hin|]).
    by apply elem_of_nil in Hin. }
  split; [exact Hne|].
  apply (perform_search_unknown_engine (H := SampleWorld.sample_world)
           (H0 := SampleWorld.serpapi_key) (H1 := SampleWorld.ddg_parser)
           (lit "rocq prover") 5 (lit "bing") Hne).
Defined.

End search_theorems.

Section search_shape_facts.
Import Json Effects Search.

Lemma shape_result_dict (item : dict) :
  shape_result (JDict item) = Return (hit_of item).
Proof. reflexivity. Qed.

Lemma shape_result_hit (x : json) d : shape_result x = Return d → is_hit d.
Proof.
  destruct x; try discriminate. rewrite shape_result_dict.
  intros [= <-]. reflexivity.
Qed.

Lemma mapM_shape_hits (l : list json) v :
  mapM shape_result l = Return v → Forall is_hit v.
Proof.
  revert v. induction l as [|x l IH]; intros v.
  - intros [= <-]. constructor.
  - change (mapM shape_result (x :: l))
      with (y ← shape_result x; k ← mapM shape_result l; mret (y :: k)).
    destruct (shape_result x) as [d|e] eqn:Hx; [|discriminate].
    destruct (mapM shape_result l) as [k|e] eqn:Hl; [|discriminate].
    intros [= <-]. constructor; [by eapply shape_result_hit | by apply IH].
Qed.

Lemma mapM_shape_dicts (items : list dict) :
  mapM shape_result (JDict <$> items) = Return (hit_of <$> items).
Proof.
  induction items as [|d l IH]; [done|].
  change (mapM shape_result (JDict <$> d :: l))
    with (y ← shape_result (JDict d);
          k ← mapM shape_result (JDict <$> l); mret (y :: k)).
  by rewrite shape_result_dict, IH.
Qed.

Lemma slice_to_fmap {A B} (f : A → B) (l : list A) (n : Z) :
  slice_to (f <$> l) n = f <$> slice_to l n.
Proof.
  unfold slice_to. rewrite length_fmap.
  destruct (0 <=? n); by rewrite fmap_take.
Qed.

(** The length of [l[:n]]. *)
Lemma length_slice_to {A} (l : list A) (n : Z) :
  (0 ≤ n → length (slice_to l n) = Nat.min (Z.to_nat n) (length l)) ∧
  (n < 0 → length (slice_to l n) = (length l - Z.to_nat (- n))%nat).
Proof.
  unfold slice_to. split; intros Hn.
  - rewrite (proj2 (Z.leb_le 0 n)) by done. apply length_take.
  - rewrite (proj2 (Z.leb_gt 0 n)) by done. rewrite length_take. lia.
Qed.

Lemma slice_to_all {A} (l : list A) (n : Z) :
  (length l ≤ Z.to_nat n)%nat → slice_to l n = l.
Proof.
  intros Hl. unfold slice_to. destruct (Z.leb_spec 0 n).
  - by apply take_ge.
  - assert (l = []) as -> by (apply length_zero_iff_nil; lia). done.
Qed.

Context `{World} `{SearchEnv} `{BeautifulSoup}.

Lemma api_results_hits key n resp v :
  api_results key n resp = lift (Return v) → Forall is_hit v.
Proof.
  unfold api_results, raise_for_status, shape_results.
  destruct (_ && _); [discriminate|]. cbn.
  destruct (body_json resp) as [data|e]; [|discriminate]. cbn.
  destruct (py_get data key (JList [])) as [items|e]; [|discriminate]. cbn.
  destruct (slice_items dict_slice_error items n) as [l|e]; [|discriminate].
  cbn. destruct (mapM shape_result l) as [k|e] eqn:Hl; [|discriminate].
  intros [= <-]. by eapply mapM_shape_hits.
Qed.

End search_shape_facts.

Section ddg_facts.
Import Json Effects Search.

Lemma set_snippet_hit (d : dict) (v : json) :
  is_hit d → is_hit (<[lit "snippet" := v]> d).
Proof.
  unfold is_hit. intros Hd. rewrite dom_insert_L, Hd. set_solver.
Qed.

Lemma ddg_row_hits results i tr :
  Forall is_hit results → Forall is_hit (ddg_row results i tr).
Proof.
  intros Hres. unfold ddg_row. destruct (Nat.even i).
  - destruct (find (lit "a") tr) as [a|]; [|done].
    apply Forall_app. split; [done|]. constructor; [reflexivity | constructor].
  - destruct results as [|d l]; [done|].
    apply Forall_alter; [done|]. intros d' _ Hd'.
    by apply set_snippet_hit.
Qed.

Lemma ddg_row_length results i tr :
  (length (ddg_row results i tr)
   ≤ length results + (if Nat.even i then 1 else 0))%nat.
Proof.
  unfold ddg_row. destruct (Nat.even i).
  - destruct (find (lit "a") tr); [rewrite length_app; simpl; lia | lia].
  - destruct results as [|d l]; [simpl; lia|]. rewrite length_alter. lia.
Qed.

Lemma ddg_loop_hits n i rows results :
  Forall is_hit results → Forall is_hit (ddg_loop n i rows results).
Proof.
  revert i results. induction rows as [|tr rows IH]; intros i results Hres.
  - done.
  - simpl. destruct (n * 2 <=? Z.of_nat i); [done|].
    by apply IH, ddg_row_hits.
Qed.

(** At most one result for two rows read, and no row of index [2 * n] or
    more is read. *)
Lemma ddg_loop_length n i rows results :
  Z.of_nat i ≤ Z.max 0 (2 * n) →
  Z.of_nat (length results) ≤ (Z.of_nat i + 1) / 2 →
  Z.of_nat (length (ddg_loop n i rows results)) ≤ Z.max 0 n.
Proof.
  revert i results. induction rows as [|tr rows IH]; intros i results Hi Hlen.
  - simpl. revert Hlen. Z.div_mod_to_equations. lia.
  - simpl. destruct (Z.leb_spec (n * 2) (Z.of_nat i)) as [Hbreak|Hgo].
    + revert Hlen. Z.div_mod_to_equations. lia.
    + apply IH; [lia|].
      pose proof (ddg_row_length results i tr) as Hrow.
      destruct (Nat.even i) eqn:Hev.
      * apply Nat.even_spec in Hev as [k ->].
        revert Hlen. Z.div_mod_to_equations. lia.
      * assert (Nat.odd i = true) as Hodd
          by (by rewrite <- Nat.negb_even, Hev).
        apply Nat.odd_spec in Hodd as [k ->].
        revert Hlen. Z.div_mod_to_equations. lia.
Qed.

(** On rows that alternate, a link row then its snippet row, the loop
    pairs each link with the snippet that follows it. *)
Lemma ddg_loop_pairs (n : Z) (pairs : list (node * node * node))
    (j : nat) (results : list dict) :
  Forall (λ p, find (lit "a") p.1.1 = Some p.1.2) pairs →
  ddg_loop n (2 * j) (flat_map (λ p, [p.1.1; p.2]) pairs) results
  = results ++ ((λ p, row_hit p.1.2 p.2) <$> take (Z.to_nat n - j) pairs).
Proof.
  revert j results.
  induction pairs as [|[[l a] s] pairs IH]; intros j results Hfind.
  - by rewrite take_nil, app_nil_r.
  - apply Forall_cons_1 in Hfind as [Ha Hfind]. simpl in Ha.
    cbn [flat_map app]. cbn [ddg_loop].
    destruct (Z.leb_spec (n * 2) (Z.of_nat (2 * j))) as [Hbreak|Hgo].
    + replace (Z.to_nat n - j)%nat with 0%nat by lia.
      by rewrite app_nil_r.
    + destruct (Z.leb_spec (n * 2) (Z.of_nat (S (2 * j)))) as [?|_]; [lia|].
      replace (S (S (2 * j))) with (2 * S j)%nat by lia.
      rewrite IH by done.
      assert (Nat.even (2 * j) = true) as Hev
        by (apply Nat.even_spec; by exists j).
      assert (Nat.even (S (2 * j)) = false) as Hod
        by (rewrite Nat.even_succ, <- Nat.negb_even, Hev; done).
      unfold ddg_row at 2. rewrite Hev. cbn [fst snd]. rewrite Ha.
      unfold ddg_row. rewrite Hod.
      destruct (results ++ _) as [|d0 l0] eqn:Hres;
        [by destruct results|].
      rewrite <- Hres. rewrite length_app. cbn [length].
      replace (length results + 1 - 1)%nat with (length results + 0)%nat
        by lia.
      rewrite alter_app_r. cbn [alter list_alter].
      replace (Z.to_nat n - j)%nat with (S (Z.to_nat n - S j)) by lia.
      cbn [take fmap list_fmap]. rewrite <- app_assoc. reflexivity.
Qed.

End ddg_facts.

Section search_results.
Import Json Effects Search.

Lemma perform_search_cases `{World} `{SearchEnv} `{BeautifulSoup}
    (query : str) (n : Z) (engine : str) :
  perform_search query n engine = search_serpapi query n ∨
  perform_search query n engine = search_google_custom_search query n ∨
  perform_search query n engine = search_duckduckgo_lite query n ∨
  perform_search query n engine
  = IO [] (Ret (error_result (lit "Unknown search engine: " ++ engine))).
Proof.
  unfold perform_search. cbn zeta.
  destruct (str_eqb engine (lit "auto")).
  - destruct (nonempty SERPAPI_KEY); [by left|].
    destruct (nonempty GOOGLE_API_KEY && nonempty GOOGLE_CX);
      [right; by left | right; right; by left].
  - destruct (str_eqb engine (lit "serpapi")); [by left|].
    destruct (str_eqb engine (lit "google")); [right; by left|].
    destruct (str_eqb engine (lit "ddg")); [right; right; by left|].
    by repeat right.
Qed.

Lemma ddg_results_hits `{World} `{BeautifulSoup} n resp v :
  ddg_results n resp = lift (Return v) → Forall is_hit v.
Proof.
  unfold ddg_results, raise_for_status.
  destruct (_ && _); [discriminate|]. cbn.
  destruct (html_parser (body_text resp)) as [soup|e]; [|discriminate]. cbn.
  intros [= <-]. unfold slice_to.
  destruct (0 <=? n); apply Forall_take, ddg_loop_hits; constructor.
Qed.

(** No exception leaves a search, which sends at most one request; the
    result is one error entry or a list of hits. *)
Lemma perform_search_shape `{World} `{SearchEnv} `{BeautifulSoup}
    (query : str) (num_results : Z) (engine : str) :
  ∃ t v,
    perform_search query num_results engine = IO t (Ret v) ∧
    (t = [] ∨ ∃ r, t = [EvGet r]) ∧
    (is_error_result v ∨ Forall is_hit v).
Proof.
  assert (∀ (r : request) (k : http_response → io (list dict)),
            (∀ resp, pure_io (k resp)) →
            (∀ resp v, k resp = lift (Return v) → Forall is_hit v) →
            ∃ t v,
              try_io (http_get r ≫= k) (λ e, mret (search_failed e))
              = IO t (Ret v) ∧
              (t = [] ∨ ∃ r, t = [EvGet r]) ∧
              (is_error_result v ∨ Forall is_hit v)) as Htry.
  { intros r k Hpure Hhits.
    destruct (try_get_returns r k search_failed Hpure)
      as (v & -> & [(resp & _ & Hk) | (e & ->)]).
    - exists [EvGet r], v. split; [done|]. split; [eauto|]. right. eauto.
    - exists [EvGet r], (search_failed e). split; [done|]. split; [eauto|].
      left. by eexists. }
  destruct (perform_search_cases query num_results engine)
    as [-> | [-> | [-> | ->]]].
  - destruct (nonempty SERPAPI_KEY) eqn:Hk.
    + rewrite search_serpapi_unfold by done.
      apply Htry; [apply pure_api_results | apply api_results_hits].
    + unfold search_serpapi. rewrite Hk.
      eexists _, _. split; [done|]. split; [by left|]. left. by eexists.
  - destruct (nonempty GOOGLE_API_KEY) eqn:Hk;
      [destruct (nonempty GOOGLE_CX) eqn:Hc|].
    + rewrite search_google_unfold by done.
      apply Htry; [apply pure_api_results | apply api_results_hits].
    + unfold search_google_custom_search. rewrite Hk, Hc.
      eexists _, _. split; [done|]. split; [by left|]. left. by eexists.
    + unfold search_google_custom_search. rewrite Hk.
      eexists _, _. split; [done|]. split; [by left|]. left. by eexists.
  - rewrite search_ddg_unfold.
    destruct (quote_plus query) as [encoded_query|e].
    + apply Htry; [apply pure_ddg_results | apply ddg_results_hits].
    + eexists _, _. split; [done|]. split; [by left|]. left. by eexists.
  - eexists _, _. split; [done|]. split; [by left|]. left. by eexists.
Qed.

(** X13. Every search returns: no exception leaves [perform_search].  It
    sends at most one request, and its result is either the one-element list
    with the single key error, or a list of results that each have exactly
    the keys title, url and snippet. *)
Theorem perform_search_result_shape `{World} `{SearchEnv} `{BeautifulSoup}
    (query : str) (num_results : Z) (engine : str) :
  ∃ t v,
    perform_search query num_results engine = IO t (Ret v) ∧
    (t = [] ∨ ∃ r, t = [EvGet r]) ∧
    (is_error_result v ∨ Forall is_hit v).
Proof. apply perform_search_shape. Qed.

End search_results.

Section search_well_formed.
Import Json Effects Search.

Lemma api_results_dicts `{World} (key : string) (n : Z) (resp : http_response)
    (data : dict) (items : list dict) :
  (status_code resp < 400 ∨ 600 ≤ status_code resp) →
  body_json resp = Return (JDict data) →
  default (JList []) (data !! lit key) = JList (JDict <$> items) →
  api_results key n resp = lift (Return (hit_of <$> slice_to items n)).
Proof.
  intros Hst Hjson Hitems. unfold api_results, raise_for_status.
  assert ((400 <=? status_code resp) && (status_code resp <? 600) = false)
    as -> by (apply andb_false_iff; lia).
  cbn. rewrite Hjson. cbn. rewrite Hitems. unfold shape_results. cbn.
  by rewrite slice_to_fmap, mapM_shape_dicts.
Qed.

(** X14. A SerpAPI search whose answer is well formed (no error status, a
    JSON object whose organic_results, when present, is a list of objects)
    sends one GET and returns one result per item of [items[:num_results]],
    with the empty string for a missing title, link or snippet.  For a
    count that is not negative these are the first [num_results] items at
    most; a negative count drops that many items from the end instead. *)
Theorem search_serpapi_results `{World} `{SearchEnv} `{BeautifulSoup}
    (query : str) (num_results : Z) (resp : http_response) (data : dict)
    (items : list dict) :
  nonempty SERPAPI_KEY = true →
  requests_get (serpapi_request query num_results) = Return resp →
  (status_code resp < 400 ∨ 600 ≤ status_code resp) →
  body_json resp = Return (JDict data) →
  default (JList []) (data !! lit "organic_results") = JList (JDict <$> items) →
  search_serpapi query num_results
  = IO [EvGet (serpapi_request query num_results)]
       (Ret (hit_of <$> slice_to items num_results)) ∧
  (0 ≤ num_results →
   length (slice_to items num_results)
   = Nat.min (Z.to_nat num_results) (length items)) ∧
  (num_results < 0 →
   length (slice_to items num_results)
   = (length items - Z.to_nat (- num_results))%nat).
Proof.
  intros Hk Hget Hst Hjson Hitems.
  split; [|apply length_slice_to].
  rewrite search_serpapi_unfold by done.
  unfold http_get. cbn. rewrite Hget. cbn.
  by rewrite (api_results_dicts _ _ _ data items Hst Hjson Hitems).
Qed.

Lemma search_serpapi_results_witness :
  nonempty (SERPAPI_KEY (SearchEnv := SampleWorld.serpapi_key)) = true ∧
  search_serpapi (H := SampleWorld.sample_world)
    (H0 := SampleWorld.serpapi_key) (lit "rocq") 2
  = IO [EvGet (serpapi_request (H0 := SampleWorld.serpapi_key) (lit "rocq") 2)]
       (Ret [hit_of (SampleWorld.item "Rocq" "https://rocq-prover.org"
                       "A proof assistant");
             hit_of (SampleWorld.item "stdpp"
                       "https://gitlab.mpi-sws.org/iris/stdpp" "A library")]).
Proof.
  split; [reflexivity|].
  destruct (search_serpapi_results (H := SampleWorld.sample_world)
              (H0 := SampleWorld.serpapi_key) (H1 := SampleWorld.ddg_parser)
              (lit "rocq") 2 SampleWorld.api_response SampleWorld.api_data
              SampleWorld.api_dicts) as (Hres & _).
  - reflexivity.
  - reflexivity.
  - left. reflexivity.
  - reflexivity.
  - reflexivity.
  - exact Hres.
Defined.

(** The same search asked for minus one result: all items but the last. *)
Example search_serpapi_negative :
  search_serpapi (H := SampleWorld.sample_world)
    (H0 := SampleWorld.serpapi_key) (lit "rocq") (-1)
  = IO [EvGet (serpapi_request (H0 := SampleWorld.serpapi_key) (lit "rocq") (-1))]
       (Ret (hit_of <$> take 2 SampleWorld.api_dicts)).
Proof. reflexivity. Qed.

(** X15. A Google search asks the API for [min(num_results, 10)] results
    but keeps whatever [items[:num_results]] holds: with a well-formed answer
    it returns one result per item of that slice, so more than ten when the
    answer has them and more were asked for. *)
Theorem search_google_results `{World} `{SearchEnv} `{BeautifulSoup}
    (query : str) (num_results : Z) (resp : http_response) (data : dict)
    (items : list dict) :
  nonempty GOOGLE_API_KEY = true →
  nonempty GOOGLE_CX = true →
  requests_get (google_request query num_results) = Return resp →
  (status_code resp < 400 ∨ 600 ≤ status_code resp) →
  body_json resp = Return (JDict data) →
  default (JList []) (data !! lit "items") = JList (JDict <$> items) →
  req_params (google_request query num_results) !! lit "num"
  = Some (JInt (Z.min num_results 10)) ∧
  search_google_custom_search query num_results
  = IO [EvGet (google_request query num_results)]
       (Ret (hit_of <$> slice_to items num_results)).
Proof.
  intros Hk Hc Hget Hst Hjson Hitems. split; [reflexivity|].
  rewrite search_google_unfold by done.
  unfold http_get. cbn. rewrite Hget. cbn.
  by rewrite (api_results_dicts _ _ _ data items Hst Hjson Hitems).
Qed.

Lemma search_google_results_witness :
  nonempty (GOOGLE_API_KEY (SearchEnv := SampleWorld.google_keys)) = true ∧
  nonempty (GOOGLE_CX (SearchEnv := SampleWorld.google_keys)) = true ∧
  req_params (google_request (H0 := SampleWorld.google_keys) (lit "rocq") 12)
    !! lit "num" = Some (JInt 10) ∧
  search_google_custom_search (H := SampleWorld.sample_world)
    (H0 := SampleWorld.google_keys) (lit "rocq") 12
  = IO [EvGet (google_request (H0 := SampleWorld.google_keys) (lit "rocq") 12)]
       (Ret (hit_of <$> SampleWorld.api_dicts)).
Proof.
  split; [reflexivity|]. split; [reflexivity|].
  destruct (search_google_results (H := SampleWorld.sample_world)
              (H0 := SampleWorld.google_keys) (H1 := SampleWorld.ddg_parser)
              (lit "rocq") 12 SampleWorld.api_response SampleWorld.api_data
              SampleWorld.api_dicts) as (Hnum & Hres).
  - reflexivity.
  - reflexivity.
  - reflexivity.
  - left. reflexivity.
  - reflexivity.
  - reflexivity.
  - split; [exact Hnum | exact Hres].
Defined.

Lemma search_ddg_ok `{World} `{BeautifulSoup}
    (query encoded_query : str) (num_results : Z) (resp : http_response)
    (soup : node) :
  quote_plus query = Return encoded_query →
  requests_get (ddg_request encoded_query) = Return resp →
  (status_code resp < 400 ∨ 600 ≤ status_code resp) →
  html_parser (body_text resp) = Return soup →
  search_duckduckgo_lite query num_results
  = IO [EvGet (ddg_request encoded_query)]
       (Ret (ddg_loop num_results 0 (result_rows soup) [])).
Proof.
  intros Hquote Hget Hst Hparse.
  assert (Z.of_nat (length (ddg_loop num_results 0 (result_rows soup) []))
          ≤ Z.max 0 num_results) as Hlen.
  { apply ddg_loop_length; [lia | done]. }
  rewrite search_ddg_unfold, Hquote. unfold http_get. cbn. rewrite Hget. cbn.
  unfold ddg_results, raise_for_status.
  assert ((400 <=? status_code resp) && (status_code resp <? 600) = false)
    as -> by (apply andb_false_iff; lia).
  cbn. rewrite Hparse. cbn.
  rewrite slice_to_all by lia. done.
Qed.

(** X16. A DuckDuckGo search whose query is encoded and whose page is
    fetched and parsed returns what its loop over the result rows built: the
    final [results[:num_results]] never drops anything, because the loop
    reads no row of index [2 * num_results] or more and adds at most one
    result per two rows.  So it returns at most [num_results] results, none
    when the count is zero or negative, and each has exactly the keys title,
    url and snippet. *)
Theorem search_duckduckgo_lite_bound `{World} `{SearchEnv} `{BeautifulSoup}
    (query encoded_query : str) (num_results : Z) (resp : http_response)
    (soup : node) :
  quote_plus query = Return encoded_query →
  requests_get (ddg_request encoded_query) = Return resp →
  (status_code resp < 400 ∨ 600 ≤ status_code resp) →
  html_parser (body_text resp) = Return soup →
  let results := ddg_loop num_results 0 (result_rows soup) [] in
  search_duckduckgo_lite query num_results
  = IO [EvGet (ddg_request encoded_query)] (Ret results) ∧
  Z.of_nat (length results) ≤ Z.max 0 num_results ∧
  Forall is_hit results.
Proof.
  intros Hquote Hget Hst Hparse results.
  split; [by apply (search_ddg_ok query encoded_query num_results resp)|].
  split; [apply ddg_loop_length; [lia | done]|].
  apply ddg_loop_hits; constructor.
Qed.

Lemma search_duckduckgo_lite_bound_witness :
  quote_plus (World := SampleWorld.sample_world) (lit "rocq prover")
  = Return (lit "rocq+prover") ∧
  requests_get (World := SampleWorld.sample_world)
    (ddg_request (lit "rocq+prover"))
  = Return SampleWorld.ddg_response ∧
  search_duckduckgo_lite (H := SampleWorld.sample_world)
    (H1 := SampleWorld.ddg_parser) (lit "rocq prover") 1
  = IO [EvGet (ddg_request (lit "rocq+prover"))]
       (Ret [row_hit (SampleWorld.link "https://a.example" " First ")
               SampleWorld.snippet_row1]).
Proof.
  split; [reflexivity|]. split; [reflexivity|].
  destruct (search_duckduckgo_lite_bound (H := SampleWorld.sample_world)
              (H0 := SampleWorld.no_keys) (H1 := SampleWorld.ddg_parser)
              (lit "rocq prover") (lit "rocq+prover") 1
              SampleWorld.ddg_response SampleWorld.ddg_page) as (Hres & _).
  - reflexivity.
  - reflexivity.
  - left. reflexivity.
  - reflexivity.
  - exact Hres.
Defined.

(** X17. On a page whose result rows alternate, a link row with a link in
    it and then its snippet row, a DuckDuckGo search with a query that is
    encoded and a count that is not negative returns, for each of the first
    [num_results] pairs, the stripped text of the link as title, its href as
    url and the stripped text of the snippet row as snippet. *)
Theorem search_duckduckgo_lite_pairs `{World} `{SearchEnv} `{BeautifulSoup}
    (query encoded_query : str) (num_results : Z) (resp : http_response)
    (soup : node) (pairs : list (node * node * node)) :
  quote_plus query = Return encoded_query →
  requests_get (ddg_request encoded_query) = Return resp →
  (status_code resp < 400 ∨ 600 ≤ status_code resp) →
  html_parser (body_text resp) = Return soup →
  result_rows soup = flat_map (λ p, [p.1.1; p.2]) pairs →
  Forall (λ p, find (lit "a") p.1.1 = Some p.1.2) pairs →
  search_duckduckgo_lite query num_results
  = IO [EvGet (ddg_request encoded_query)]
       (Ret ((λ p, row_hit p.1.2 p.2) <$> take (Z.to_nat num_results) pairs)).
Proof.
  intros Hquote Hget Hst Hparse Hrows Hfind.
  rewrite (search_ddg_ok query encoded_query num_results resp soup
             Hquote Hget Hst Hparse).
  rewrite Hrows.
  pose proof (ddg_loop_pairs num_results pairs 0 [] Hfind) as Hloop.
  change (2 * 0)%nat with 0%nat in Hloop. cbn [app] in Hloop. rewrite Hloop.
  by rewrite Nat.sub_0_r.
Qed.

Lemma search_duckduckgo_lite_pairs_witness :
  result_rows SampleWorld.paired_page
  = flat_map (λ p, [p.1.1; p.2])
      [(SampleWorld.link_row1,
        SampleWorld.link "https://a.example" " First ",
        SampleWorld.snippet_row1)] ∧
  search_duckduckgo_lite (H := SampleWorld.sample_world)
    (H1 := SampleWorld.paired_parser) (lit "rocq prover") 5
  = IO [EvGet (ddg_request (lit "rocq+prover"))]
       (Ret [row_hit (SampleWorld.link "https://a.example" " First ")
               SampleWorld.snippet_row1]).
Proof.
  split; [reflexivity|].
  apply (search_duckduckgo_lite_pairs (H := SampleWorld.sample_world)
           (H0 := SampleWorld.no_keys) (H1 := SampleWorld.paired_parser)
           (lit "rocq prover") (lit "rocq+prover") 5 SampleWorld.ddg_response
           SampleWorld.paired_page
           [(SampleWorld.link_row1,
             SampleWorld.link "https://a.example" " First ",
             SampleWorld.snippet_row1)]).
  - reflexivity.
  - reflexivity.
  - left. reflexivity.
  - reflexivity.
  - reflexivity.
  - repeat constructor.
Defined.

(** The sample page, searched: the second link row has no snippet row. *)
Example search_ddg_sample :
  outcome_of (search_duckduckgo_lite (H := SampleWorld.sample_world)
                (H1 := SampleWorld.ddg_parser) (lit "rocq prover") 5)
  = Ret [ {[ lit "title" := JStr (lit "First");
             lit "url" := JStr (lit "https://a.example");
             lit "snippet" := JStr (lit "about the first") ]};
          {[ lit "title" := JStr (lit "Second");
             lit "url" := JStr (lit "https://b.example");
             lit "snippet" := JStr [] ]} ].
Proof. reflexivity. Qed.

End search_well_formed.

(* ===================================================================== *)
(** ** llm_api.py *)
(* ===================================================================== *)

Section llm_facts.
Import Json Effects Llm.
Context `{World} `{LlmEnv}.

Lemma post_and_read_eq (r : request) (read : json → exc json) :
  post_and_read r read = IO [EvPost r] (Ret (answer_of r read)).
Proof.
  unfold post_and_read, answer_of, http_post, raise_for_status. cbn.
  destruct (requests_post r) as [resp|e]; cbn; [|done].
  destruct (_ && _); cbn; [done|].
  destruct (body_json resp) as [j|e]; cbn; [|done].
  by destruct (read j).
Qed.

Lemma query_openai_eq prompt model temperature max_tokens image_path :
  nonempty OPENAI_API_KEY = true →
  query_openai prompt model temperature max_tokens image_path
  = run_query image_path
      (openai_request prompt model temperature max_tokens) chat_content.
Proof.
  intros Hk. unfold query_openai, run_query. rewrite Hk. cbn [negb].
  destruct (given image_path) as [path|]; cbn zeta.
  - unfold encode_image_to_base64, open_read_bytes. cbn.
    destruct (read_bytes path) as [image|e]; cbn; [|done].
    by rewrite post_and_read_eq.
  - cbn. by rewrite post_and_read_eq.
Qed.

Lemma query_azure_eq prompt temperature max_tokens image_path :
  nonempty AZURE_OPENAI_API_KEY = true →
  nonempty AZURE_OPENAI_ENDPOINT = true →
  query_azure_openai prompt temperature max_tokens image_path
  = run_query image_path
      (azure_request prompt temperature max_tokens) chat_content.
Proof.
  intros Hk He. unfold query_azure_openai, run_query. rewrite Hk, He.
  cbn [negb orb].
  destruct (given image_path) as [path|]; cbn zeta.
  - unfold encode_image_to_base64, open_read_bytes. cbn.
    destruct (read_bytes path) as [image|e]; cbn; [|done].
    by rewrite post_and_read_eq.
  - cbn. by rewrite post_and_read_eq.
Qed.

Lemma query_anthropic_eq prompt model temperature max_tokens image_path :
  nonempty ANTHROPIC_API_KEY = true →
  query_anthropic prompt model temperature max_tokens image_path
  = run_query image_path
      (anthropic_request prompt model temperature max_tokens) anthropic_text.
Proof.
  intros Hk. unfold query_anthropic, run_query. rewrite Hk. cbn [negb].
  destruct (given image_path) as [path|]; cbn zeta.
  - unfold open_read_bytes. cbn.
    destruct (read_bytes path) as [image|e]; cbn; [|done].
    by rewrite post_and_read_eq.
  - cbn. by rewrite post_and_read_eq.
Qed.

Lemma query_deepseek_eq prompt temperature max_tokens :
  nonempty DEEPSEEK_API_KEY = true →
  query_deepseek prompt temperature max_tokens
  = run_query None (λ _, deepseek_request prompt temperature max_tokens)
      chat_content.
Proof.
  intros Hk. unfold query_deepseek, run_query. rewrite Hk. cbn [negb given].
  cbn zeta. by rewrite post_and_read_eq.
Qed.

Lemma query_gemini_eq prompt temperature max_tokens image_path :
  nonempty GEMINI_API_KEY = true →
  query_gemini prompt temperature max_tokens image_path
  = run_query image_path
      (gemini_request prompt temperature max_tokens) gemini_text.
Proof.
  intros Hk. unfold query_gemini, run_query. rewrite Hk. cbn [negb].
  destruct (given image_path) as [path|]; cbn zeta.
  - unfold open_read_bytes. cbn.
    destruct (read_bytes path) as [image|e]; cbn; [|done].
    by rewrite post_and_read_eq.
  - cbn. by rewrite post_and_read_eq.
Qed.

End llm_facts.

Section llm_cases.
Import Json Effects Llm.
Context `{World} `{LlmEnv}.

Lemma str_eqb_eq (a b : str) : str_eqb a b = true → a = b.
Proof. apply bool_decide_eq_true_1. Qed.

(** The six ways through [query_llm]. *)
Lemma query_llm_cases (prompt provider : str) (model : option str)
    (temperature : PrimFloat.float) (max_tokens : Z)
    (image_path : option str) :
  let q := query_llm prompt provider model temperature max_tokens image_path in
  (configured provider = false ∧
   ∃ msg, q = IO [] (Ret (JStr (lit "Error: " ++ msg)))) ∨
  (configured provider = true ∧
   ((provider = lit "openai" ∧
     q = run_query image_path
           (openai_request prompt (default (lit "gpt-4o") model)
              temperature max_tokens) chat_content) ∨
    (provider = lit "azure" ∧
     q = run_query image_path
           (azure_request prompt temperature max_tokens) chat_content) ∨
    (provider = lit "anthropic" ∧
     q = run_query image_path
           (anthropic_request prompt
              (default (lit "claude-3-5-sonnet-20241022") model)
              temperature max_tokens) anthropic_text) ∨
    (provider = lit "deepseek" ∧
     q = run_query None
           (λ _, deepseek_request prompt temperature max_tokens)
           chat_content) ∨
    (provider = lit "gemini" ∧
     q = run_query image_path
           (gemini_request prompt temperature max_tokens) gemini_text))).
Proof.
  intros q. subst q. unfold query_llm, configured. cbn zeta.
  destruct (str_eqb provider (lit "openai")) eqn:Ho.
  { apply str_eqb_eq in Ho as ->.
    destruct (nonempty OPENAI_API_KEY) eqn:Hk.
    - right. split; [done|]. left. split; [done|].
      rewrite query_openai_eq by done. by destruct model.
    - left. split; [done|]. unfold query_openai. rewrite Hk.
      eexists. reflexivity. }
  destruct (str_eqb provider (lit "azure")) eqn:Hz.
  { apply str_eqb_eq in Hz as ->.
    destruct (nonempty AZURE_OPENAI_API_KEY) eqn:Hk;
      [destruct (nonempty AZURE_OPENAI_ENDPOINT) eqn:He|]; cbn [andb].
    - right. split; [done|]. right. left. split; [done|].
      by rewrite query_azure_eq.
    - left. split; [done|]. unfold query_azure_openai. rewrite Hk, He.
      eexists. reflexivity.
    - left. split; [done|]. unfold query_azure_openai. rewrite Hk.
      eexists. reflexivity. }
  destruct (str_eqb provider (lit "anthropic")) eqn:Ha.
  { apply str_eqb_eq in Ha as ->.
    destruct (nonempty ANTHROPIC_API_KEY) eqn:Hk.
    - right. split; [done|]. right. right. left. split; [done|].
      rewrite query_anthropic_eq by done. by destruct model.
    - left. split; [done|]. unfold query_anthropic. rewrite Hk.
      eexists. reflexivity. }
  destruct (str_eqb provider (lit "deepseek")) eqn:Hd.
  { apply str_eqb_eq in Hd as ->.
    destruct (nonempty DEEPSEEK_API_KEY) eqn:Hk.
    - right. split; [done|]. right. right. right. left. split; [done|].
      by rewrite query_deepseek_eq.
    - left. split; [done|]. unfold query_deepseek. rewrite Hk.
      eexists. reflexivity. }
  destruct (str_eqb provider (lit "gemini")) eqn:Hg.
  { apply str_eqb_eq in Hg as ->.
    destruct (nonempty GEMINI_API_KEY) eqn:Hk.
    - right. split; [done|]. right. right. right. right. split; [done|].
      by rewrite query_gemini_eq.
    - left. split; [done|]. unfold query_gemini. rewrite Hk.
      eexists. reflexivity. }
  left. split; [done|]. eexists. reflexivity.
Qed.

Lemma run_query_unreadable image_path path e build read :
  given image_path = Some path → read_bytes path = Raise e →
  run_query image_path build read = IO [EvOpen path] (Ret (image_error e)).
Proof. intros Hg Hr. unfold run_query. by rewrite Hg, Hr. Qed.

Lemma run_query_shape image_path build read :
  ∃ t v,
    run_query image_path build read = IO t (Ret v) ∧
    (t = [] ∨ (∃ p, t = [EvOpen p]) ∨ (∃ r, t = [EvPost r]) ∨
     (∃ p r, t = [EvOpen p; EvPost r])).
Proof.
  unfold run_query. destruct (given image_path) as [path|].
  - destruct (read_bytes path) as [image|e]; eexists _, _;
      (split; [done|]); [repeat right | right; left]; eauto.
  - eexists _, _. split; [done|]. right. right. left. eauto.
Qed.

Lemma run_query_post image_path build read t v r :
  run_query image_path build read = IO t (Ret v) →
  EvPost r ∈ t →
  v = answer_of r read.
Proof.
  unfold run_query. destruct (given image_path) as [path|].
  - destruct (read_bytes path) as [image|e]; intros [= <- <-] Hin.
    + apply elem_of_cons in Hin as [[=]|Hin].
      apply list_elem_of_singleton in Hin as [= ->]. done.
    + apply list_elem_of_singleton in Hin as [=].
  - intros [= <- <-] Hin.
    apply list_elem_of_singleton in Hin as [= ->]. done.
Qed.

(** The answer of a query that sent a request is read from what the web
    answered to that request, by the reader of the provider. *)
Lemma query_llm_post (prompt provider : str) (model : option str)
    (temperature : PrimFloat.float) (max_tokens : Z)
    (image_path : option str) t v r :
  query_llm prompt provider model temperature max_tokens image_path
  = IO t (Ret v) →
  EvPost r ∈ t →
  ∃ read,
    v = answer_of r read ∧
    (provider ∈ [lit "openai"; lit "azure"; lit "deepseek"] →
     read = chat_content) ∧
    (provider = lit "anthropic" → read = anthropic_text) ∧
    (provider = lit "gemini" → read = gemini_text).
Proof.
  intros Hq Hin.
  destruct (query_llm_cases prompt provider model temperature max_tokens
              image_path)
    as [[_ [msg Hm]] |
        [_ [[-> Hm] | [[-> Hm] | [[-> Hm] | [[-> Hm] | [-> Hm]]]]]]];
    cbn zeta in Hm; rewrite Hm in Hq.
  - injection Hq as <- _. by apply elem_of_nil in Hin.
  - exists chat_content. split; [by eapply run_query_post|].
    split; [done | split; intros [=]].
  - exists chat_content. split; [by eapply run_query_post|].
    split; [done | split; intros [=]].
  - exists anthropic_text. split; [by eapply run_query_post|].
    split; [|split; [done | intros [=]]].
    intros Hp. exfalso.
    repeat (apply elem_of_cons in Hp as [Hp|Hp]; [discriminate Hp|]).
    by apply elem_of_nil in Hp.
  - exists chat_content. split; [by eapply run_query_post|].
    split; [done | split; intros [=]].
  - exists gemini_text. split; [by eapply run_query_post|].
    split; [|split; [intros [=] | done]].
    intros Hp. exfalso.
    repeat (apply elem_of_cons in Hp as [Hp|Hp]; [discriminate Hp|]).
    by apply elem_of_nil in Hp.
Qed.

End llm_cases.

Section llm_theorems.
Import Json Effects Llm.

(** X18. A query to a provider whose credentials are not set, or to a
    provider that is not known, reads no file and sends no request, image or
    not: it returns at once a text that starts with Error. *)
Theorem query_llm_not_configured `{World} `{LlmEnv} (prompt provider : str)
    (model : option str) (temperature : PrimFloat.float) (max_tokens : Z)
    (image_path : option str) :
  configured provider = false →
  ∃ msg,
    query_llm prompt provider model temperature max_tokens image_path
    = IO [] (Ret (JStr (lit "Error: " ++ msg))).
Proof.
  intros Hc.
  destruct (query_llm_cases prompt provider model temperature max_tokens
              image_path) as [[_ Hq] | [Hc' _]]; [done | congruence].
Qed.

Lemma query_llm_not_configured_witness :
  configured (H0 := SampleWorld.no_llm_keys) (lit "openai") = false ∧
  query_llm (H := SampleWorld.sample_world) (H0 := SampleWorld.no_llm_keys)
    (lit "hello") (lit "openai") None SampleWorld.temp 4000
    (Some (lit "cat.jpg"))
  = IO [] (Ret (JStr (lit "Error: OPENAI_API_KEY environment variable not set"))).
Proof.
  split; [reflexivity|].
  destruct (query_llm_not_configured (H := SampleWorld.sample_world)
              (H0 := SampleWorld.no_llm_keys) (lit "hello") (lit "openai")
              None SampleWorld.temp 4000 (Some (lit "cat.jpg")) eq_refl)
    as [msg Hq].
  rewrite Hq. symmetry. rewrite <- Hq. reflexivity.
Defined.

(** X19. With one of the four providers that take an image, its
    credentials set and an image that cannot be read, the query opens the
    file, sends no request, and returns the text Error processing image
    followed by the text of the exception. *)
Theorem query_llm_image_unreadable `{World} `{LlmEnv} (prompt provider : str)
    (model : option str) (temperature : PrimFloat.float) (max_tokens : Z)
    (image_path : option str) (path : str) (e : exn) :
  provider ∈ [lit "openai"; lit "azure"; lit "anthropic"; lit "gemini"] →
  configured provider = true →
  given image_path = Some path →
  read_bytes path = Raise e →
  query_llm prompt provider model temperature max_tokens image_path
  = IO [EvOpen path]
       (Ret (JStr (lit "Error processing image: " ++ exn_str e))).
Proof.
  intros Hin Hc Hg Hr.
  destruct (query_llm_cases prompt provider model temperature max_tokens
              image_path)
    as [[Hc' _] | [_ [[_ ->] | [[_ ->] | [[_ ->] | [[-> _] | [_ ->]]]]]]];
    [congruence | by apply run_query_unreadable.. | |
     by apply run_query_unreadable].
  exfalso. repeat (apply elem_of_cons in Hin as [Hin|Hin];
                   [discriminate Hin|]).
  by apply elem_of_nil in Hin.
Qed.

Lemma query_llm_image_unreadable_witness :
  configured (H0 := SampleWorld.llm_keys) (lit "anthropic") = true ∧
  read_bytes (World := SampleWorld.sample_world) (lit "dog.png")
  = Raise SampleWorld.no_such_file ∧
  query_llm (H := SampleWorld.sample_world) (H0 := SampleWorld.llm_keys)
    (lit "hello") (lit "anthropic") None SampleWorld.temp 4000
    (Some (lit "dog.png"))
  = IO [EvOpen (lit "dog.png")]
       (Ret (JStr (lit "Error processing image: " ++
                   lit "[Errno 2] No such file or directory"))).
Proof.
  split; [reflexivity|]. split; [reflexivity|].
  apply (query_llm_image_unreadable (H := SampleWorld.sample_world)
           (H0 := SampleWorld.llm_keys) (lit "hello") (lit "anthropic") None
           SampleWorld.temp 4000 (Some (lit "dog.png")) (lit "dog.png")
           SampleWorld.no_such_file).
  - set_solver.
  - reflexivity.
  - reflexivity.
  - reflexivity.
Defined.

(** Arguments without effect.  With the provider deepseek neither the
    model nor the image path changes anything the query does or returns (the
    file is never opened); with the providers azure and gemini the model
    changes nothing. *)
Lemma query_llm_ignored_arguments `{World} `{LlmEnv} (prompt : str)
    (temperature : PrimFloat.float) (max_tokens : Z) :
  (∀ model model' image_path image_path',
     query_llm prompt (lit "deepseek") model temperature max_tokens image_path
     = query_llm prompt (lit "deepseek") model' temperature max_tokens
         image_path') ∧
  (∀ model model' image_path,
     query_llm prompt (lit "azure") model temperature max_tokens image_path
     = query_llm prompt (lit "azure") model' temperature max_tokens
         image_path) ∧
  (∀ model model' image_path,
     query_llm prompt (lit "gemini") model temperature max_tokens image_path
     = query_llm prompt (lit "gemini") model' temperature max_tokens
         image_path).
Proof. repeat split; reflexivity. Qed.

(** X21. A query to openai or anthropic with credentials and no image
    sends exactly one POST, to the API of the provider, whose payload has the
    prompt as the one text part of a single user message and names the model
    asked for, or gpt-4o (claude-3-5-sonnet-20241022 for anthropic) when
    none was asked for. *)
Theorem query_llm_request `{World} `{LlmEnv} (prompt : str)
    (model : option str) (temperature : PrimFloat.float) (max_tokens : Z)
    (image_path : option str) :
  given image_path = None →
  (nonempty OPENAI_API_KEY = true →
   ∃ r v,
     query_llm prompt (lit "openai") model temperature max_tokens image_path
     = IO [EvPost r] (Ret v) ∧
     req_url r = openai_url ∧
     payload_field r "model" = Some (JStr (default (lit "gpt-4o") model)) ∧
     payload_field r "messages"
     = Some (JList [user_message (JList [text_part prompt])]) ∧
     req_headers r !! lit "Authorization"
     = Some (lit "Bearer " ++ OPENAI_API_KEY)) ∧
  (nonempty ANTHROPIC_API_KEY = true →
   ∃ r v,
     query_llm prompt (lit "anthropic") model temperature max_tokens
       image_path
     = IO [EvPost r] (Ret v) ∧
     req_url r = anthropic_url ∧
     payload_field r "model"
     = Some (JStr (default (lit "claude-3-5-sonnet-20241022") model)) ∧
     payload_field r "messages"
     = Some (JList [user_message (JList [text_part prompt])]) ∧
     req_headers r !! lit "X-API-Key" = Some ANTHROPIC_API_KEY).
Proof.
  intros Hg. split; intros Hk.
  - change (query_llm prompt (lit "openai") model temperature max_tokens
              image_path)
      with (query_openai prompt
              (match model with
               | Some m => m
               | None => lit "gpt-4o"
               end) temperature max_tokens image_path).
    rewrite query_openai_eq by done. unfold run_query. rewrite Hg.
    eexists _, _. split; [reflexivity|].
    split; [reflexivity|]. split; [by destruct model|].
    split; reflexivity.
  - change (query_llm prompt (lit "anthropic") model temperature max_tokens
              image_path)
      with (query_anthropic prompt
              (match model with
               | Some m => m
               | None => lit "claude-3-5-sonnet-20241022"
               end) temperature max_tokens image_path).
    rewrite query_anthropic_eq by done. unfold run_query. rewrite Hg.
    eexists _, _. split; [reflexivity|].
    split; [reflexivity|]. split; [by destruct model|].
    split; reflexivity.
Qed.

Lemma query_llm_request_witness :
  nonempty (OPENAI_API_KEY (LlmEnv := SampleWorld.llm_keys)) = true ∧
  ∃ r,
    query_llm (H := SampleWorld.sample_world) (H0 := SampleWorld.llm_keys)
      (lit "hello") (lit "openai") None SampleWorld.temp 4000 None
    = IO [EvPost r] (Ret (JStr (lit "a plan"))) ∧
    payload_field r "model" = Some (JStr (lit "gpt-4o")).
Proof.
  split; [reflexivity|].
  destruct (query_llm_request (H := SampleWorld.sample_world)
              (H0 := SampleWorld.llm_keys) (lit "hello") None
              SampleWorld.temp 4000 None eq_refl) as [Hopenai _].
  destruct (Hopenai eq_refl) as (r & v & Hq & _ & Hmodel & _).
  exists r. split; [|exact Hmodel].
  rewrite Hq. f_equal. f_equal.
  assert (IO [EvPost r] (Ret v)
          = IO [EvPost (openai_request (H0 := SampleWorld.llm_keys)
                          (lit "hello") (lit "gpt-4o") SampleWorld.temp 4000
                          None)]
               (Ret (JStr (lit "a plan")))) as Heq
    by (rewrite <- Hq; reflexivity).
  by injection Heq.
Defined.

(** X22. Whatever the provider, when the request of a query fails the
    query returns a text instead of raising: Error: followed by the text of
    the exception the POST raised, of the exception of the error status (400
    to 599; the body is then not read), or of the exception raised while the
    body was decoded. *)
Theorem query_llm_failure_text `{World} `{LlmEnv} (prompt provider : str)
    (model : option str) (temperature : PrimFloat.float) (max_tokens : Z)
    (image_path : option str) (t : list event) (v : json) (r : request) :
  query_llm prompt provider model temperature max_tokens image_path
  = IO t (Ret v) →
  EvPost r ∈ t →
  (∀ e, requests_post r = Raise e → v = JStr (lit "Error: " ++ exn_str e)) ∧
  (∀ resp, requests_post r = Return resp →
     400 ≤ status_code resp < 600 →
     v = JStr (lit "Error: " ++ exn_str (http_error resp))) ∧
  (∀ resp e, requests_post r = Return resp →
     ¬ 400 ≤ status_code resp < 600 →
     body_json resp = Raise e →
     v = JStr (lit "Error: " ++ exn_str e)).
Proof.
  intros Hq Hin.
  destruct (query_llm_post _ _ _ _ _ _ _ _ _ Hq Hin) as (read & -> & _).
  unfold answer_of. repeat split.
  - by intros e ->.
  - intros resp -> Hs.
    replace ((400 <=? status_code resp) && (status_code resp <? 600))
      with true by (symmetry; apply andb_true_iff; lia).
    done.
  - intros resp e -> Hs Hb.
    replace ((400 <=? status_code resp) && (status_code resp <? 600))
      with false by (symmetry; apply andb_false_iff; lia).
    by rewrite Hb.
Qed.

Lemma query_llm_failure_text_witness :
  let W := SampleWorld.answering (Return SampleWorld.server_error) in
  let r := deepseek_request (H0 := SampleWorld.llm_keys) (lit "hello")
             SampleWorld.temp 4000 in
  query_llm (H := W) (H0 := SampleWorld.llm_keys) (lit "hello")
    (lit "deepseek") None SampleWorld.temp 4000 None
  = IO [EvPost r] (Ret (JStr (lit "Error: 500 Server Error"))) ∧
  EvPost r ∈ [EvPost r] ∧
  JStr (lit "Error: 500 Server Error")
  = JStr (lit "Error: " ++ exn_str (http_error SampleWorld.server_error)).
Proof.
  intros W r.
  assert (query_llm (H := W) (H0 := SampleWorld.llm_keys) (lit "hello")
            (lit "deepseek") None SampleWorld.temp 4000 None
          = IO [EvPost r] (Ret (JStr (lit "Error: 500 Server Error"))))
    as Hq by reflexivity.
  assert (EvPost r ∈ [EvPost r]) as Hin by apply list_elem_of_here.
  split; [exact Hq|]. split; [exact Hin|].
  destruct (query_llm_failure_text (H := W) (H0 := SampleWorld.llm_keys)
              _ _ _ _ _ _ _ _ _ Hq Hin) as (_ & Hstatus & _).
  apply (Hstatus SampleWorld.server_error); [reflexivity | cbn; lia].
Defined.

(** X23. What the three providers with the chat completion format (openai,
    azure, deepseek) return for a decoded answer with a good status.  An
    answer without choices gives the empty text and no error; an empty list
    of choices gives the text Error: list index out of range; choices
    that are not a list or a dict with a message give an error text too; and
    a first choice with a message with a content gives that content, of
    whatever JSON type it is. *)
Theorem query_llm_chat_answer `{World} `{LlmEnv} (prompt provider : str)
    (model : option str) (temperature : PrimFloat.float) (max_tokens : Z)
    (image_path : option str) (t : list event) (v : json) (r : request)
    (resp : http_response) (d : dict) :
  provider ∈ [lit "openai"; lit "azure"; lit "deepseek"] →
  query_llm prompt provider model temperature max_tokens image_path
  = IO t (Ret v) →
  EvPost r ∈ t →
  requests_post r = Return resp →
  ¬ 400 ≤ status_code resp < 600 →
  body_json resp = Return (JDict d) →
  (d !! lit "choices" = None → v = JStr []) ∧
  (d !! lit "choices" = Some (JList []) →
   v = JStr (lit "Error: list index out of range")) ∧
  (d !! lit "choices" = Some JNull →
   v = JStr (lit "Error: 'NoneType' object is not subscriptable")) ∧
  (∀ c rest, d !! lit "choices" = Some (JList (JDict c :: rest)) →
     c !! lit "message" = None → v = JStr []) ∧
  (∀ c rest m content,
     d !! lit "choices" = Some (JList (JDict c :: rest)) →
     c !! lit "message" = Some (JDict m) →
     m !! lit "content" = Some content →
     v = content).
Proof.
  intros Hp Hq Hin Hr Hs Hb.
  destruct (query_llm_post _ _ _ _ _ _ _ _ _ Hq Hin)
    as (read & -> & Hchat & _).
  rewrite (Hchat Hp). unfold answer_of. rewrite Hr.
  replace ((400 <=? status_code resp) && (status_code resp <? 600))
    with false by (symmetry; apply andb_false_iff; lia).
  rewrite Hb. unfold chat_content. cbn [py_get].
  split; [|split; [|split; [|split]]].
  - by intros ->.
  - by intros ->.
  - by intros ->.
  - intros c rest -> Hm. cbn -[lookup lit]. by rewrite Hm.
  - intros c rest m content -> Hm Hc. cbn -[lookup lit]. rewrite Hm.
    cbn -[lookup lit]. by rewrite Hc.
Qed.

Lemma query_llm_chat_answer_witness :
  let W := SampleWorld.answering (Return SampleWorld.no_choice) in
  let r := openai_request (H0 := SampleWorld.llm_keys) (lit "hello")
             (lit "gpt-4o") SampleWorld.temp 4000 None in
  ∃ v,
    query_llm (H := W) (H0 := SampleWorld.llm_keys) (lit "hello")
      (lit "openai") None SampleWorld.temp 4000 None
    = IO [EvPost r] (Ret v) ∧
    v = JStr (lit "Error: list index out of range").
Proof.
  intros W r. eexists. split; [reflexivity|].
  assert (EvPost r ∈ [EvPost r]) as Hin by apply list_elem_of_here.
  destruct (query_llm_chat_answer (H := W) (H0 := SampleWorld.llm_keys)
              (lit "hello") (lit "openai") None SampleWorld.temp 4000 None
              [EvPost r] _ r SampleWorld.no_choice
              {[ lit "choices" := JList [] ]}
              ltac:(apply list_elem_of_here) eq_refl Hin eq_refl
              ltac:(cbn; lia) eq_refl) as (_ & Hempty & _).
  apply Hempty. reflexivity.
Defined.

(** X24. A query never raises and never exits, whatever the provider, the
    files and the web do: it returns, having opened at most one file and
    sent at most one request, the file before the request. *)
Theorem query_llm_returns `{World} `{LlmEnv} (prompt provider : str)
    (model : option str) (temperature : PrimFloat.float) (max_tokens : Z)
    (image_path : option str) :
  ∃ t v,
    query_llm prompt provider model temperature max_tokens image_path
    = IO t (Ret v) ∧
    (t = [] ∨ (∃ p, t = [EvOpen p]) ∨ (∃ r, t = [EvPost r]) ∨
     (∃ p r, t = [EvOpen p; EvPost r])).
Proof.
  destruct (query_llm_cases prompt provider model temperature max_tokens
              image_path)
    as [[_ [msg ->]] |
        [_ [[_ ->] | [[_ ->] | [[_ ->] | [[_ ->] | [_ ->]]]]]]];
    [eexists _, _; split; [done | by left] | apply run_query_shape..].
Qed.

(** X25. A gemini query with an image that can be read posts to the
    gemini-pro-vision model, with the prompt and then the encoded image (as
    image/jpeg, whatever the file is) as the parts of the contents; without
    an image it posts the prompt alone to gemini-pro.  The key travels in
    the URL and the request has no headers. *)
Theorem query_gemini_model `{World} `{LlmEnv} (prompt : str)
    (model : option str) (temperature : PrimFloat.float) (max_tokens : Z)
    (image_path : option str) :
  nonempty GEMINI_API_KEY = true →
  (∀ path image,
     given image_path = Some path → read_bytes path = Return image →
     ∃ r v,
       query_llm prompt (lit "gemini") model temperature max_tokens image_path
       = IO [EvOpen path; EvPost r] (Ret v) ∧
       req_url r
       = lit "https://generativelanguage.googleapis.com/v1/models/" ++
         lit "gemini-pro-vision:generateContent?key=" ++ GEMINI_API_KEY ∧
       req_headers r = ∅ ∧
       payload_field r "contents"
       = Some (JList [jobj [("parts",
                 JList [jobj [("text", JStr prompt)];
                        inline_data_part (b64encode image)])]])) ∧
  (given image_path = None →
   ∃ r v,
     query_llm prompt (lit "gemini") model temperature max_tokens image_path
     = IO [EvPost r] (Ret v) ∧
     req_url r
     = lit "https://generativelanguage.googleapis.com/v1/models/" ++
       lit "gemini-pro:generateContent?key=" ++ GEMINI_API_KEY ∧
     req_headers r = ∅ ∧
     payload_field r "contents"
     = Some (JList [jobj [("parts", JList [jobj [("text", JStr prompt)]])]])).
Proof.
  intros Hk.
  change (query_llm prompt (lit "gemini") model temperature max_tokens
            image_path)
    with (query_gemini prompt temperature max_tokens image_path).
  rewrite query_gemini_eq by done. unfold run_query. split.
  - intros path image -> ->. eexists _, _. split; [reflexivity|].
    split; [reflexivity|]. split; reflexivity.
  - intros ->. eexists _, _. split; [reflexivity|].
    split; [reflexivity|]. split; reflexivity.
Qed.

Lemma query_gemini_model_witness :
  nonempty (GEMINI_API_KEY (LlmEnv := SampleWorld.llm_keys)) = true ∧
  read_bytes (World := SampleWorld.sample_world) (lit "cat.jpg")
  = Return [65; 66; 67]%N ∧
  ∃ r,
    query_llm (H := SampleWorld.sample_world) (H0 := SampleWorld.llm_keys)
      (lit "what is this") (lit "gemini") None SampleWorld.temp 4000
      (Some (lit "cat.jpg"))
    = IO [EvOpen (lit "cat.jpg"); EvPost r] (Ret (JStr [])) ∧
    req_url r
    = lit "https://generativelanguage.googleapis.com/v1/models/gemini-pro-vision:generateContent?key=gm-1".
Proof.
  split; [reflexivity|]. split; [reflexivity|].
  destruct (query_gemini_model (H := SampleWorld.sample_world)
              (H0 := SampleWorld.llm_keys) (lit "what is this") None
              SampleWorld.temp 4000 (Some (lit "cat.jpg")) eq_refl)
    as [Himage _].
  destruct (Himage (lit "cat.jpg") [65; 66; 67]%N eq_refl eq_refl)
    as (r & v & Hq & Hurl & _).
  exists r. split; [|exact Hurl].
  rewrite Hq. f_equal. f_equal.
  assert (IO [EvOpen (lit "cat.jpg"); EvPost r] (Ret v)
          = IO [EvOpen (lit "cat.jpg");
                EvPost (gemini_request (H0 := SampleWorld.llm_keys) (lit "what is this")
                          SampleWorld.temp 4000 (Some (lit "QUJD")))]
               (Ret (JStr []))) as Heq
    by (rewrite <- Hq; reflexivity).
  by injection Heq.
Defined.

End llm_theorems.

(* ===================================================================== *)
(** ** plan_exec_llm.py *)
(* ===================================================================== *)

Section plan_facts.
Import Json Effects Plan.
Context `{World} `{PlanEnv}.

Lemma load_file_content_eq path :
  load_file_content path
  = match read_text path with
    | Return c => IO [EvOpen path] (Ret c)
    | Raise e => IO [EvOpen path; EvStderr (read_error_line path e)] (SysExit 1)
    end.
Proof.
  unfold load_file_content, open_read_text.
  by destruct (read_text path).
Qed.

Lemma plan_post_eq r read (log : exn → str) :
  try_io
    (response ← http_post r;
     _ ← raise_for_status response;
     j ← lift (body_json response);
     lift (read j))
    (λ e, _ ← print_err (log e); mret (Llm.query_error e))
  = match result_of r read with
    | Return v => IO [EvPost r] (Ret v)
    | Raise e =>
        IO [EvPost r; EvStderr (log e ++ [LF])] (Ret (Llm.query_error e))
    end.
Proof.
  unfold result_of, http_post, raise_for_status.
  destruct (requests_post r) as [response|e]; [|done]. cbn -[lit].
  destruct ((400 <=? status_code response) && (status_code response <? 600));
    [done|]. cbn -[lit].
  destruct (body_json response) as [j|e]; [|done]. cbn -[lit].
  by destruct (read j).
Qed.

Lemma plan_query_openai_eq prompt model :
  Plan.query_openai prompt model
  = if nonempty Plan.OPENAI_API_KEY then
      match result_of (Plan.openai_request prompt model) Llm.chat_content with
      | Return v => IO [EvPost (Plan.openai_request prompt model)] (Ret v)
      | Raise e =>
          IO [EvPost (Plan.openai_request prompt model);
              EvStderr ((lit "Error querying OpenAI API: " ++ exn_str e) ++
                        [LF])]
             (Ret (Llm.query_error e))
      end
    else
      IO [EvStderr (lit "Error: OPENAI_API_KEY environment variable not set"
                    ++ [LF])] (SysExit 1).
Proof.
  unfold Plan.query_openai.
  destruct (nonempty Plan.OPENAI_API_KEY); [|reflexivity].
  cbn [negb]. cbv zeta.
  exact (plan_post_eq (Plan.openai_request prompt model) Llm.chat_content
           (λ e, lit "Error querying OpenAI API: " ++ exn_str e)).
Qed.

Lemma plan_query_anthropic_eq prompt model :
  Plan.query_anthropic prompt model
  = if nonempty Plan.ANTHROPIC_API_KEY then
      match result_of (Plan.anthropic_request prompt model) Llm.anthropic_text
      with
      | Return v => IO [EvPost (Plan.anthropic_request prompt model)] (Ret v)
      | Raise e =>
          IO [EvPost (Plan.anthropic_request prompt model);
              EvStderr ((lit "Error querying Anthropic API: " ++ exn_str e) ++
                        [LF])]
             (Ret (Llm.query_error e))
      end
    else
      IO [EvStderr (lit "Error: ANTHROPIC_API_KEY environment variable not set"
                    ++ [LF])] (SysExit 1).
Proof.
  unfold Plan.query_anthropic.
  destruct (nonempty Plan.ANTHROPIC_API_KEY); [|reflexivity].
  cbn [negb]. cbv zeta.
  exact (plan_post_eq (Plan.anthropic_request prompt model) Llm.anthropic_text
           (λ e, lit "Error querying Anthropic API: " ++ exn_str e)).
Qed.

Lemma plan_main_eq a :
  Plan.main a
  = match Llm.given (file a) with
    | Some path =>
        match read_text path with
        | Raise e =>
            IO [EvOpen path; EvStderr (read_error_line path e)] (SysExit 1)
        | Return c =>
            match plan_query a (Some c) ≫= plan_report with
            | IO t res => IO (EvOpen path :: t) res
            end
        end
    | None => plan_query a None ≫= plan_report
    end.
Proof.
  unfold Plan.main. destruct (Llm.given (file a)) as [path|].
  - rewrite load_file_content_eq. destruct (read_text path) as [c|e]; [|done].
    reflexivity.
  - rewrite (lift_bind (A := option str) None). reflexivity.
Qed.

Lemma plan_report_prints v : prints (plan_lines v) (plan_report v).
Proof. unfold plan_report. do 2 apply prints_cons. apply prints_one. Qed.

(** The two ways a query of the planner ends: it exits when the key is not
    set, and otherwise posts its request and returns the answer or the text
    of the failure. *)
Lemma plan_query_cases a fc :
  let openai := str_eqb (provider a) (lit "openai") in
  let key := if openai then Plan.OPENAI_API_KEY else Plan.ANTHROPIC_API_KEY in
  let read := if openai then Llm.chat_content else Llm.anthropic_text in
  let r :=
    if openai
    then Plan.openai_request (generate_planning_prompt (prompt a) fc) (model a)
    else Plan.anthropic_request (generate_planning_prompt (prompt a) fc)
           (lit "claude-3-5-sonnet-20241022") in
  (nonempty key = false ∧
   ∃ line, plan_query a fc = IO [EvStderr line] (SysExit 1)) ∨
  (nonempty key = true ∧
   ∃ t, plan_query a fc
        = IO (EvPost r :: t)
             (Ret (match result_of r read with
                   | Return v => v
                   | Raise e => JStr (lit "Error: " ++ exn_str e)
                   end)) ∧
        (t = [] ∨ ∃ line, t = [EvStderr line])).
Proof.
  unfold plan_query. cbv zeta.
  destruct (str_eqb (provider a) (lit "openai")).
  - rewrite plan_query_openai_eq.
    destruct (nonempty Plan.OPENAI_API_KEY); [right | left; eauto].
    split; [done|]. destruct (result_of _ _); eauto 6.
  - rewrite plan_query_anthropic_eq.
    destruct (nonempty Plan.ANTHROPIC_API_KEY); [right | left; eauto].
    split; [done|]. destruct (result_of _ _); eauto 6.
Qed.

(** The run of [main] from the query on, and the whole run. *)
Lemma plan_run_cases a fc :
  let openai := str_eqb (provider a) (lit "openai") in
  let key := if openai then Plan.OPENAI_API_KEY else Plan.ANTHROPIC_API_KEY in
  let read := if openai then Llm.chat_content else Llm.anthropic_text in
  let r :=
    if openai
    then Plan.openai_request (generate_planning_prompt (prompt a) fc) (model a)
    else Plan.anthropic_request (generate_planning_prompt (prompt a) fc)
           (lit "claude-3-5-sonnet-20241022") in
  (nonempty key = false ∧
   ∃ line, plan_query a fc ≫= plan_report = IO [EvStderr line] (SysExit 1)) ∨
  (nonempty key = true ∧
   ∃ t t' res,
     plan_query a fc ≫= plan_report = IO ((EvPost r :: t) ++ t') res ∧
     (t = [] ∨ ∃ line, t = [EvStderr line]) ∧
     prints (plan_lines (match result_of r read with
                         | Return v => v
                         | Raise e => JStr (lit "Error: " ++ exn_str e)
                         end))
       (IO t' res)).
Proof.
  intros openai key read r.
  destruct (plan_query_cases a fc)
    as [(Hk & line & ->) | (Hk & t & -> & Ht)]; [left; eauto|].
  right. split; [done|].
  fold openai read r.
  set (v := match result_of r read with
            | Return v => v
            | Raise e => JStr (lit "Error: " ++ exn_str e)
            end).
  pose proof (plan_report_prints v) as Hp.
  destruct (plan_report v) as [t' res] eqn:Hrep.
  exists t, t', res. split; [|done].
  cbn [mbind io_bind]. by rewrite Hrep.
Qed.

End plan_facts.

Section plan_theorems.
Import Json Effects Plan.

(** X26. When the file named on the command line cannot be read, the
    planner writes one line on the standard error stream, naming the file
    and the exception, and exits with status 1: whatever the provider and
    the keys, no request is sent and nothing is printed. *)
Theorem plan_main_unreadable_file `{World} `{PlanEnv} (a : args) (path : str)
    (e : exn) :
  Llm.given (file a) = Some path →
  read_text path = Raise e →
  Plan.main a
  = IO [EvOpen path;
        EvStderr ((lit "Error reading file " ++ path ++ lit ": " ++
                   exn_str e) ++ [LF])]
       (SysExit 1).
Proof. intros Hg Hr. rewrite plan_main_eq, Hg, Hr. reflexivity. Qed.

Lemma plan_main_unreadable_file_witness :
  Llm.given (file (SampleWorld.plan_args (Some "gone.txt") "openai"))
  = Some (lit "gone.txt") ∧
  read_text (World := SampleWorld.sample_world) (lit "gone.txt")
  = Raise SampleWorld.no_such_file ∧
  Plan.main (H := SampleWorld.sample_world) (H0 := SampleWorld.plan_keys)
    (SampleWorld.plan_args (Some "gone.txt") "openai")
  = IO [EvOpen (lit "gone.txt");
        EvStderr (lit "Error reading file gone.txt: [Errno 2] No such file or directory" ++ [LF])]
       (SysExit 1).
Proof.
  split; [reflexivity|]. split; [reflexivity|].
  rewrite (plan_main_unreadable_file (H := SampleWorld.sample_world)
             (H0 := SampleWorld.plan_keys)
             (SampleWorld.plan_args (Some "gone.txt") "openai")
             (lit "gone.txt") SampleWorld.no_such_file eq_refl eq_refl).
  reflexivity.
Defined.

(** X27. When the key of the provider is not set (the key of Anthropic for
    every provider other than openai), the planner exits with status 1
    without sending a request or printing anything; the key is only looked at
    after the file was read, so a readable file has been opened by then. *)
Theorem plan_main_missing_key `{World} `{PlanEnv} (a : args) :
  (if str_eqb (provider a) (lit "openai")
   then Plan.OPENAI_API_KEY else Plan.ANTHROPIC_API_KEY) = [] →
  ∃ t,
    Plan.main a = IO t (SysExit 1) ∧
    requests_sent t = [] ∧
    printed t = [] ∧
    (∀ path c, Llm.given (file a) = Some path →
       read_text path = Return c → EvOpen path ∈ t).
Proof.
  intros Hk. rewrite plan_main_eq.
  assert (∀ fc, ∃ line,
            plan_query a fc ≫= plan_report = IO [EvStderr line] (SysExit 1))
    as Hrun.
  { intros fc.
    destruct (plan_run_cases a fc) as [(_ & Hline) | (Hset & _)]; [done|].
    cbv zeta in Hset. rewrite Hk in Hset. discriminate Hset. }
  destruct (Llm.given (file a)) as [path|];
    [destruct (read_text path) as [c|e]|].
  - destruct (Hrun (Some c)) as [line ->].
    eexists. split; [reflexivity|]. split; [reflexivity|].
    split; [reflexivity|]. intros path' c' [= <-] _. apply list_elem_of_here.
  - eexists. split; [reflexivity|]. split; [reflexivity|].
    split; [reflexivity|]. intros path' c' [= <-] _. apply list_elem_of_here.
  - destruct (Hrun None) as [line ->].
    eexists. split; [reflexivity|]. split; [reflexivity|].
    split; [reflexivity|]. intros path' c' [=].
Qed.

Lemma plan_main_missing_key_witness :
  Plan.ANTHROPIC_API_KEY (PlanEnv := SampleWorld.no_plan_keys) = [] ∧
  Plan.main (H := SampleWorld.sample_world) (H0 := SampleWorld.no_plan_keys)
    (SampleWorld.plan_args (Some "notes.txt") "anthropic")
  = IO [EvOpen (lit "notes.txt");
        EvStderr (lit "Error: ANTHROPIC_API_KEY environment variable not set"
                  ++ [LF])]
       (SysExit 1).
Proof.
  split; [reflexivity|].
  destruct (plan_main_missing_key (H := SampleWorld.sample_world)
              (H0 := SampleWorld.no_plan_keys)
              (SampleWorld.plan_args (Some "notes.txt") "anthropic") eq_refl)
    as (t & Hmain & _).
  rewrite Hmain. symmetry. rewrite <- Hmain. reflexivity.
Defined.

(** X28. Every run of the planner ends in one of three ways.  It exits
    with status 1, and then it sent no request and printed nothing.  Or it
    sent exactly one request and then printed the opening banner, the answer
    and the closing banner, and returned; the answer is the text Error: with
    the exception when the request, its status or the reading of the body
    failed, so a failed request is reported in the output and the run still
    ends normally.  Or, after that one request, the standard output refused
    one of these three texts: the run then stops with the exception of the
    stream, the texts before that one printed.  No other exception
    escapes. *)
Theorem plan_main_outcomes `{World} `{PlanEnv} (a : args) :
  let read :=
    if str_eqb (provider a) (lit "openai")
    then Llm.chat_content else Llm.anthropic_text in
  (∃ t, Plan.main a = IO t (SysExit 1) ∧
        requests_sent t = [] ∧ printed t = []) ∨
  (∃ t r t' res,
     Plan.main a = IO (t ++ t') res ∧
     requests_sent t = [EvPost r] ∧
     printed t = [] ∧
     prints [banner_open;
             py_str (match result_of r read with
                     | Return v => v
                     | Raise e => JStr (lit "Error: " ++ exn_str e)
                     end);
             banner_close]
       (IO t' res)).
Proof.
  intros read. rewrite plan_main_eq.
  destruct (Llm.given (file a)) as [path|];
    [destruct (read_text path) as [c|e];
     [|left; eexists; split; [reflexivity | split; reflexivity]]|].
  - destruct (plan_run_cases a (Some c))
      as [(_ & line & ->) | (_ & t & t' & res & -> & Ht & Hp)].
    + left. eexists. split; [reflexivity | split; reflexivity].
    + right. eexists (EvOpen path :: EvPost _ :: t), _, t', res.
      split; [reflexivity|].
      split; [by destruct Ht as [-> | [line ->]]|].
      split; [by destruct Ht as [-> | [line ->]]|].
      exact Hp.
  - destruct (plan_run_cases a None)
      as [(_ & line & ->) | (_ & t & t' & res & -> & Ht & Hp)].
    + left. eexists. split; [reflexivity | split; reflexivity].
    + right. eexists (EvPost _ :: t), _, t', res.
      split; [reflexivity|].
      split; [by destruct Ht as [-> | [line ->]]|].
      split; [by destruct Ht as [-> | [line ->]]|].
      exact Hp.
Qed.

(** X29. An empty file is treated as no file: when the file named on the
    command line is read and is empty, the run is the run of the same
    command line without the file, after the file was opened; the request
    and the output are the same. *)
Theorem plan_main_empty_file `{World} `{PlanEnv} (a : args) (path : str) :
  Llm.given (file a) = Some path →
  read_text path = Return [] →
  ∃ t res,
    Plan.main (without_file a) = IO t res ∧
    Plan.main a = IO (EvOpen path :: t) res.
Proof.
  intros Hg Hr. rewrite !plan_main_eq, Hg, Hr.
  change (Llm.given (file (without_file a))) with (@None str).
  set (q := plan_query a (Some _)).
  change (plan_query (without_file a) None) with q.
  destruct (q ≫= plan_report) as [t res].
  eexists _, _; split; reflexivity.
Qed.

Lemma plan_main_empty_file_witness :
  read_text (World := SampleWorld.sample_world) (lit "empty.txt") = Return [] ∧
  ∃ t,
    Plan.main (H := SampleWorld.sample_world) (H0 := SampleWorld.plan_keys)
      (SampleWorld.plan_args None "openai") = IO t (Ret tt) ∧
    Plan.main (H := SampleWorld.sample_world) (H0 := SampleWorld.plan_keys)
      (SampleWorld.plan_args (Some "empty.txt") "openai")
    = IO (EvOpen (lit "empty.txt") :: t) (Ret tt).
Proof.
  split; [reflexivity|].
  destruct (plan_main_empty_file (H := SampleWorld.sample_world)
              (H0 := SampleWorld.plan_keys)
              (SampleWorld.plan_args (Some "empty.txt") "openai")
              (lit "empty.txt") eq_refl eq_refl) as (t & res & Hwithout & Hwith).
  exists t.
  assert (res = Ret tt) as ->.
  { change (without_file (SampleWorld.plan_args (Some "empty.txt") "openai"))
      with (SampleWorld.plan_args None "openai") in Hwithout.
    assert (outcome_of (Plan.main (H := SampleWorld.sample_world)
                          (H0 := SampleWorld.plan_keys)
                          (SampleWorld.plan_args None "openai")) = Ret tt)
      as Hout by reflexivity.
    rewrite Hwithout in Hout. exact Hout. }
  split; [exact Hwithout | exact Hwith].
Defined.

(** X30. The request of the planner.  Whenever a request is sent, its
    payload has the temperature 0.7, 4000 tokens at most, and one user
    message whose content is the planning prompt itself (a text, not a list
    of parts), built from the prompt and the content of the file.  For the
    provider openai it goes to the OpenAI API with the model of the command
    line; for any other provider it goes to the Anthropic API with the model
    claude-3-5-sonnet-20241022, whatever model the command line names. *)
Theorem plan_main_request `{World} `{PlanEnv} (a : args) (r : request) :
  EvPost r ∈ trace_of (Plan.main a) →
  let file_content :=
    match Llm.given (file a) with
    | Some path =>
        match read_text path with Return c => Some c | Raise _ => None end
    | None => None
    end in
  let planning_prompt := generate_planning_prompt (prompt a) file_content in
  let openai := str_eqb (provider a) (lit "openai") in
  req_url r = (if openai then Llm.openai_url else Llm.anthropic_url) ∧
  req_json r
  = Some (Llm.jobj
            [("model",
              JStr (if openai then model a
                    else lit "claude-3-5-sonnet-20241022"));
             ("messages", JList [Llm.user_message (JStr planning_prompt)]);
             ("temperature", JFloat Llm.default_temperature);
             ("max_tokens", JInt 4000)]).
Proof.
  rewrite plan_main_eq. cbv zeta.
  assert (∀ fc,
            EvPost r ∈ trace_of (plan_query a fc ≫= plan_report) →
            r = if str_eqb (provider a) (lit "openai")
                then Plan.openai_request
                       (generate_planning_prompt (prompt a) fc) (model a)
                else Plan.anthropic_request
                       (generate_planning_prompt (prompt a) fc)
                       (lit "claude-3-5-sonnet-20241022")) as Hpost.
  { intros fc.
    destruct (plan_run_cases a fc)
      as [(_ & line & ->) | (_ & t & t' & res & -> & Ht & Hp)];
      cbn [trace_of].
    - intros [[=]|[]%elem_of_nil]%elem_of_cons.
    - intros [Hin|Hin]%elem_of_app.
      + apply elem_of_cons in Hin as [[= ->]|Hin]; [done|].
        destruct Ht as [-> | [line ->]].
        * by apply elem_of_nil in Hin.
        * by apply list_elem_of_singleton in Hin.
      + exfalso. apply prints_trace in Hp as [l ->].
        by apply list_elem_of_fmap in Hin as (s & [=] & _). }
  assert (∀ fc,
            EvPost r ∈ trace_of (plan_query a fc ≫= plan_report) →
            req_url r
            = (if str_eqb (provider a) (lit "openai")
               then Llm.openai_url else Llm.anthropic_url) ∧
            req_json r
            = Some (Llm.jobj
                      [("model",
                        JStr (if str_eqb (provider a) (lit "openai")
                              then model a
                              else lit "claude-3-5-sonnet-20241022"));
                       ("messages",
                        JList [Llm.user_message
                                 (JStr (generate_planning_prompt (prompt a)
                                          fc))]);
                       ("temperature", JFloat Llm.default_temperature);
                       ("max_tokens", JInt 4000)])) as Hreq.
  { intros fc Hin. rewrite (Hpost fc Hin).
    by destruct (str_eqb (provider a) (lit "openai")). }
  destruct (Llm.given (file a)) as [path|];
    [destruct (read_text path) as [c|e]|].
  - destruct (plan_query a (Some c) ≫= plan_report) as [t res] eqn:Hrun.
    cbn [trace_of]. intros [[=]|Hin]%elem_of_cons.
    apply (Hreq (Some c)). by rewrite Hrun.
  - cbn [trace_of]. intros Hin.
    repeat (apply elem_of_cons in Hin as [Hin|Hin]; [discriminate Hin|]).
    by apply elem_of_nil in Hin.
  - apply (Hreq None).
Qed.

Lemma plan_main_request_witness :
  let a := SampleWorld.plan_args (Some "notes.txt") "anthropic" in
  let r := Plan.anthropic_request (H0 := SampleWorld.plan_keys)
             (generate_planning_prompt (lit "plan") (Some (lit "some notes")))
             (lit "claude-3-5-sonnet-20241022") in
  EvPost r ∈ trace_of (Plan.main (H := SampleWorld.sample_world)
                         (H0 := SampleWorld.plan_keys) a) ∧
  Llm.payload_field r "model" = Some (JStr (lit "claude-3-5-sonnet-20241022")).
Proof.
  intros a r.
  assert (EvPost r ∈ trace_of (Plan.main (H := SampleWorld.sample_world)
                                 (H0 := SampleWorld.plan_keys) a)) as Hin.
  { apply list_elem_of_further, list_elem_of_here. }
  split; [exact Hin|].
  destruct (plan_main_request (H := SampleWorld.sample_world)
              (H0 := SampleWorld.plan_keys) a r Hin) as [_ Hjson].
  unfold Llm.payload_field. rewrite Hjson. reflexivity.
Defined.

End plan_theorems.

(* ===================================================================== *)
(** ** The report of a search *)
(* ===================================================================== *)

Section search_main.
Import Json Effects Search.
Context `{World} `{SearchEnv} `{BeautifulSoup}.

Lemma hit_lookups (d : dict) :
  is_hit d →
  d !! lit "error" = None ∧
  ∃ url title snippet,
    d !! lit "url" = Some url ∧ d !! lit "title" = Some title ∧
    d !! lit "snippet" = Some snippet.
Proof.
  unfold is_hit. intros Hdom.
  assert (∀ k, is_Some (d !! k)
               ↔ k = lit "title" ∨ k = lit "url" ∨ k = lit "snippet") as Hk.
  { intros k. rewrite <- elem_of_dom, Hdom.
    rewrite !elem_of_union, !elem_of_singleton. tauto. }
  split.
  - apply eq_None_not_Some. rewrite Hk. intros [Hx|[Hx|Hx]]; discriminate Hx.
  - destruct (proj2 (Hk (lit "url"))) as [url Hurl]; [auto|].
    destruct (proj2 (Hk (lit "title"))) as [title Htitle]; [auto|].
    destruct (proj2 (Hk (lit "snippet"))) as [snippet Hsnippet]; [auto|].
    eauto 10.
Qed.

Lemma print_result_hit (d : dict) :
  is_hit d → ∃ lines, lines_of d lines ∧ prints lines (print_result d).
Proof.
  intros Hhit.
  destruct (hit_lookups d Hhit)
    as (Herr & url & title & snippet & Hurl & Htitle & Hsnippet).
  eexists. split.
  - right. split; [done|]. exists url, title, snippet. done.
  - unfold print_result, dict_getitem.
    rewrite Herr, Hurl, Htitle, Hsnippet, !lift_bind.
    do 3 apply prints_cons. apply prints_one.
Qed.

Lemma print_result_error (msg : str) :
  ∃ lines,
    lines_of {[ lit "error" := JStr msg ]} lines ∧
    prints lines (print_result {[ lit "error" := JStr msg ]}).
Proof.
  eexists. split.
  - left. exists (JStr msg). split; [apply lookup_singleton_eq | done].
  - unfold print_result. rewrite lookup_singleton_eq. apply prints_one.
Qed.

Lemma print_results_blocks (results : list dict) :
  Forall (λ d, ∃ lines, lines_of d lines ∧ prints lines (print_result d))
    results →
  ∃ blocks,
    Forall2 lines_of results blocks ∧
    Forall2 (λ d block, prints block (print_result d)) results blocks.
Proof.
  induction 1 as [|d results (lines & Hlines & Hd) _ (blocks & Hall & Hrest)].
  - exists []. split; constructor.
  - exists (lines :: blocks). split; by constructor.
Qed.

(** X20. The report of a search.  Every result [main] is given has the
    keys it prints, so no key is ever missing.  After the search, which
    always returns, [main] prints for each result in order either the text
    Error: with the message, or the four texts URL:, Title:, Snippet: and an
    empty one; it calls [requests.get] no more.  It returns when the
    standard output takes every text, and otherwise stops with the exception
    of the first text refused, the texts before that one printed. *)
Theorem search_main_report (query : str) (num_results : Z) (engine : str) :
  ∃ t results blocks t' res,
    perform_search query num_results engine = IO t (Ret results) ∧
    Forall2 lines_of results blocks ∧
    Search.main query num_results engine = IO (t ++ t') res ∧
    prints (concat blocks) (IO t' res).
Proof.
  destruct (perform_search_shape query num_results engine)
    as (t & results & Hsearch & _ & Hshape).
  destruct (print_results_blocks results) as (blocks & Hlines & Hprints).
  { destruct Hshape as [[msg ->] | Hhits].
    - repeat constructor. apply print_result_error.
    - eapply Forall_impl; [exact Hhits|]. apply print_result_hit. }
  apply for_each_prints in Hprints.
  destruct (for_each Search.print_result results) as [t' res] eqn:Hrun.
  exists t, results, blocks, t', res.
  split; [exact Hsearch|]. split; [exact Hlines|]. split; [|exact Hprints].
  unfold Search.main. rewrite Hsearch.
  cbn [mbind io_bind]. by rewrite Hrun.
Qed.

End search_main.
